(** * Browser front end for translation and summarization: API, UI and App

    A shallow embedding of the three JavaScript modules of the repository:
    - [API] (src/frontend/js/api.js): the transport client,
    - [UI]  (src/unnamed/part_000): the presentation helper,
    - [App] (src/unnamed/part_001): the controller.

    JavaScript strings are sequences of UTF-16 code units, JSON responses
    are untyped values, the document is a finite map from element
    identifiers to elements, and every function of the source is a
    computation in a state-and-exception monad over that document.

    An [async] handler is run from its event to its end, the backend being
    a function from requests to outcomes; nothing else runs while it
    awaits. The theme, the storage, the clipboard, file downloads and the
    listeners are state of the page beside the document ([Browser]); the
    console is left out: no property below depends on it. *)

From Stdlib Require Import ZArith NArith List Ascii String DecimalString.
From stdpp Require Import base option list gmap strings.

(** ** JavaScript strings *)

Module Str.

(** A JavaScript string: its UTF-16 code units. [length] is the [.length]
    property. *)
Definition ustring := list N.

(** A literal of the source written in ASCII. *)
Definition lit (s : string) : ustring :=
  map N_of_ascii (list_ascii_of_string s).
Arguments lit : simpl never.

(** ECMAScript WhiteSpace and LineTerminator code points: the characters
    removed by [String.prototype.trim] and matched by the regular
    expression class [\s]. *)
Definition is_ws (c : N) : bool :=
  (((9 <=? c) && (c <=? 13)) || (c =? 32) || (c =? 160) || (c =? 5760)
   || ((8192 <=? c) && (c <=? 8202)) || (c =? 8232) || (c =? 8233)
   || (c =? 8239) || (c =? 8287) || (c =? 12288) || (c =? 65279))%N.

Fixpoint trimStart (s : ustring) : ustring :=
  match s with
  | [] => []
  | c :: s' => if is_ws c then trimStart s' else s
  end.

Fixpoint trimEnd (s : ustring) : ustring :=
  match s with
  | [] => []
  | c :: s' =>
      match trimEnd s' with
      | [] => if is_ws c then [] else [c]
      | r => c :: r
      end
  end.

(** [s.trim()] *)
Definition trim (s : ustring) : ustring := trimEnd (trimStart s).

(** [s.split(/\s+/)]: the pieces of [s] between maximal runs of white
    space, the empty pieces before a leading run and after a trailing run
    included. [cur] is the piece being read, [prev_ws] tells whether the
    previous character belonged to a separator. *)
Fixpoint split_ws_from (cur : ustring) (prev_ws : bool) (s : ustring)
  : list ustring :=
  match s with
  | [] => [cur]
  | c :: s' =>
      if is_ws c then
        if prev_ws then split_ws_from cur true s'
        else cur :: split_ws_from [] true s'
      else split_ws_from (cur ++ [c]) false s'
  end.

Definition split_ws (s : ustring) : list ustring := split_ws_from [] false s.

(** Truthiness of a string: the empty string is falsy. *)
Definition nonempty (s : ustring) : bool :=
  match s with [] => false | _ => true end.

(** Decimal rendering of an integer, as a template literal prints a
    number that holds it exactly. *)
Definition dec (z : Z) : ustring := lit (NilZero.string_of_int (Z.to_int z)).

Definition eqb (a b : ustring) : bool := bool_decide (a = b).

(** The number of white-space-delimited tokens of a string, counted as the
    spec words it: a token starts at every character that is not white
    space and is first in the string or follows white space. *)
Fixpoint token_starts (prev_ws : bool) (s : ustring) : nat :=
  match s with
  | [] => 0
  | c :: s' =>
      if is_ws c then token_starts true s'
      else ((if prev_ws then 1 else 0) + token_starts false s')%nat
  end.

Definition token_count (s : ustring) : nat := token_starts true s.

(** Whether the last character of [s] is white space, [p] standing for
    the character before [s]. *)
Fixpoint last_ws (p : bool) (s : ustring) : bool :=
  match s with
  | [] => p
  | c :: s' => last_ws (is_ws c) s'
  end.

(** A string is blank when all its characters are white space. *)
Definition blank (s : ustring) : Prop := Forall (fun c => is_ws c = true) s.

End Str.

Import Str.

(** ** JavaScript values and exceptions *)

Module Js.

(** The values a parsed JSON response is made of, and [undefined], which a
    read of a missing property gives. A number is kept as the decimal text
    JavaScript prints for it (its ToString): the source only tests numbers
    for truthiness and interpolates them into messages. An object is the
    list of its own properties, each name occurring once. *)
#[warnings="-register-all"] Inductive JSValue :=
| JUndefined
| JNull
| JBool (b : bool)
| JNum (repr : ustring)
| JStr (s : ustring)
| JArr (xs : list JSValue)
| JObj (fields : list (ustring * JSValue)).

Inductive JSError :=
| TypeError
| NetworkError
| SyntaxError
| SecurityError
| QuotaExceededError.

(** ToBoolean *)
Definition truthy (v : JSValue) : bool :=
  match v with
  | JUndefined | JNull => false
  | JBool b => b
  | JNum r => negb (Str.eqb r (lit "0"))
  | JStr s => nonempty s
  | JArr _ | JObj _ => true
  end.

(** [a || b] *)
Definition or_else (a b : JSValue) : JSValue := if truthy a then a else b.

Fixpoint join_comma (l : list ustring) : ustring :=
  match l with
  | [] => []
  | [x] => x
  | x :: l' => x ++ lit "," ++ join_comma l'
  end.

(** ToString, as applied by a template literal and by the setter of a
    string-valued DOM property, of a value that has a string form. An
    object with a property [toString] of its own has none in a parsed
    response, where no property is callable: the properties below leave
    such values out where they rely on the conversion. *)
Fixpoint to_string (v : JSValue) : ustring :=
  match v with
  | JUndefined => lit "undefined"
  | JNull => lit "null"
  | JBool true => lit "true"
  | JBool false => lit "false"
  | JNum r => r
  | JStr s => s
  | JArr xs =>
      join_comma
        (map (fun x => match x with
                       | JUndefined | JNull => []
                       | _ => to_string x
                       end) xs)
  | JObj _ => lit "[object Object]"
  end.

(** The setter of [textarea.value] turns [null] into the empty string. *)
Definition to_value_string (v : JSValue) : ustring :=
  match v with JNull => [] | _ => to_string v end.

Fixpoint assoc (k : ustring) (fs : list (ustring * JSValue)) : option JSValue :=
  match fs with
  | [] => None
  | (k', v) :: fs' => if Str.eqb k k' then Some v else assoc k fs'
  end.

(** [v.k] for one of the property names the source reads (success, error,
    translated_text, summary, processing_time, languages, code, name,
    native), none of which a built-in prototype defines: [None] stands for
    the TypeError of a read on [null] or [undefined]. *)
Definition prop (v : JSValue) (k : ustring) : option JSValue :=
  match v with
  | JUndefined | JNull => None
  | JObj fs => Some (default JUndefined (assoc k fs))
  | _ => Some JUndefined
  end.

(** [v === 'literal'] *)
Definition is_string (v : JSValue) (s : ustring) : bool :=
  match v with JStr s' => Str.eqb s' s | _ => false end.

End Js.

Import Js.

(** ** The document and the state-and-exception monad *)

Module Dom.

(** An [option] child of a select element. *)
Record OptionElement := {
  opt_value : ustring;
  opt_text : ustring
}.

(** An element of the page, as far as the source looks at it: the
    properties it reads or writes, each a stored field. *)
Record Element := {
  (** of a text area its text, of a select element the value of the
      selected option; an assignment stores the value given, which for a
      select element presupposes an option of that value, and for a text
      area a text without carriage return: the properties below say so
      where they rely on an assignment *)
  value : ustring;
  textContent : ustring;
  disabled : bool;
  classList : gset string;
  (** [style.opacity] of the descendant of class btn-text, if there is one *)
  btnText : option ustring;
  (** the option children *)
  options : list OptionElement
}.

Definition with_value (v : ustring) (e : Element) : Element :=
  {| value := v; textContent := textContent e; disabled := disabled e;
     classList := classList e; btnText := btnText e; options := options e |}.

Definition with_textContent (t : ustring) (e : Element) : Element :=
  {| value := value e; textContent := t; disabled := disabled e;
     classList := classList e; btnText := btnText e; options := options e |}.

Definition with_disabled (b : bool) (e : Element) : Element :=
  {| value := value e; textContent := textContent e; disabled := b;
     classList := classList e; btnText := btnText e; options := options e |}.

Definition with_classList (c : gset string) (e : Element) : Element :=
  {| value := value e; textContent := textContent e; disabled := disabled e;
     classList := c; btnText := btnText e; options := options e |}.

Definition with_btnText (o : option ustring) (e : Element) : Element :=
  {| value := value e; textContent := textContent e; disabled := disabled e;
     classList := classList e; btnText := o; options := options e |}.

Definition with_options (l : list OptionElement) (e : Element) : Element :=
  {| value := value e; textContent := textContent e; disabled := disabled e;
     classList := classList e; btnText := btnText e; options := l |}.

Inductive Method := GET | POST.

(** A call of [fetch]. The body is the payload handed to
    [JSON.stringify]. *)
Record Request := {
  req_method : Method;
  req_url : ustring;
  req_json : bool;   (* the Content-Type: application/json header *)
  req_body : option JSValue
}.

(** [App.state] *)
Record AppState := {
  languages : JSValue;
  currentInputText : ustring;
  currentOutputText : JSValue
}.

(** A callback handed to [setTimeout]. *)
Inductive TimerAction := HideStatusBar.

(** Everything a run of the source can read or change. *)
Record World := {
  (** the elements that have an id *)
  dom : gmap string Element;
  (** for each radio group name, the value of its checked button *)
  radios : gmap string ustring;
  app : AppState;
  (** the calls of [fetch] made so far, oldest first *)
  requests : list Request;
  (** the timers set so far, with their delay in milliseconds *)
  timers : list (TimerAction * Z)
}.

Definition with_dom (d : gmap string Element) (w : World) : World :=
  {| dom := d; radios := radios w; app := app w;
     requests := requests w; timers := timers w |}.

Definition with_app (a : AppState) (w : World) : World :=
  {| dom := dom w; radios := radios w; app := a;
     requests := requests w; timers := timers w |}.

Definition with_requests (r : list Request) (w : World) : World :=
  {| dom := dom w; radios := radios w; app := app w;
     requests := r; timers := timers w |}.

Definition with_timers (t : list (TimerAction * Z)) (w : World) : World :=
  {| dom := dom w; radios := radios w; app := app w;
     requests := requests w; timers := t |}.

(** How a piece of code ends: with a value, with a thrown exception, or
    suspended for ever at an [await] whose promise never settles. *)
Inductive Completion (A : Type) :=
| Normal (a : A)
| Throw (e : JSError)
| Pending.
Arguments Normal {A} a.
Arguments Throw {A} e.
Arguments Pending {A}.

Definition M (A : Type) : Type := World -> Completion A * World.

Definition ret {A} (a : A) : M A := fun w => (Normal a, w).

Definition bind {A B} (m : M A) (k : A -> M B) : M B :=
  fun w =>
    match m w with
    | (Normal a, w') => k a w'
    | (Throw e, w') => (Throw e, w')
    | (Pending, w') => (Pending, w')
    end.

Definition throw {A} (e : JSError) : M A := fun w => (Throw e, w).

Definition modify (f : World -> World) : M unit := fun w => (Normal tt, f w).

(** [try { body } catch (error) { handler }] *)
Definition try_catch {A} (body : M A) (handler : JSError -> M A) : M A :=
  fun w =>
    match body w with
    | (Throw e, w') => handler e w'
    | r => r
    end.

(** [try { body } finally { fin }]: the finally block runs when the body
    returns or throws, and its own exception replaces the outcome. *)
Definition try_finally {A} (body : M A) (fin : M unit) : M A :=
  fun w =>
    match body w with
    | (Pending, w') => (Pending, w')
    | (r, w') =>
        match fin w' with
        | (Normal _, w'') => (r, w'')
        | (Throw e, w'') => (Throw e, w'')
        | (Pending, w'') => (Pending, w'')
        end
    end.

(** A reference to an element: [None] is [null], [Some id] the element
    with that id. Elements are never removed, so an id obtained from
    [getElementById] keeps naming the same element. *)
Definition Ref := option string.

(** The reference to the element with an id, [null] if there is none. *)
Definition ref_of (id : string) (w : World) : Ref :=
  match dom w !! id with Some _ => Some id | None => None end.

Definition getElementById (id : string) : M Ref :=
  fun w => (Normal (ref_of id w), w).

Definition is_null (r : Ref) : bool :=
  match r with None => true | Some _ => false end.

(** Read a property of the element a reference points to; on [null] this
    is a TypeError. *)
Definition read {A} (r : Ref) (f : Element -> A) : M A :=
  fun w =>
    match r with
    | None => (Throw TypeError, w)
    | Some id =>
        match dom w !! id with
        | Some e => (Normal (f e), w)
        | None => (Throw TypeError, w)
        end
    end.

(** Write a property of the element a reference points to. *)
Definition write (r : Ref) (f : Element -> Element) : M unit :=
  fun w =>
    match r with
    | None => (Throw TypeError, w)
    | Some id =>
        match dom w !! id with
        | Some e => (Normal tt, with_dom (<[id := f e]> (dom w)) w)
        | None => (Throw TypeError, w)
        end
    end.

(** [v.k] as a computation. *)
Definition get_prop (v : JSValue) (k : string) : M JSValue :=
  match prop v (lit k) with
  | Some x => ret x
  | None => throw TypeError
  end.

(** [xs.forEach(f)]; a value that is not an array has no callable
    [forEach]. *)
Fixpoint iter (f : JSValue -> M unit) (xs : list JSValue) : M unit :=
  match xs with
  | [] => ret tt
  | x :: xs' => bind (f x) (fun _ => iter f xs')
  end.

Definition forEach (v : JSValue) (f : JSValue -> M unit) : M unit :=
  match v with
  | JArr xs => iter f xs
  | _ => throw TypeError
  end.

Definition setTimeout (a : TimerAction) (delay : Z) : M unit :=
  modify (fun w => with_timers (timers w ++ [(a, delay)]) w).

End Dom.

Import Dom.

Declare Scope js_scope.
Delimit Scope js_scope with js.
Notation "x <- c ;; k" := (bind c (fun x => k))
  (at level 100, c at next level, right associativity) : js_scope.
Notation "c ;; k" := (bind c (fun _ => k))
  (at level 100, right associativity) : js_scope.
Open Scope js_scope.

(** ** UI: the presentation helper (src/unnamed/part_000) *)

Module UI.

(** The [type] argument of [showStatus]; every call of the source passes
    one of these three literals, ['info'] being the default. *)
Inductive StatusType := TInfo | TSuccess | TError.

(** The default of the [duration] argument of [showStatus]. *)
Definition default_duration : Z := 3000.

(** [`Characters: ${charCount} | Words: ${wordCount}`] *)
Definition stats_text (charCount wordCount : nat) : ustring :=
  lit "Characters: " ++ dec (Z.of_nat charCount)
  ++ lit " | Words: " ++ dec (Z.of_nat wordCount).

(** [text.trim() ? text.trim().split(/\s+/).length : 0] *)
Definition wordCount (text : ustring) : nat :=
  if nonempty (trim text) then length (split_ws (trim text)) else 0%nat.

Definition updateStats (textAreaId statsId : string) : M unit :=
  textArea <- getElementById textAreaId ;;
  stats <- getElementById statsId ;;
  if is_null textArea || is_null stats then ret tt
  else
    text <- read textArea value ;;
    let charCount := length text in
    write stats (with_textContent (stats_text charCount (wordCount text))).

(** [button.querySelector('.btn-text')]: whether the button has such a
    descendant. The call is a TypeError when [button] is [null]. *)
Definition querySelector_btnText (button : Ref) : M bool :=
  read button (fun e => bool_decide (is_Some (btnText e))).

Definition set_opacity (o : ustring) (e : Element) : Element :=
  with_btnText (Some o) e.

Definition showLoading (buttonId spinnerId : string) : M unit :=
  button <- getElementById buttonId ;;
  spinner <- getElementById spinnerId ;;
  btnText <- querySelector_btnText button ;;
  if negb (is_null button) && negb (is_null spinner) then
    write button (with_disabled true) ;;
    write spinner (fun e => with_classList ({["active"]} ∪ classList e) e) ;;
    if btnText then write button (set_opacity (lit "0.7")) else ret tt
  else ret tt.

Definition hideLoading (buttonId spinnerId : string) : M unit :=
  button <- getElementById buttonId ;;
  spinner <- getElementById spinnerId ;;
  btnText <- querySelector_btnText button ;;
  if negb (is_null button) && negb (is_null spinner) then
    write button (with_disabled false) ;;
    write spinner (fun e => with_classList (classList e ∖ {["active"]}) e) ;;
    if btnText then write button (set_opacity (lit "1")) else ret tt
  else ret tt.

Definition showStatus (message : ustring) (type : StatusType) (duration : Z)
  : M unit :=
  statusBar <- getElementById "statusBar" ;;
  statusMessage <- getElementById "statusMessage" ;;
  if is_null statusBar || is_null statusMessage then ret tt
  else
    write statusBar
      (fun e => with_classList
                  (classList e ∖ {["success"; "error"; "show"]}) e) ;;
    write statusMessage (with_textContent message) ;;
    match type with
    | TSuccess =>
        write statusBar (fun e => with_classList ({["success"]} ∪ classList e) e)
    | TError =>
        write statusBar (fun e => with_classList ({["error"]} ∪ classList e) e)
    | TInfo => ret tt
    end ;;
    write statusBar (fun e => with_classList ({["show"]} ∪ classList e) e) ;;
    if (0 <? duration)%Z then setTimeout HideStatusBar duration else ret tt.

(** The body of the callback of [forEach] in [populateLanguageDropdown]. *)
Definition add_language (select : Ref) (excludeAuto : bool) (lang : JSValue)
  : M unit :=
  skip <- (if excludeAuto then
             code <- get_prop lang "code" ;;
             ret (is_string code (lit "auto"))
           else ret false) ;;
  if skip then ret tt
  else
    code <- get_prop lang "code" ;;
    name <- get_prop lang "name" ;;
    native <- get_prop lang "native" ;;
    let option :=
      {| opt_value := to_string code;
         opt_text := to_string name ++ lit " (" ++ to_string native ++ lit ")" |} in
    write select (fun e => with_options (options e ++ [option]) e).

Definition populateLanguageDropdown (selectId : string) (languages : JSValue)
  (excludeAuto : bool) : M unit :=
  select <- getElementById selectId ;;
  if is_null select then ret tt
  else
    write select (with_options []) ;;
    forEach languages (add_language select excludeAuto).

Definition toggleSummarySection : M unit :=
  summarySection <- getElementById "summarySection" ;;
  if negb (is_null summarySection) then
    write summarySection
      (fun e => with_classList
                  (if bool_decide ("collapsed" ∈ classList e)
                   then classList e ∖ {["collapsed"]}
                   else {["collapsed"]} ∪ classList e) e)
  else ret tt.

Definition updateOutputButtons (hasText : bool) : M unit :=
  copyBtn <- getElementById "copyOutput" ;;
  downloadBtn <- getElementById "downloadOutput" ;;
  (if negb (is_null copyBtn) then write copyBtn (with_disabled (negb hasText))
   else ret tt) ;;
  (if negb (is_null downloadBtn)
   then write downloadBtn (with_disabled (negb hasText))
   else ret tt).

Definition swapLanguages : M unit :=
  sourceSelect <- getElementById "sourceLanguage" ;;
  targetSelect <- getElementById "targetLanguage" ;;
  if is_null sourceSelect || is_null targetSelect then ret tt
  else
    source <- read sourceSelect value ;;
    if Str.eqb source (lit "auto") then
      showStatus (lit "Cannot swap with auto-detect") TError 2000
    else
      temp <- read sourceSelect value ;;
      target <- read targetSelect value ;;
      write sourceSelect (with_value target) ;;
      write targetSelect (with_value temp) ;;
      showStatus (lit "Languages swapped") TSuccess 1500.

(** [document.querySelector(`input[name="${name}"]:checked`)] and the
    value of the button found, [None] being [null]. *)
Definition getRadioValue (name : string) : M (option ustring) :=
  fun w => (Normal (radios w !! name), w).

(** [radio || fallback], for the result of [getRadioValue]. *)
Definition radio_or (r : option ustring) (fallback : ustring) : ustring :=
  match r with
  | Some v => if nonempty v then v else fallback
  | None => fallback
  end.

Definition validateInput (text : ustring) (minLength : Z) : M bool :=
  if negb (nonempty text) || negb (nonempty (trim text)) then
    showStatus (lit "Please enter some text") TError default_duration ;;
    ret false
  else if (Z.of_nat (length (trim text)) <? minLength)%Z then
    showStatus (lit "Text must be at least " ++ dec minLength ++ lit " characters")
      TError default_duration ;;
    ret false
  else ret true.

End UI.

(** ** API: the transport client (src/frontend/js/api.js) *)

Module API.

Definition baseURL : ustring := lit "http://localhost:5000".

(** What awaiting [response.json()] gives. *)
Inductive BodyOutcome :=
| JsonRejects (e : JSError)
| JsonPending
| JsonResolves (v : JSValue).

(** What awaiting [fetch(...)] gives. *)
Inductive FetchOutcome :=
| FetchRejects (e : JSError)
| FetchPending
| FetchResolves (body : BodyOutcome).

(** The object returned when the request fails. *)
Definition connect_failure : JSValue :=
  JObj [ (lit "success", JBool false);
         (lit "error",
          JStr (lit "Failed to connect to server. Please ensure the backend is running.")) ].

Section Network.

(** The backend and the network between it and the page. *)
Variable net : Request -> FetchOutcome.

Definition fetch (req : Request) : M BodyOutcome :=
  fun w =>
    let w' := with_requests (requests w ++ [req]) w in
    match net req with
    | FetchRejects e => (Throw e, w')
    | FetchPending => (Pending, w')
    | FetchResolves body => (Normal body, w')
    end.

Definition response_json (body : BodyOutcome) : M JSValue :=
  match body with
  | JsonRejects e => throw e
  | JsonPending => fun w => (Pending, w)
  | JsonResolves v => ret v
  end.

Definition post (endpoint : ustring) (data : JSValue) : M JSValue :=
  try_catch
    (response <- fetch {| req_method := POST; req_url := baseURL ++ endpoint;
                          req_json := true; req_body := Some data |} ;;
     response_json response)
    (fun error => ret connect_failure).

Definition get (endpoint : ustring) : M JSValue :=
  try_catch
    (response <- fetch {| req_method := GET; req_url := baseURL ++ endpoint;
                          req_json := false; req_body := None |} ;;
     response_json response)
    (fun error => ret connect_failure).

Definition translate (text sourceLang targetLang model : ustring) : M JSValue :=
  post (lit "/translate")
    (JObj [ (lit "text", JStr text); (lit "source", JStr sourceLang);
            (lit "target", JStr targetLang); (lit "model", JStr model) ]).

Definition summarize (text model length format : ustring) : M JSValue :=
  post (lit "/summarize")
    (JObj [ (lit "text", JStr text); (lit "model", JStr model);
            (lit "length", JStr length); (lit "format", JStr format) ]).

Definition getLanguages : M JSValue := get (lit "/languages").

Definition getTranslationModels : M JSValue := get (lit "/models/translation").

Definition getSummarizationModels : M JSValue := get (lit "/models/summarization").

End Network.

End API.

(** ** App: the controller (src/unnamed/part_001) *)

Module App.

Definition set_languages (v : JSValue) : M unit :=
  modify (fun w =>
    with_app {| languages := v;
                currentInputText := currentInputText (app w);
                currentOutputText := currentOutputText (app w) |} w).

Definition set_currentInputText (s : ustring) : M unit :=
  modify (fun w =>
    with_app {| languages := languages (app w);
                currentInputText := s;
                currentOutputText := currentOutputText (app w) |} w).

Definition set_currentOutputText (v : JSValue) : M unit :=
  modify (fun w =>
    with_app {| languages := languages (app w);
                currentInputText := currentInputText (app w);
                currentOutputText := v |} w).

Definition get_languages : M JSValue :=
  fun w => (Normal (languages (app w)), w).

(** The initial [App.state]. *)
Definition initial_state : AppState :=
  {| languages := JArr []; currentInputText := []; currentOutputText := JStr [] |}.

Section Network.

Variable net : Request -> API.FetchOutcome.

Definition loadLanguages : M unit :=
  try_catch
    (response <- API.getLanguages net ;;
     success <- get_prop response "success" ;;
     ok <- (if truthy success then get_prop response "languages"
            else ret success) ;;
     if truthy ok then
       langs <- get_prop response "languages" ;;
       set_languages langs ;;
       l1 <- get_languages ;;
       UI.populateLanguageDropdown "sourceLanguage" l1 false ;;
       l2 <- get_languages ;;
       UI.populateLanguageDropdown "targetLanguage" l2 true
     else
       UI.showStatus (lit "Failed to load languages") UI.TError
         UI.default_duration)
    (fun error =>
       UI.showStatus (lit "Error loading languages") UI.TError
         UI.default_duration).

Definition setDefaultLanguages : M unit :=
  sourceSelect <- getElementById "sourceLanguage" ;;
  targetSelect <- getElementById "targetLanguage" ;;
  (if negb (is_null sourceSelect) then write sourceSelect (with_value (lit "auto"))
   else ret tt) ;;
  (if negb (is_null targetSelect) then write targetSelect (with_value (lit "hi"))
   else ret tt).

(** The listener of the input event of the input area. It is only bound
    when the element exists. *)
Definition onInput : M unit :=
  inputText <- getElementById "inputText" ;;
  v <- read inputText value ;;
  set_currentInputText v ;;
  UI.updateStats "inputText" "inputStats".

Definition clearInput : M unit :=
  inputText <- getElementById "inputText" ;;
  if negb (is_null inputText) then
    write inputText (with_value []) ;;
    set_currentInputText [] ;;
    UI.updateStats "inputText" "inputStats"
  else ret tt.

(** The check mark that opens the success messages, U+2713. *)
Definition check_mark : ustring := [10003%N].

(** The [try] block of [handleTranslate]. *)
Definition translate_body (text : ustring)
  (outputText sourceLanguage targetLanguage translationModel : Ref) : M unit :=
  source <- read sourceLanguage value ;;
  target <- read targetLanguage value ;;
  model <- read translationModel value ;;
  response <- API.translate net text source target model ;;
  success <- get_prop response "success" ;;
  if truthy success then
    translated <- get_prop response "translated_text" ;;
    write outputText (with_value (to_value_string translated)) ;;
    translated' <- get_prop response "translated_text" ;;
    set_currentOutputText translated' ;;
    UI.updateStats "outputText" "outputStats" ;;
    UI.updateOutputButtons true ;;
    time <- get_prop response "processing_time" ;;
    UI.showStatus
      (check_mark ++ lit " Translated in " ++ to_string time ++ lit "s")
      UI.TSuccess 3000
  else
    write outputText (with_value []) ;;
    error <- get_prop response "error" ;;
    UI.showStatus (to_string (or_else error (JStr (lit "Translation failed"))))
      UI.TError 5000.

Definition handleTranslate : M unit :=
  inputText <- getElementById "inputText" ;;
  outputText <- getElementById "outputText" ;;
  sourceLanguage <- getElementById "sourceLanguage" ;;
  targetLanguage <- getElementById "targetLanguage" ;;
  translationModel <- getElementById "translationModel" ;;
  if is_null inputText || is_null outputText then ret tt
  else
    v <- read inputText value ;;
    let text := trim v in
    valid <- UI.validateInput text 1 ;;
    if negb valid then ret tt
    else
      UI.showLoading "translateBtn" "translateSpinner" ;;
      UI.showStatus (lit "Translating...") UI.TInfo 0 ;;
      try_finally
        (try_catch
           (translate_body text outputText sourceLanguage targetLanguage
              translationModel)
           (fun error =>
              UI.showStatus (lit "An error occurred during translation")
                UI.TError UI.default_duration))
        (UI.hideLoading "translateBtn" "translateSpinner").

(** The [try] block of [handleSummarize]. *)
Definition summarize_body (text length format : ustring)
  (outputText summaryModel : Ref) : M unit :=
  model <- read summaryModel value ;;
  response <- API.summarize net text model length format ;;
  success <- get_prop response "success" ;;
  if truthy success then
    summary <- get_prop response "summary" ;;
    write outputText (with_value (to_value_string summary)) ;;
    summary' <- get_prop response "summary" ;;
    set_currentOutputText summary' ;;
    UI.updateStats "outputText" "outputStats" ;;
    UI.updateOutputButtons true ;;
    time <- get_prop response "processing_time" ;;
    UI.showStatus
      (check_mark ++ lit " Summarized in " ++ to_string time ++ lit "s")
      UI.TSuccess 3000
  else
    error <- get_prop response "error" ;;
    UI.showStatus (to_string (or_else error (JStr (lit "Summarization failed"))))
      UI.TError 5000.

Definition handleSummarize : M unit :=
  inputText <- getElementById "inputText" ;;
  outputText <- getElementById "outputText" ;;
  summaryModel <- getElementById "summaryModel" ;;
  if is_null inputText || is_null outputText then ret tt
  else
    l <- UI.getRadioValue "summaryLength" ;;
    let length := UI.radio_or l (lit "short") in
    f <- UI.getRadioValue "summaryFormat" ;;
    let format := UI.radio_or f (lit "paragraph") in
    s <- UI.getRadioValue "summarySource" ;;
    let source := UI.radio_or s (lit "original") in
    (* the text to summarize, or [None] when the handler returns early *)
    chosen <-
      (if Str.eqb source (lit "translated") then
         v <- read outputText value ;;
         let text := trim v in
         valid <- UI.validateInput text 50 ;;
         if negb valid then
           UI.showStatus
             (lit "Please translate text first or select " ++ [34%N]
              ++ lit "Original Text" ++ [34%N])
             UI.TError UI.default_duration ;;
           ret None
         else ret (Some text)
       else
         v <- read inputText value ;;
         let text := trim v in
         valid <- UI.validateInput text 50 ;;
         if negb valid then
           UI.showStatus
             (lit "Text must be at least 50 characters for summarization")
             UI.TError UI.default_duration ;;
           ret None
         else ret (Some text)) ;;
    match chosen with
    | None => ret tt
    | Some text =>
        UI.showLoading "summarizeBtn" "summarizeSpinner" ;;
        UI.showStatus (lit "Summarizing...") UI.TInfo 0 ;;
        try_finally
          (try_catch
             (summarize_body text length format outputText summaryModel)
             (fun error =>
                UI.showStatus (lit "An error occurred during summarization")
                  UI.TError UI.default_duration))
          (UI.hideLoading "summarizeBtn" "summarizeSpinner")
    end.

End Network.

End App.

(** ** The rest of the page: theme, storage, clipboard, downloads, listeners

    The functions of [UI] and [App] that reach beyond the elements with an
    id: [UI.toggleTheme], [UI.loadTheme], [UI.copyToClipboard],
    [UI.downloadText], [App.handleCopy], [App.handleDownload],
    [App.setupEventListeners] and [App.init]. *)

Module Browser.

(** A file handed to the user by a click on a download link. *)
Record Download := {
  file_name : ustring;
  file_text : ustring
}.

Inductive EventType := Click | InputEvent.

(** The functions [setupEventListeners] binds. *)
Inductive Listener :=
| OnToggleTheme
| OnInput
| OnClearInput
| OnSwapLanguages
| OnTranslate
| OnCopy
| OnDownload
| OnSummaryToggle
| OnSummarize.

(** How the storage answers the page: it takes what is written, it refuses
    a write (the quota is used up: [setItem] throws a QuotaExceededError),
    or it is closed to the page (the access to [localStorage] itself
    throws a SecurityError). *)
Inductive Storage := StorageOpen | StorageFull | StorageBlocked.

Record State := {
  world : World;
  (** the [data-theme] attribute of the root element, [None] when it is
      not set ([getAttribute] gives [null]) *)
  data_theme : option ustring;
  (** what [localStorage] holds *)
  localStorage : gmap string ustring;
  (** how [localStorage] answers *)
  storage : Storage;
  (** the text of the first element of class theme-icon, [None] when the
      page has none; the element is not one the source looks up by id *)
  theme_icon : option ustring;
  (** the text last written to the system clipboard by the page *)
  clipboard : option ustring;
  (** the files downloaded so far, oldest first *)
  downloads : list Download;
  (** the listeners bound so far, in the order of [addEventListener] *)
  listeners : list (string * EventType * Listener)
}.

Definition with_world (w : World) (b : State) : State :=
  {| world := w;
     data_theme := data_theme b;
     localStorage := localStorage b;
     storage := storage b;
     theme_icon := theme_icon b;
     clipboard := clipboard b;
     downloads := downloads b;
     listeners := listeners b |}.

Definition with_theme (t : option ustring) (b : State) : State :=
  {| world := world b;
     data_theme := t;
     localStorage := localStorage b;
     storage := storage b;
     theme_icon := theme_icon b;
     clipboard := clipboard b;
     downloads := downloads b;
     listeners := listeners b |}.

Definition with_localStorage (s : gmap string ustring) (b : State) : State :=
  {| world := world b;
     data_theme := data_theme b;
     localStorage := s;
     storage := storage b;
     theme_icon := theme_icon b;
     clipboard := clipboard b;
     downloads := downloads b;
     listeners := listeners b |}.

Definition with_theme_icon (i : option ustring) (b : State) : State :=
  {| world := world b;
     data_theme := data_theme b;
     localStorage := localStorage b;
     storage := storage b;
     theme_icon := i;
     clipboard := clipboard b;
     downloads := downloads b;
     listeners := listeners b |}.

Definition with_clipboard (c : option ustring) (b : State) : State :=
  {| world := world b;
     data_theme := data_theme b;
     localStorage := localStorage b;
     storage := storage b;
     theme_icon := theme_icon b;
     clipboard := c;
     downloads := downloads b;
     listeners := listeners b |}.

Definition with_downloads (d : list Download) (b : State) : State :=
  {| world := world b;
     data_theme := data_theme b;
     localStorage := localStorage b;
     storage := storage b;
     theme_icon := theme_icon b;
     clipboard := clipboard b;
     downloads := d;
     listeners := listeners b |}.

Definition with_listeners (l : list (string * EventType * Listener))
  (b : State) : State :=
  {| world := world b;
     data_theme := data_theme b;
     localStorage := localStorage b;
     storage := storage b;
     theme_icon := theme_icon b;
     clipboard := clipboard b;
     downloads := downloads b;
     listeners := l |}.

(** Computations over the whole page. *)
Definition B (A : Type) : Type := State -> Completion A * State.

Definition retB {A} (a : A) : B A := fun b => (Normal a, b).

Definition bindB {A C} (m : B A) (k : A -> B C) : B C :=
  fun b =>
    match m b with
    | (Normal a, b') => k a b'
    | (Throw e, b') => (Throw e, b')
    | (Pending, b') => (Pending, b')
    end.

Definition try_catchB {A} (body : B A) (handler : JSError -> B A) : B A :=
  fun b =>
    match body b with
    | (Throw e, b') => handler e b'
    | r => r
    end.

(** A computation over the elements with an id, run on the whole page. *)
Definition lift {A} (m : M A) : B A :=
  fun b => (fst (m (world b)), with_world (snd (m (world b))) b).

Definition modifyB (f : State -> State) : B unit := fun b => (Normal tt, f b).

Declare Scope page_scope.
Delimit Scope page_scope with page.
Notation "x <- c ;; k" := (bindB c (fun x => k))
  (at level 100, c at next level, right associativity) : page_scope.
Notation "c ;; k" := (bindB c (fun _ => k))
  (at level 100, right associativity) : page_scope.
Local Open Scope page_scope.

(** The glyphs of the theme icon: U+2600 U+FE0F for the dark theme, U+1F319
    (a surrogate pair) for the light one. *)
Definition sun : ustring := [9728%N; 65039%N].
Definition moon : ustring := [55356%N; 57113%N].

(** [newTheme === 'dark' ? sun : moon] *)
Definition icon_for (theme : ustring) : ustring :=
  if Str.eqb theme (lit "dark") then sun else moon.

(** [themeIcon.textContent = glyph], when the page has the icon. *)
Definition set_icon (glyph : ustring) (b : State) : State :=
  match theme_icon b with
  | Some _ => with_theme_icon (Some glyph) b
  | None => b
  end.

(** [UI.toggleTheme]: the attribute is set before the storage is written,
    the icon after. *)
Definition toggleTheme : B unit :=
  fun b =>
    let currentTheme := data_theme b in
    let newTheme :=
      match currentTheme with
      | Some t => if Str.eqb t (lit "dark") then lit "light" else lit "dark"
      | None => lit "dark"
      end in
    match storage b with
    | StorageOpen =>
        (Normal tt,
         set_icon (icon_for newTheme)
           (with_localStorage (<["theme" := newTheme]> (localStorage b))
              (with_theme (Some newTheme) b)))
    | StorageFull => (Throw QuotaExceededError, with_theme (Some newTheme) b)
    | StorageBlocked => (Throw SecurityError, with_theme (Some newTheme) b)
    end.

(** [UI.loadTheme]: the storage is read in the first statement. *)
Definition loadTheme : B unit :=
  fun b =>
    match storage b with
    | StorageBlocked => (Throw SecurityError, b)
    | StorageOpen | StorageFull =>
        let savedTheme :=
          match localStorage b !! "theme" with
          | Some t => if nonempty t then t else lit "light"
          | None => lit "light"
          end in
        (Normal tt,
         set_icon (icon_for savedTheme) (with_theme (Some savedTheme) b))
    end.

(** What awaiting [navigator.clipboard.writeText(text)] gives; a missing
    [navigator.clipboard] counts as a rejection, the TypeError being thrown
    inside the same [try]. *)
Inductive ClipOutcome :=
| ClipResolves
| ClipRejects (e : JSError)
| ClipPending.

Section Environment.

(** The backend, the clipboard of the system, and the text that
    [new Date().toISOString()] gives. *)
Variable net : Request -> API.FetchOutcome.
Variable clip : ustring -> ClipOutcome.
Variable now : ustring.

Definition writeText (text : ustring) : B unit :=
  fun b =>
    match clip text with
    | ClipResolves => (Normal tt, with_clipboard (Some text) b)
    | ClipRejects e => (Throw e, b)
    | ClipPending => (Pending, b)
    end.

(** [UI.copyToClipboard] *)
Definition copyToClipboard (text : ustring) : B bool :=
  try_catchB
    (writeText text ;;
     lift (UI.showStatus (App.check_mark ++ lit " Copied to clipboard!")
             UI.TSuccess 2000) ;;
     retB true)
    (fun error =>
       lift (UI.showStatus (lit "Failed to copy to clipboard") UI.TError
               UI.default_duration) ;;
       retB false).

(** [UI.downloadText]: the link made for the blob is put in the body,
    clicked and removed again, which leaves a download behind. The
    document is taken to have its body, and the blob and its URL to be
    made without error. *)
Definition downloadText (text filename : ustring) : B unit :=
  modifyB (fun b =>
    with_downloads
      (downloads b ++ [{| file_name := filename; file_text := text |}]) b) ;;
  lift (UI.showStatus (App.check_mark ++ lit " File downloaded!")
          UI.TSuccess 2000).

(** The default of the [filename] argument of [downloadText]. *)
Definition default_filename : ustring := lit "translated-text.txt".

(** [s.split('T')[0]]: the part of [s] before its first T. *)
Fixpoint before_T (s : ustring) : ustring :=
  match s with
  | [] => []
  | c :: s' => if (c =? 84)%N then [] else c :: before_T s'
  end.

(** A call of an async function whose promise is dropped: the caller goes
    on normally whatever becomes of the call, whose effects are those of
    its run as far as it gets. *)
Definition detached {A} (m : B A) : B unit :=
  fun b => (Normal tt, snd (m b)).

(** [App.handleCopy] *)
Definition handleCopy : B unit :=
  outputText <- lift (getElementById "outputText") ;;
  if is_null outputText then retB tt
  else
    v <- lift (read outputText value) ;;
    if nonempty v then
      text <- lift (read outputText value) ;;
      detached (copyToClipboard text)
    else retB tt.

(** [App.handleDownload] *)
Definition handleDownload : B unit :=
  outputText <- lift (getElementById "outputText") ;;
  if is_null outputText then retB tt
  else
    v <- lift (read outputText value) ;;
    if nonempty v then
      let timestamp := before_T now in
      let filename := lit "arjun-ai-tools-" ++ timestamp ++ lit ".txt" in
      text <- lift (read outputText value) ;;
      downloadText text filename
    else retB tt.

(** [element.addEventListener(type, listener)], when the element is
    there. *)
Definition bind_listener (id : string) (type : EventType) (l : Listener)
  : B unit :=
  element <- lift (getElementById id) ;;
  if negb (is_null element) then
    modifyB (fun b => with_listeners (listeners b ++ [(id, type, l)]) b)
  else retB tt.

(** [App.setupEventListeners] *)
Definition setupEventListeners : B unit :=
  bind_listener "themeToggle" Click OnToggleTheme ;;
  bind_listener "inputText" InputEvent OnInput ;;
  bind_listener "clearInput" Click OnClearInput ;;
  bind_listener "swapLanguages" Click OnSwapLanguages ;;
  bind_listener "translateBtn" Click OnTranslate ;;
  bind_listener "copyOutput" Click OnCopy ;;
  bind_listener "downloadOutput" Click OnDownload ;;
  bind_listener "summaryToggle" Click OnSummaryToggle ;;
  bind_listener "summarizeBtn" Click OnSummarize.

(** What a bound listener runs; the promises of the two async handlers
    are dropped by the arrow functions that call them. *)
Definition run_listener (l : Listener) : B unit :=
  match l with
  | OnToggleTheme => toggleTheme
  | OnInput => lift App.onInput
  | OnClearInput => lift App.clearInput
  | OnSwapLanguages => lift UI.swapLanguages
  | OnTranslate => detached (lift (App.handleTranslate net))
  | OnCopy => handleCopy
  | OnDownload => handleDownload
  | OnSummaryToggle => lift UI.toggleSummarySection
  | OnSummarize => detached (lift (App.handleSummarize net))
  end.

(** [App.init] *)
Definition init : B unit :=
  loadTheme ;;
  lift (App.loadLanguages net) ;;
  setupEventListeners ;;
  lift App.setDefaultLanguages.

End Environment.

End Browser.

(** * Vocabulary of the properties *)

(** ** Relations between the world before and after a computation *)

(** [preserves R m]: every run of [m] takes a world to an [R]-related
    one, however the run ends. *)
Definition preserves {A} (R : relation World) (m : M A) : Prop :=
  forall w, R w (snd (m w)).

(** No element disappears. *)
Definition keeps : relation World :=
  fun w w' => forall id, is_Some (dom w !! id) -> is_Some (dom w' !! id).

(** Only the elements named in [ids] may have changed. *)
Definition frame (ids : list string) : relation World :=
  fun w w' => forall id, id ∉ ids -> dom w' !! id = dom w !! id.

Definition same_app : relation World := fun w w' => app w' = app w.

Definition same_requests : relation World :=
  fun w w' => requests w' = requests w.

Definition same_radios : relation World := fun w w' => radios w' = radios w.

(** The status banner shows [msg] in the style of [ty]. *)
Definition shows (msg : ustring) (ty : UI.StatusType) (w : World) : Prop :=
  exists bar message,
    dom w !! "statusBar" = Some bar /\
    dom w !! "statusMessage" = Some message /\
    textContent message = msg /\
    "show" ∈ classList bar /\
    ("success" ∈ classList bar <-> ty = UI.TSuccess) /\
    ("error" ∈ classList bar <-> ty = UI.TError).

(** The button is enabled and its spinner is still: no request of this
    action is in flight. *)
Definition idle (buttonId spinnerId : string) (w : World) : Prop :=
  exists button spinner,
    dom w !! buttonId = Some button /\
    dom w !! spinnerId = Some spinner /\
    disabled button = false /\
    ("active" ∉ classList spinner) /\
    (is_Some (btnText button) -> btnText button = Some (lit "1")).

(** The button is disabled and its spinner turns. *)
Definition loading (buttonId spinnerId : string) (w : World) : Prop :=
  exists button spinner,
    dom w !! buttonId = Some button /\
    dom w !! spinnerId = Some spinner /\
    disabled button = true /\
    "active" ∈ classList spinner /\
    (is_Some (btnText button) -> btnText button = Some (lit "0.7")).

(** The values of the source and target language selectors. *)
Definition selected (w : World) : option (ustring * ustring) :=
  match dom w !! "sourceLanguage", dom w !! "targetLanguage" with
  | Some source, Some target => Some (value source, value target)
  | _, _ => None
  end.

(** The request [API.post] sends. *)
Definition post_request (endpoint : ustring) (data : JSValue) : Request :=
  {| req_method := POST; req_url := API.baseURL ++ endpoint;
     req_json := true; req_body := Some data |}.

(** The request [API.get] sends. *)
Definition get_request (endpoint : ustring) : Request :=
  {| req_method := GET; req_url := API.baseURL ++ endpoint;
     req_json := false; req_body := None |}.

(** The call of [fetch] throws or rejects, or the parse of the response
    as JSON does. *)
Definition transport_failure (o : API.FetchOutcome) : Prop :=
  exists e, o = API.FetchRejects e \/ o = API.FetchResolves (API.JsonRejects e).

(** A language record of the backend. *)
Record Language := {
  code : ustring;
  name : ustring;
  native : ustring
}.

(** The value [v] of a response carries the language record [l]. *)
Definition is_language (v : JSValue) (l : Language) : Prop :=
  prop v (lit "code") = Some (JStr (code l)) /\
  prop v (lit "name") = Some (JStr (name l)) /\
  prop v (lit "native") = Some (JStr (native l)).

(** A language record as the object the backend sends. *)
Definition language_value (l : Language) : JSValue :=
  JObj [ (lit "code", JStr (code l)); (lit "name", JStr (name l));
         (lit "native", JStr (native l)) ].

(** The option element made for a language record. *)
Definition option_of (l : Language) : OptionElement :=
  {| opt_value := code l;
     opt_text := name l ++ lit " (" ++ native l ++ lit ")" |}.

Definition is_auto (l : Language) : bool := Str.eqb (code l) (lit "auto").

(** The records [populateLanguageDropdown] makes options for. *)
Definition kept (excludeAuto : bool) (ls : list Language) : list Language :=
  List.filter (fun l => negb (excludeAuto && is_auto l)) ls.

(** The options of a selector, if it is on the page. *)
Definition options_of (id : string) (w : World) : option (list OptionElement) :=
  options <$> dom w !! id.

(** ** Sample pages, for the instances of the theorems *)

Module Sample.

Definition element : Element :=
  {| value := []; textContent := []; disabled := false; classList := ∅;
     btnText := None; options := [] |}.

Definition world_of (d : gmap string Element) : World :=
  {| dom := d; radios := ∅; app := App.initial_state;
     requests := []; timers := [] |}.

(** A page with no element at all. *)
Definition empty : World := world_of ∅.

(** A page that has the status banner and the two text areas, the input
    holding the text of the argument. *)
Definition page (input output : ustring) : World :=
  world_of
    (list_to_map
       [ ("statusBar", element); ("statusMessage", element);
         ("inputText", with_value input element);
         ("inputStats", element);
         ("outputText", with_value output element);
         ("outputStats", element);
         ("copyOutput", with_disabled true element);
         ("downloadOutput", with_disabled true element);
         ("translateBtn", with_btnText (Some (lit "1")) element);
         ("translateSpinner", element);
         ("summarizeBtn", with_btnText (Some (lit "1")) element);
         ("summarizeSpinner", element);
         ("sourceLanguage", with_value (lit "en") element);
         ("targetLanguage", with_value (lit "hi") element);
         ("translationModel", with_value (lit "m1") element);
         ("summaryModel", with_value (lit "m2") element) ]).

(** The same page with other values in the two language selectors. *)
Definition with_selected (source target : ustring) (w : World) : World :=
  with_dom (<["sourceLanguage" := with_value source element]>
              (<["targetLanguage" := with_value target element]> (dom w))) w.

Definition auto_detect : Language :=
  {| code := lit "auto"; name := lit "Auto-detect"; native := lit "Auto" |}.

Definition english : Language :=
  {| code := lit "en"; name := lit "English"; native := lit "English" |}.

Definition hindi : Language :=
  {| code := lit "hi"; name := lit "Hindi"; native := lit "Hindi" |}.

(** The answer of the backend to the request for the languages. *)
Definition languages_response (ls : list Language) : JSValue :=
  JObj [ (lit "success", JBool true);
         (lit "languages", JArr (map language_value ls)) ].

(** The same page with the button of value [v] checked in the radio group
    [name]. *)
Definition with_radio (name : string) (v : ustring) (w : World) : World :=
  {| dom := dom w; radios := <[name := v]> (radios w); app := app w;
     requests := requests w; timers := timers w |}.

(** A text of 56 characters. *)
Definition long_text : ustring :=
  lit "The quick brown fox jumps over the lazy dog, again today".

(** A failure response of the backend. *)
Definition failed : JSValue :=
  JObj [ (lit "success", JBool false); (lit "error", JStr (lit "No model")) ].

(** A backend that cannot be reached. *)
Definition offline : Request -> API.FetchOutcome :=
  fun _ => API.FetchRejects NetworkError.

(** A backend that answers every request with [v]. *)
Definition answering (v : JSValue) : Request -> API.FetchOutcome :=
  fun _ => API.FetchResolves (API.JsonResolves v).

End Sample.

(** The backend answers every request with the JSON value [response]. *)
Definition answers (net : Request -> API.FetchOutcome) (response : JSValue)
  : Prop :=
  forall req, net req = API.FetchResolves (API.JsonResolves response).

(** A response whose [success] property is truthy. *)
Definition success_response (response : JSValue) : Prop :=
  exists s, prop response (lit "success") = Some s /\ truthy s = true.

(** A response, an object or another value that is not [null], whose
    [success] property is missing or falsy. *)
Definition failure_response (response : JSValue) : Prop :=
  exists s, prop response (lit "success") = Some s /\ truthy s = false.

(** The message of [handleSummarize] for a translated text that fails
    validation. *)
Definition translate_first : ustring :=
  lit "Please translate text first or select " ++ [34%N]
  ++ lit "Original Text" ++ [34%N].

(** The value of the [summarySource] radio group, "original" by default. *)
Definition summary_source (w : World) : ustring :=
  UI.radio_or (radios w !! "summarySource") (lit "original").

(** The text [handleSummarize] summarizes, before it is trimmed: the
    output area when the source is "translated", else the input area. *)
Definition chosen_text (w : World) : option ustring :=
  if Str.eqb (summary_source w) (lit "translated")
  then value <$> dom w !! "outputText"
  else value <$> dom w !! "inputText".

(** The world in which the [try] block of a handler starts. *)
Definition after_showLoading (buttonId spinnerId : string) (msg : ustring)
  (w : World) : World :=
  snd (UI.showStatus msg UI.TInfo 0 (snd (UI.showLoading buttonId spinnerId w))).

(** The request of a translate action. *)
Definition translate_request (text source target model : ustring) : Request :=
  post_request (lit "/translate")
    (JObj [ (lit "text", JStr text); (lit "source", JStr source);
            (lit "target", JStr target); (lit "model", JStr model) ]).

(** The request of a summarize action. *)
Definition summarize_request (text model length format : ustring) : Request :=
  post_request (lit "/summarize")
    (JObj [ (lit "text", JStr text); (lit "model", JStr model);
            (lit "length", JStr length); (lit "format", JStr format) ]).

(** A computation that sends nothing, or one POST request to [endpoint]
    and nothing else. *)
Definition at_most_one {A} (endpoint : ustring) (m : M A) : Prop :=
  forall w,
    requests (snd (m w)) = requests w \/
    exists data, requests (snd (m w)) = requests w ++ [post_request endpoint data].

(** The transport client hands [response] to every caller of
    [API.post]. *)
Definition delivers (net : Request -> API.FetchOutcome) (response : JSValue)
  : Prop :=
  forall endpoint data w,
    API.post net endpoint data w
    = (Normal response,
       with_requests (requests w ++ [post_request endpoint data]) w).

(** The backend cannot be reached, or does not answer in JSON. *)
Definition unreachable (net : Request -> API.FetchOutcome) : Prop :=
  forall req, transport_failure (net req).

(** The page once a handler has sent [req] from the world [W] and written
    the text [v] of the response into the output area and the session
    state. *)
Definition output_written (v : JSValue) (req : Request) (output : Element)
  (W : World) : World :=
  with_app
    {| languages := languages (app W);
       currentInputText := currentInputText (app W);
       currentOutputText := v |}
    (with_dom (<["outputText" := with_value (to_value_string v) output]> (dom W))
       (with_requests (requests W ++ [req]) W)).

(** The banner text of a failure: [response.error || fallback]. *)
Definition failure_text (response : JSValue) (fallback : ustring) : ustring :=
  to_string
    (or_else (default JUndefined (prop response (lit "error")))
       (JStr fallback)).

(** An element with the class "collapsed" toggled. *)
Definition toggle_collapsed (e : Element) : Element :=
  with_classList
    (if bool_decide ("collapsed" ∈ classList e)
     then classList e ∖ {["collapsed"]}
     else {["collapsed"]} ∪ classList e) e.

(** No element appears. *)
Definition adds_none : relation World :=
  fun w w' => forall id, is_Some (dom w' !! id) -> is_Some (dom w !! id).

(** The listeners of the page, in the order [setupEventListeners] binds
    them. *)
Definition page_listeners
  : list (string * Browser.EventType * Browser.Listener) :=
  [ ("themeToggle", Browser.Click, Browser.OnToggleTheme);
    ("inputText", Browser.InputEvent, Browser.OnInput);
    ("clearInput", Browser.Click, Browser.OnClearInput);
    ("swapLanguages", Browser.Click, Browser.OnSwapLanguages);
    ("translateBtn", Browser.Click, Browser.OnTranslate);
    ("copyOutput", Browser.Click, Browser.OnCopy);
    ("downloadOutput", Browser.Click, Browser.OnDownload);
    ("summaryToggle", Browser.Click, Browser.OnSummaryToggle);
    ("summarizeBtn", Browser.Click, Browser.OnSummarize) ].

(** Whether the listener [l] is for an element of the page [w]. *)
Definition on_page (w : World)
  (l : string * Browser.EventType * Browser.Listener) : bool :=
  bool_decide (is_Some (dom w !! fst (fst l))).

(** The theme a page shows for the stored theme [t]. *)
Definition theme_of (t : option ustring) : ustring :=
  match t with
  | Some t => if nonempty t then t else lit "light"
  | None => lit "light"
  end.


(** The backend settles every request: the promise of [fetch] and the
    promise of the parse of the response both come to an end. *)
Definition responsive (net : Request -> API.FetchOutcome) : Prop :=
  forall req,
    net req <> API.FetchPending /\
    net req <> API.FetchResolves API.JsonPending.

(** Every run of the computation comes to an end, normally or with an
    exception. *)
Definition settles {A} (m : M A) : Prop := forall w, fst (m w) <> Pending.

(** The text has no carriage return: a text area gives back such a text
    as it was assigned. *)
Definition no_cr (s : ustring) : Prop := 13%N ∉ s.

(** The select element [e] has an option of value [v], or [v] is empty:
    what an assignment of [v] to the value of [e] presupposes. *)
Definition offers (e : Element) (v : ustring) : Prop :=
  v = [] \/ exists o, o ∈ options e /\ opt_value o = v.

(** The value has a string form: it is no object with a property
    [toString] of its own, which a parsed response cannot call, and no
    array with such an element. *)
Fixpoint printable (v : JSValue) : bool :=
  match v with
  | JArr xs => forallb printable xs
  | JObj fields =>
      match assoc (lit "toString") fields with
      | Some _ => false
      | None => true
      end
  | _ => true
  end.

(** The largest integer a number holds exactly, [Number.MAX_SAFE_INTEGER];
    up to it a number prints as its digits. *)
Definition max_safe_integer : Z := 9007199254740991.

(** ** More sample pages *)

Module Demo.

(** The page without the element [id]. *)
Definition without (id : string) (w : World) : World :=
  with_dom (delete id (dom w)) w.

(** The page with the element [id] replaced by [e]. *)
Definition with_element (id : string) (e : Element) (w : World) : World :=
  with_dom (<[id := e]> (dom w)) w.

(** A select element with an option for each of [codes], [v] selected. *)
Definition select (v : ustring) (codes : list ustring) : Element :=
  with_options (map (fun c => {| opt_value := c; opt_text := c |}) codes)
    (with_value v Sample.element).

(** The page with the two language selectors replaced. *)
Definition with_selects (source target : Element) (w : World) : World :=
  with_dom (<["sourceLanguage" := source]>
              (<["targetLanguage" := target]> (dom w))) w.

(** A page whose translate and summarize buttons were left disabled, their
    spinners turning. *)
Definition busy (w : World) : World :=
  with_dom
    (<["translateBtn" :=
         with_disabled true (with_btnText (Some (lit "0.7")) Sample.element)]>
       (<["translateSpinner" := with_classList {["active"]} Sample.element]>
          (<["summarizeBtn" :=
               with_disabled true
                 (with_btnText (Some (lit "0.7")) Sample.element)]>
             (<["summarizeSpinner" :=
                  with_classList {["active"]} Sample.element]> (dom w))))) w.

(** A storage that is closed to the page. *)
Definition blocked (b : Browser.State) : Browser.State :=
  {| Browser.world := Browser.world b;
     Browser.data_theme := Browser.data_theme b;
     Browser.localStorage := Browser.localStorage b;
     Browser.storage := Browser.StorageBlocked;
     Browser.theme_icon := Browser.theme_icon b;
     Browser.clipboard := Browser.clipboard b;
     Browser.downloads := Browser.downloads b;
     Browser.listeners := Browser.listeners b |}.

(** A success response to a translate request. *)
Definition translated (s : ustring) : JSValue :=
  JObj [ (lit "success", JBool true); (lit "translated_text", JStr s);
         (lit "processing_time", JNum (lit "0.5")) ].

(** A success response to a summarize request. *)
Definition summarized (s : ustring) : JSValue :=
  JObj [ (lit "success", JBool true); (lit "summary", JStr s);
         (lit "processing_time", JNum (lit "1.25")) ].

(** A whole page around the elements of [w]: no theme set, nothing
    stored in a storage that is open, a theme icon, an empty clipboard. *)
Definition browser (w : World) : Browser.State :=
  {| Browser.world := w; Browser.data_theme := None;
     Browser.localStorage := ∅; Browser.storage := Browser.StorageOpen;
     Browser.theme_icon := Some [];
     Browser.clipboard := None; Browser.downloads := [];
     Browser.listeners := [] |}.

(** A clipboard that takes every text. *)
Definition clip_ok : ustring -> Browser.ClipOutcome :=
  fun _ => Browser.ClipResolves.

(** A clipboard the page may not write to. *)
Definition clip_denied : ustring -> Browser.ClipOutcome :=
  fun _ => Browser.ClipRejects TypeError.


End Demo.

(** * Properties *)

(** ** Strings: trimming and counting words *)

Example lit_hello : length (lit "Hello world") = 11%nat.
Proof. reflexivity. Qed.

Example split_examples :
  split_ws (lit "a  b") = [lit "a"; lit "b"] /\
  split_ws (lit " a") = [[]; lit "a"] /\
  split_ws (lit "a ") = [lit "a"; []] /\
  split_ws [] = [[]] /\
  trim (lit "  a b  ") = lit "a b" /\
  dec 50 = lit "50" /\ dec 0 = lit "0" /\
  eqb (lit "auto") (lit "auto") = true.
Proof. vm_compute. repeat split. Qed.

Section StringFacts.

Implicit Types (s : ustring) (c : N) (p : bool).

Lemma trimStart_head s c r : trimStart s = c :: r -> is_ws c = false.
Proof.
  induction s as [|a s IH]; simpl; [discriminate|].
  destruct (is_ws a) eqn:Ha; [exact IH|].
  intros [= <- _]. exact Ha.
Qed.

Lemma trimStart_nil_blank s : trimStart s = [] <-> blank s.
Proof.
  unfold blank. induction s as [|a s IH]; simpl.
  - split; [constructor | reflexivity].
  - destruct (is_ws a) eqn:Ha.
    + rewrite IH. split; [by constructor | by inversion 1].
    + split; [discriminate | inversion 1; congruence].
Qed.

Lemma trimEnd_nil_blank s : trimEnd s = [] <-> blank s.
Proof.
  unfold blank. induction s as [|a s IH]; simpl.
  - split; [constructor | reflexivity].
  - destruct (trimEnd s) as [|b r] eqn:E.
    + destruct (is_ws a) eqn:Ha.
      * split; [intros _; constructor; [done | by apply IH] | done].
      * split; [discriminate | inversion 1; congruence].
    + split; [discriminate|]. inversion 1 as [|? ? _ Hs]; subst.
      apply IH in Hs. discriminate.
Qed.

Lemma trimEnd_head s c r :
  is_ws c = false -> exists r', trimEnd (c :: r) = c :: r'.
Proof.
  intros Hc. simpl. destruct (trimEnd r); rewrite ?Hc; eauto.
Qed.

Lemma trimEnd_last s p : trimEnd s <> [] -> last_ws p (trimEnd s) = false.
Proof.
  revert p. induction s as [|a s IH]; intros p; simpl; [done|].
  destruct (trimEnd s) as [|b r] eqn:E.
  - destruct (is_ws a) eqn:Ha; [done|]. intros _. simpl. exact Ha.
  - intros _. change (last_ws (is_ws a) (b :: r) = false). by apply IH.
Qed.

Lemma blank_trimStart s : blank (trimStart s) <-> blank s.
Proof.
  unfold blank. induction s as [|a s IH]; simpl; [done|].
  destruct (is_ws a) eqn:Ha.
  - rewrite IH. split; [by constructor | by inversion 1].
  - done.
Qed.

(** [s.trim()] is empty exactly when [s] is empty or all white space. *)
Lemma trim_nil_blank s : trim s = [] <-> blank s.
Proof. unfold trim. by rewrite trimEnd_nil_blank, blank_trimStart. Qed.

Lemma nonempty_trim_blank s : nonempty (trim s) = false <-> blank s.
Proof.
  rewrite <- trim_nil_blank. destruct (trim s); simpl; split; done.
Qed.

Lemma trim_head s c r : trim s = c :: r -> is_ws c = false.
Proof.
  unfold trim. destruct (trimStart s) as [|a t] eqn:E; [done|].
  pose proof (trimStart_head _ _ _ E) as Ha.
  destruct (trimEnd_head t a t Ha) as [r' ->]. by intros [= <- _].
Qed.

Lemma trim_last s p : trim s <> [] -> last_ws p (trim s) = false.
Proof. apply trimEnd_last. Qed.

Lemma trimStart_fixed s c r : s = c :: r -> is_ws c = false -> trimStart s = s.
Proof. intros -> H. simpl. by rewrite H. Qed.

Lemma trimEnd_fixed s : (forall p, s <> [] -> last_ws p s = false) -> trimEnd s = s.
Proof.
  induction s as [|a s IH]; [done|]. intros H. simpl.
  destruct s as [|b t].
  - simpl. specialize (H true). simpl in H. by rewrite H.
  - rewrite IH.
    + done.
    + intros p _. apply (H p). done.
Qed.

(** Trimming twice is trimming once: the handlers trim the text before
    [validateInput] trims it again. *)
Lemma trim_idemp s : trim (trim s) = trim s.
Proof.
  destruct (trim s) as [|c r] eqn:E; [done|].
  unfold trim at 1.
  rewrite (trimStart_fixed (c :: r) c r eq_refl (trim_head _ _ _ E)).
  apply trimEnd_fixed. intros p _. rewrite <- E. apply trim_last. by rewrite E.
Qed.

(** The pieces [split] returns, counted against the starts of tokens. *)
Lemma split_ws_from_length s : forall cur p,
  (length (split_ws_from cur p s) + (if p then 1 else 0)
   = token_starts p s + 1 + (if last_ws p s then 1 else 0))%nat.
Proof.
  induction s as [|c s IH]; intros cur p; simpl.
  - lia.
  - destruct (is_ws c) eqn:Hc.
    + destruct p.
      * apply IH.
      * simpl. specialize (IH [] true). simpl in IH. lia.
    + specialize (IH (cur ++ [c]) false). simpl in IH. destruct p; lia.
Qed.

Lemma token_starts_trimStart s : token_starts true (trimStart s) = token_starts true s.
Proof.
  induction s as [|c s IH]; simpl; [done|].
  destruct (is_ws c) eqn:Hc; [done|]. simpl. by rewrite Hc.
Qed.

Lemma token_starts_trimEnd s : forall p, token_starts p (trimEnd s) = token_starts p s.
Proof.
  induction s as [|c s IH]; intros p; simpl; [done|].
  destruct (trimEnd s) as [|b r] eqn:E.
  - destruct (is_ws c) eqn:Hc; simpl; rewrite ?Hc, <- IH; simpl; lia.
  - change (token_starts p (c :: b :: r) = token_starts p (c :: s)).
    simpl. destruct (is_ws c); rewrite <- IH; done.
Qed.

(** Trimming removes no token. *)
Lemma token_count_trim s : token_count (trim s) = token_count s.
Proof.
  unfold token_count, trim.
  by rewrite token_starts_trimEnd, token_starts_trimStart.
Qed.

Lemma token_count_blank s : blank s -> token_count s = 0%nat.
Proof.
  unfold token_count, blank. induction 1 as [|c s Hc _ IH]; simpl; [done|].
  by rewrite Hc.
Qed.

(** The word count of [updateStats] is the number of tokens of the
    trimmed text. *)
Lemma wordCount_tokens s : UI.wordCount s = token_count (trim s).
Proof.
  unfold UI.wordCount. destruct (trim s) as [|c r] eqn:E; simpl; [done|].
  pose proof (trim_head _ _ _ E) as Hc.
  pose proof (trim_last s false) as Hl. rewrite E in Hl.
  pose proof (split_ws_from_length (c :: r) [] false) as H.
  rewrite Hl in H by done. unfold split_ws.
  unfold token_count. simpl in *. rewrite Hc in *. lia.
Qed.

End StringFacts.

(** ** The monad: running a computation step by step *)

Section MonadFacts.

Context {A B : Type}.

Lemma bind_normal (m : M A) (k : A -> M B) w a :
  fst (m w) = Normal a -> bind m k w = k a (snd (m w)).
Proof. unfold bind. destruct (m w) as [r w']. simpl. by intros ->. Qed.

Lemma bind_throw (m : M A) (k : A -> M B) w e :
  fst (m w) = Throw e -> bind m k w = (Throw e, snd (m w)).
Proof. unfold bind. destruct (m w) as [r w']. simpl. by intros ->. Qed.

Lemma bind_pending (m : M A) (k : A -> M B) w :
  fst (m w) = Pending -> bind m k w = (Pending, snd (m w)).
Proof. unfold bind. destruct (m w) as [r w']. simpl. by intros ->. Qed.

Lemma bind_getElementById id (k : Ref -> M B) w :
  bind (getElementById id) k w = k (ref_of id w) w.
Proof. reflexivity. Qed.

End MonadFacts.

(** ** Relations between worlds are preorders *)

#[local] Instance keeps_preorder : PreOrder keeps.
Proof. split; [by intros w id | intros w1 w2 w3 H1 H2 id H; auto]. Qed.

#[local] Instance frame_preorder ids : PreOrder (frame ids).
Proof.
  split; [by intros w id | intros w1 w2 w3 H1 H2 id H].
  by rewrite H2, H1.
Qed.

#[local] Instance same_app_preorder : PreOrder same_app.
Proof. split; [done | intros w1 w2 w3 H1 H2; unfold same_app in *; congruence]. Qed.

#[local] Instance same_requests_preorder : PreOrder same_requests.
Proof.
  split; [done | intros w1 w2 w3 H1 H2; unfold same_requests in *; congruence].
Qed.

#[local] Instance same_radios_preorder : PreOrder same_radios.
Proof.
  split; [done | intros w1 w2 w3 H1 H2; unfold same_radios in *; congruence].
Qed.

Section Preservation.

Context (R : relation World) `{!PreOrder R}.

Lemma pres_ret {A} (a : A) : preserves R (ret a).
Proof. intros w. simpl. reflexivity. Qed.

Lemma pres_throw {A} e : preserves R (@throw A e).
Proof. intros w. simpl. reflexivity. Qed.

Lemma pres_bind {A B} (m : M A) (k : A -> M B) :
  preserves R m -> (forall a, preserves R (k a)) -> preserves R (bind m k).
Proof.
  intros Hm Hk w. unfold bind. specialize (Hm w).
  destruct (m w) as [[a|e|] w']; simpl in *; [|done..].
  etransitivity; [exact Hm | apply Hk].
Qed.

Lemma pres_bind_getElementById {B} id (k : Ref -> M B) :
  preserves R (k None) -> preserves R (k (Some id)) ->
  preserves R (bind (getElementById id) k).
Proof.
  intros H0 H1 w. rewrite bind_getElementById. unfold ref_of.
  destruct (dom w !! id); auto.
Qed.

Lemma pres_try_catch {A} (body : M A) handler :
  preserves R body -> (forall e, preserves R (handler e)) ->
  preserves R (try_catch body handler).
Proof.
  intros Hb Hh w. unfold try_catch. specialize (Hb w).
  destruct (body w) as [[a|e|] w']; simpl in *; [done| |done].
  etransitivity; [exact Hb | apply Hh].
Qed.

Lemma pres_try_finally {A} (body : M A) fin :
  preserves R body -> preserves R fin -> preserves R (try_finally body fin).
Proof.
  intros Hb Hf w. unfold try_finally. specialize (Hb w).
  destruct (body w) as [[a|e|] w']; simpl in *; [| |done];
    specialize (Hf w'); destruct (fin w') as [[[]|e'|] w'']; simpl in *;
    etransitivity; eauto.
Qed.

Lemma pres_getElementById id : preserves R (getElementById id).
Proof. intros w. simpl. reflexivity. Qed.

Lemma pres_read {A} r (f : Element -> A) : preserves R (read r f).
Proof.
  intros w. unfold read. destruct r as [id|]; [|reflexivity].
  destruct (dom w !! id); reflexivity.
Qed.

Lemma pres_get_prop v k : preserves R (get_prop v k).
Proof. intros w. unfold get_prop. destruct (prop v (lit k)); reflexivity. Qed.

Lemma pres_getRadioValue name : preserves R (UI.getRadioValue name).
Proof. intros w. simpl. reflexivity. Qed.

Lemma pres_iter f xs : (forall x, preserves R (f x)) -> preserves R (iter f xs).
Proof.
  intros Hf. induction xs as [|x xs IH]; simpl.
  - apply pres_ret.
  - apply pres_bind; auto.
Qed.

Lemma pres_forEach v f : (forall x, preserves R (f x)) -> preserves R (forEach v f).
Proof.
  intros Hf. destruct v; simpl; try apply pres_throw. by apply pres_iter.
Qed.

Lemma pres_modify f : (forall w, R w (f w)) -> preserves R (modify f).
Proof. intros H w. apply H. Qed.

Lemma pres_setTimeout a d :
  (forall w t, R w (with_timers t w)) -> preserves R (setTimeout a d).
Proof. intros H w. apply H. Qed.

End Preservation.

Lemma keeps_write r f : preserves keeps (write r f).
Proof.
  intros w. unfold write. destruct r as [id|]; [|reflexivity].
  destruct (dom w !! id) as [e|] eqn:E; [|reflexivity].
  intros id' H. simpl. destruct (decide (id = id')) as [->|Hne].
  - rewrite lookup_insert_eq. eauto.
  - by rewrite lookup_insert_ne.
Qed.

Lemma frame_write_null ids f : preserves (frame ids) (write None f).
Proof. intros w. reflexivity. Qed.

Lemma frame_write ids id f : id ∈ ids -> preserves (frame ids) (write (Some id) f).
Proof.
  intros Hin w. unfold write.
  destruct (dom w !! id) as [e|] eqn:E; [|reflexivity].
  intros id' H. simpl. rewrite lookup_insert_ne; [done|]. by intros ->.
Qed.

Lemma same_app_write r f : preserves same_app (write r f).
Proof.
  intros w. unfold write. destruct r as [id|]; [|reflexivity].
  destruct (dom w !! id); reflexivity.
Qed.

Lemma same_requests_write r f : preserves same_requests (write r f).
Proof.
  intros w. unfold write. destruct r as [id|]; [|reflexivity].
  destruct (dom w !! id); reflexivity.
Qed.

Lemma same_radios_write r f : preserves same_radios (write r f).
Proof.
  intros w. unfold write. destruct r as [id|]; [|reflexivity].
  destruct (dom w !! id); reflexivity.
Qed.

Lemma frame_weaken {A} ids ids' (m : M A) :
  (forall id, id ∈ ids -> id ∈ ids') ->
  preserves (frame ids) m -> preserves (frame ids') m.
Proof. intros Hsub H w id Hid. apply H. intros Hin. apply Hid. auto. Qed.

Create HintDb pres.

#[local] Set Warnings "-clear-no-such-hyp".

(** Membership of a literal in a list of literals. *)
Ltac solve_in := solve [repeat constructor].
Ltac solve_notin :=
  rewrite ?not_elem_of_cons; repeat split; first [done | apply not_elem_of_nil].

(** One step of a proof that a computation preserves a relation: follow
    the structure of the computation. *)
Ltac pres_step :=
  lazymatch goal with
  | |- preserves ?R (bind (getElementById _) _) =>
      apply (pres_bind_getElementById R)
  | |- preserves ?R (bind _ _) => apply (pres_bind R); [| intros ?]
  | |- preserves ?R (ret _) => apply (pres_ret R)
  | |- preserves ?R (throw _) => apply (pres_throw R)
  | |- preserves ?R (try_catch _ _) => apply (pres_try_catch R); [| intros ?]
  | |- preserves ?R (try_finally _ _) => apply (pres_try_finally R)
  | |- preserves ?R (getElementById _) => apply (pres_getElementById R)
  | |- preserves ?R (read _ _) => apply (pres_read R)
  | |- preserves ?R (get_prop _ _) => apply (pres_get_prop R)
  | |- preserves ?R (UI.getRadioValue _) => apply (pres_getRadioValue R)
  | |- preserves ?R (forEach _ _) => apply (pres_forEach R); intros ?
  | |- preserves keeps (write _ _) => apply keeps_write
  | |- preserves same_app (write _ _) => apply same_app_write
  | |- preserves same_requests (write _ _) => apply same_requests_write
  | |- preserves same_radios (write _ _) => apply same_radios_write
  | |- preserves (frame _) (write None _) => apply frame_write_null
  | |- preserves (frame _) (write (Some _) _) => apply frame_write; solve_in
  | |- preserves ?R (modify _) =>
      apply (pres_modify R); intros ?;
      first [reflexivity | intros ? ?; first [assumption | reflexivity]]
  | |- preserves ?R (setTimeout _ _) =>
      apply (pres_setTimeout R); intros ? ?;
      first [reflexivity | intros ? ?; first [assumption | reflexivity]]
  | |- preserves _ (if ?b then _ else _) => destruct b
  | |- preserves _ (match ?x with _ => _ end) => destruct x
  | |- preserves _ _ => solve [auto with pres]
  end.

Ltac pres := simpl; repeat pres_step.

(** ** UI: what each helper preserves *)

Section UIFrames.

Lemma frame_weaken_status {A} ids (m : M A) :
  preserves (frame ["statusBar"; "statusMessage"]) m ->
  "statusBar" ∈ ids -> "statusMessage" ∈ ids -> preserves (frame ids) m.
Proof.
  intros H Hb Hm. eapply frame_weaken; [|exact H].
  intros id. rewrite !elem_of_cons, elem_of_nil. intros [->|[->|[]]]; done.
Qed.

Lemma showStatus_keeps msg ty d : preserves keeps (UI.showStatus msg ty d).
Proof. unfold UI.showStatus. pres. Qed.

Lemma showStatus_frame msg ty d :
  preserves (frame ["statusBar"; "statusMessage"]) (UI.showStatus msg ty d).
Proof. unfold UI.showStatus. pres. Qed.

Lemma showStatus_same_app msg ty d : preserves same_app (UI.showStatus msg ty d).
Proof. unfold UI.showStatus. pres. Qed.

Lemma showStatus_same_requests msg ty d :
  preserves same_requests (UI.showStatus msg ty d).
Proof. unfold UI.showStatus. pres. Qed.

End UIFrames.

#[local] Hint Resolve showStatus_keeps showStatus_same_app
  showStatus_same_requests : pres.
#[local] Hint Extern 1 (preserves (frame _) (UI.showStatus _ _ _)) =>
  (apply frame_weaken_status; [apply showStatus_frame | solve_in | solve_in])
  : pres.

(** ** Running reads and writes on elements that are known *)

Lemma bind_read {A B} id (f : Element -> A) (k : A -> M B) w e :
  dom w !! id = Some e -> bind (read (Some id) f) k w = k (f e) w.
Proof. intros H. unfold bind, read. by rewrite H. Qed.

Lemma bind_read_null {A B} (f : Element -> A) (k : A -> M B) w :
  bind (read None f) k w = (Throw TypeError, w).
Proof. reflexivity. Qed.

Lemma bind_write {B} id f (k : unit -> M B) w e :
  dom w !! id = Some e ->
  bind (write (Some id) f) k w = k tt (with_dom (<[id := f e]> (dom w)) w).
Proof. intros H. unfold bind, write. by rewrite H. Qed.

Lemma write_some id f w e :
  dom w !! id = Some e ->
  write (Some id) f w = (Normal tt, with_dom (<[id := f e]> (dom w)) w).
Proof. intros H. unfold write. by rewrite H. Qed.

Lemma read_some {A} id (f : Element -> A) w e :
  dom w !! id = Some e -> read (Some id) f w = (Normal (f e), w).
Proof. intros H. unfold read. by rewrite H. Qed.

Lemma ref_of_some id w e : dom w !! id = Some e -> ref_of id w = Some id.
Proof. intros H. unfold ref_of. by rewrite H. Qed.

Lemma ref_of_none id w : dom w !! id = None -> ref_of id w = None.
Proof. intros H. unfold ref_of. by rewrite H. Qed.

(** Resolve the lookups of the goal from the hypotheses. *)
Ltac lookups :=
  repeat first
    [ rewrite lookup_insert_eq
    | rewrite lookup_insert_ne by done
    | match goal with
      | H : dom ?w !! ?id = _ |- context [dom ?w !! ?id] => rewrite H
      | H : dom ?w !! ?id = Some _ |- context [ref_of ?id ?w] =>
          rewrite (ref_of_some _ _ _ H)
      | H : dom ?w !! ?id = None |- context [ref_of ?id ?w] =>
          rewrite (ref_of_none _ _ H)
      end ].

Lemma bind_ret {A B} (a : A) (k : A -> M B) w : bind (ret a) k w = k a w.
Proof. reflexivity. Qed.

Lemma bind_bind {A B C} (m : M A) (k : A -> M B) (k' : B -> M C) w :
  bind (bind m k) k' w = bind m (fun a => bind (k a) k') w.
Proof. unfold bind. by destruct (m w) as [[a|e|] w']. Qed.

Lemma bind_throw_now {A B} e (k : A -> M B) w : bind (throw e) k w = (Throw e, w).
Proof. reflexivity. Qed.

Lemma bind_modify {B} f (k : unit -> M B) w : bind (modify f) k w = k tt (f w).
Proof. reflexivity. Qed.

Lemma bind_setTimeout {B} a d (k : unit -> M B) w :
  bind (setTimeout a d) k w = k tt (with_timers (timers w ++ [(a, d)]) w).
Proof. reflexivity. Qed.

Lemma bind_getRadioValue {B} name (k : option ustring -> M B) w :
  bind (UI.getRadioValue name) k w = k (radios w !! name) w.
Proof. reflexivity. Qed.

(** Settle a lookup in the current document. *)
Ltac lk :=
  cbn [dom with_dom with_timers with_app with_requests]; lookups;
  first [reflexivity | eassumption].

(** Run a computation whose element lookups the hypotheses settle. *)
Ltac run_step :=
  first
    [ rewrite bind_bind
    | rewrite bind_getElementById
    | rewrite bind_ret
    | rewrite bind_throw_now
    | rewrite bind_modify
    | rewrite bind_setTimeout
    | rewrite bind_getRadioValue
    | rewrite bind_read_null
    | erewrite bind_write by lk
    | erewrite bind_read by lk
    | erewrite write_some by lk
    | erewrite read_some by lk
    | progress lookups
    | progress
        cbn [ret throw modify is_null negb orb andb fst snd dom with_dom
             with_timers with_app with_requests setTimeout radios app
             requests timers] ].

Ltac run := repeat run_step.

(** Facts about a sample page are settled by evaluation. *)
Ltac eval_now := vm_compute; reflexivity.
Ltac eval_some := eexists; vm_compute; reflexivity.

Section ShowStatus.

Variables (msg : ustring) (ty : UI.StatusType) (d : Z).

Lemma showStatus_normal w : fst (UI.showStatus msg ty d w) = Normal tt.
Proof.
  unfold UI.showStatus.
  destruct (dom w !! "statusBar") eqn:Hb, (dom w !! "statusMessage") eqn:Hm,
    ty, (0 <? d)%Z; run; reflexivity.
Qed.

Lemma showStatus_absent w :
  dom w !! "statusBar" = None \/ dom w !! "statusMessage" = None ->
  UI.showStatus msg ty d w = (Normal tt, w).
Proof.
  unfold UI.showStatus. intros [H|H].
  - run. unfold ref_of. by destruct (dom w !! "statusMessage").
  - run. unfold ref_of. by destruct (dom w !! "statusBar").
Qed.

Lemma showStatus_shows w bar message :
  dom w !! "statusBar" = Some bar ->
  dom w !! "statusMessage" = Some message ->
  shows msg ty (snd (UI.showStatus msg ty d w)).
Proof.
  intros Hb Hm. unfold UI.showStatus, shows.
  destruct ty, (0 <? d)%Z; run;
    (eexists _, _; split_and!; [reflexivity | reflexivity | reflexivity | ..];
     simpl; set_solver).
Qed.

End ShowStatus.

(** ** UI.updateStats *)

Section UpdateStats.

Variables textAreaId statsId : string.

Lemma updateStats_keeps : preserves keeps (UI.updateStats textAreaId statsId).
Proof. unfold UI.updateStats. pres. Qed.

Lemma updateStats_frame :
  preserves (frame [statsId]) (UI.updateStats textAreaId statsId).
Proof. unfold UI.updateStats. pres. Qed.

Lemma updateStats_same_app : preserves same_app (UI.updateStats textAreaId statsId).
Proof. unfold UI.updateStats. pres. Qed.

Lemma updateStats_same_requests :
  preserves same_requests (UI.updateStats textAreaId statsId).
Proof. unfold UI.updateStats. pres. Qed.

Lemma updateStats_absent w :
  dom w !! textAreaId = None \/ dom w !! statsId = None ->
  UI.updateStats textAreaId statsId w = (Normal tt, w).
Proof.
  unfold UI.updateStats. intros [H|H]; run.
  - unfold ref_of. by destruct (dom w !! statsId).
  - unfold ref_of. by destruct (dom w !! textAreaId).
Qed.

Lemma updateStats_present w area stats :
  dom w !! textAreaId = Some area ->
  dom w !! statsId = Some stats ->
  UI.updateStats textAreaId statsId w
  = (Normal tt,
     with_dom (<[statsId :=
                  with_textContent
                    (UI.stats_text (length (value area)) (UI.wordCount (value area)))
                    stats]> (dom w)) w).
Proof. intros Ha Hs. unfold UI.updateStats. run. reflexivity. Qed.

Lemma updateStats_normal w : fst (UI.updateStats textAreaId statsId w) = Normal tt.
Proof.
  destruct (dom w !! textAreaId) eqn:Ha; [|by rewrite updateStats_absent; auto].
  destruct (dom w !! statsId) eqn:Hs; [|by rewrite updateStats_absent; auto].
  by erewrite updateStats_present.
Qed.

End UpdateStats.

(** ** UI.showLoading and UI.hideLoading *)

Section Loading.

Variables buttonId spinnerId : string.

Lemma showLoading_keeps : preserves keeps (UI.showLoading buttonId spinnerId).
Proof. unfold UI.showLoading, UI.querySelector_btnText. pres. Qed.

Lemma hideLoading_keeps : preserves keeps (UI.hideLoading buttonId spinnerId).
Proof. unfold UI.hideLoading, UI.querySelector_btnText. pres. Qed.

Lemma showLoading_frame :
  preserves (frame [buttonId; spinnerId]) (UI.showLoading buttonId spinnerId).
Proof. unfold UI.showLoading, UI.querySelector_btnText. pres. Qed.

Lemma hideLoading_frame :
  preserves (frame [buttonId; spinnerId]) (UI.hideLoading buttonId spinnerId).
Proof. unfold UI.hideLoading, UI.querySelector_btnText. pres. Qed.

Lemma showLoading_same_app : preserves same_app (UI.showLoading buttonId spinnerId).
Proof. unfold UI.showLoading, UI.querySelector_btnText. pres. Qed.

Lemma hideLoading_same_app : preserves same_app (UI.hideLoading buttonId spinnerId).
Proof. unfold UI.hideLoading, UI.querySelector_btnText. pres. Qed.

Lemma showLoading_same_requests :
  preserves same_requests (UI.showLoading buttonId spinnerId).
Proof. unfold UI.showLoading, UI.querySelector_btnText. pres. Qed.

Lemma hideLoading_same_requests :
  preserves same_requests (UI.hideLoading buttonId spinnerId).
Proof. unfold UI.hideLoading, UI.querySelector_btnText. pres. Qed.

(** Without the button, the helper dereferences [null] before it reaches
    its own test for missing elements. *)
Lemma showLoading_no_button w :
  dom w !! buttonId = None ->
  UI.showLoading buttonId spinnerId w = (Throw TypeError, w).
Proof.
  intros H. unfold UI.showLoading, UI.querySelector_btnText. run.
  unfold ref_of. by destruct (dom w !! spinnerId).
Qed.

Lemma hideLoading_no_button w :
  dom w !! buttonId = None ->
  UI.hideLoading buttonId spinnerId w = (Throw TypeError, w).
Proof.
  intros H. unfold UI.hideLoading, UI.querySelector_btnText. run.
  unfold ref_of. by destruct (dom w !! spinnerId).
Qed.

Lemma showLoading_normal w button :
  dom w !! buttonId = Some button ->
  fst (UI.showLoading buttonId spinnerId w) = Normal tt.
Proof.
  intros Hb. unfold UI.showLoading, UI.querySelector_btnText. run.
  destruct (dom w !! spinnerId) eqn:Hs; run; [|done].
  destruct (decide (buttonId = spinnerId)) as [<-|Hne].
  - run. destruct (bool_decide _); run; done.
  - assert (spinnerId <> buttonId) by done.
    run. destruct (bool_decide _); run; done.
Qed.

Lemma hideLoading_normal w button :
  dom w !! buttonId = Some button ->
  fst (UI.hideLoading buttonId spinnerId w) = Normal tt.
Proof.
  intros Hb. unfold UI.hideLoading, UI.querySelector_btnText. run.
  destruct (dom w !! spinnerId) eqn:Hs; run; [|done].
  destruct (decide (buttonId = spinnerId)) as [<-|Hne].
  - run. destruct (bool_decide _); run; done.
  - assert (spinnerId <> buttonId) by done.
    run. destruct (bool_decide _); run; done.
Qed.

Hypothesis distinct : buttonId <> spinnerId.

Lemma showLoading_loading w button spinner :
  dom w !! buttonId = Some button ->
  dom w !! spinnerId = Some spinner ->
  loading buttonId spinnerId (snd (UI.showLoading buttonId spinnerId w)).
Proof.
  intros Hb Hs. assert (spinnerId <> buttonId) by done.
  unfold UI.showLoading, UI.querySelector_btnText, loading. run.
  destruct (btnText button) as [o|] eqn:Ho; simpl; run.
  - eexists _, _. split_and!; [reflexivity..| |]; simpl; [set_solver | done].
  - eexists _, _. split_and!; [reflexivity..| |]; simpl; [set_solver|].
    rewrite Ho. by intros [? [=]].
Qed.

Lemma hideLoading_idle w button spinner :
  dom w !! buttonId = Some button ->
  dom w !! spinnerId = Some spinner ->
  idle buttonId spinnerId (snd (UI.hideLoading buttonId spinnerId w)).
Proof.
  intros Hb Hs. assert (spinnerId <> buttonId) by done.
  unfold UI.hideLoading, UI.querySelector_btnText, idle. run.
  destruct (btnText button) as [o|] eqn:Ho; simpl; run.
  - eexists _, _. split_and!; [reflexivity..| |]; simpl; [set_solver | done].
  - eexists _, _. split_and!; [reflexivity..| |]; simpl; [set_solver|].
    rewrite Ho. by intros [? [=]].
Qed.

End Loading.

#[local] Hint Resolve updateStats_keeps updateStats_same_app
  updateStats_same_requests showLoading_keeps hideLoading_keeps
  showLoading_same_app hideLoading_same_app showLoading_same_requests
  hideLoading_same_requests : pres.
#[local] Hint Extern 1 (preserves (frame _) (UI.updateStats _ _)) =>
  (eapply frame_weaken; [|apply updateStats_frame];
   intros ?; rewrite !elem_of_cons, elem_of_nil; intros [->|[]]; solve_in)
  : pres.
#[local] Hint Extern 1 (preserves (frame _) (UI.showLoading _ _)) =>
  (eapply frame_weaken; [|apply showLoading_frame];
   intros ?; rewrite !elem_of_cons, elem_of_nil; intros [->|[->|[]]]; solve_in)
  : pres.
#[local] Hint Extern 1 (preserves (frame _) (UI.hideLoading _ _)) =>
  (eapply frame_weaken; [|apply hideLoading_frame];
   intros ?; rewrite !elem_of_cons, elem_of_nil; intros [->|[->|[]]]; solve_in)
  : pres.

(** ** UI.updateOutputButtons *)

Section OutputButtons.

Variable hasText : bool.

Lemma updateOutputButtons_keeps : preserves keeps (UI.updateOutputButtons hasText).
Proof. unfold UI.updateOutputButtons. pres. Qed.

Lemma updateOutputButtons_frame :
  preserves (frame ["copyOutput"; "downloadOutput"])
    (UI.updateOutputButtons hasText).
Proof. unfold UI.updateOutputButtons. pres. Qed.

Lemma updateOutputButtons_same_app :
  preserves same_app (UI.updateOutputButtons hasText).
Proof. unfold UI.updateOutputButtons. pres. Qed.

Lemma updateOutputButtons_same_requests :
  preserves same_requests (UI.updateOutputButtons hasText).
Proof. unfold UI.updateOutputButtons. pres. Qed.

Lemma updateOutputButtons_normal w :
  fst (UI.updateOutputButtons hasText w) = Normal tt.
Proof.
  unfold UI.updateOutputButtons.
  destruct (dom w !! "copyOutput") eqn:Hc, (dom w !! "downloadOutput") eqn:Hd;
    run; reflexivity.
Qed.

Lemma updateOutputButtons_copy w :
  dom (snd (UI.updateOutputButtons hasText w)) !! "copyOutput"
  = with_disabled (negb hasText) <$> dom w !! "copyOutput".
Proof.
  unfold UI.updateOutputButtons.
  destruct (dom w !! "copyOutput") eqn:Hc, (dom w !! "downloadOutput") eqn:Hd;
    run; reflexivity.
Qed.

Lemma updateOutputButtons_download w :
  dom (snd (UI.updateOutputButtons hasText w)) !! "downloadOutput"
  = with_disabled (negb hasText) <$> dom w !! "downloadOutput".
Proof.
  unfold UI.updateOutputButtons.
  destruct (dom w !! "copyOutput") eqn:Hc, (dom w !! "downloadOutput") eqn:Hd;
    run; reflexivity.
Qed.

End OutputButtons.

#[local] Hint Resolve updateOutputButtons_keeps updateOutputButtons_same_app
  updateOutputButtons_same_requests : pres.
#[local] Hint Extern 1 (preserves (frame _) (UI.updateOutputButtons _)) =>
  (eapply frame_weaken; [|apply updateOutputButtons_frame];
   intros ?; rewrite !elem_of_cons, elem_of_nil; intros [->|[->|[]]]; solve_in)
  : pres.

(** ** UI.validateInput *)

Section ValidateInput.

Variables (text : ustring) (minLength : Z).

Lemma validateInput_keeps : preserves keeps (UI.validateInput text minLength).
Proof. unfold UI.validateInput. pres. Qed.

Lemma validateInput_frame :
  preserves (frame ["statusBar"; "statusMessage"]) (UI.validateInput text minLength).
Proof. unfold UI.validateInput. pres. Qed.

Lemma validateInput_same_app : preserves same_app (UI.validateInput text minLength).
Proof. unfold UI.validateInput. pres. Qed.

Lemma validateInput_same_requests :
  preserves same_requests (UI.validateInput text minLength).
Proof. unfold UI.validateInput. pres. Qed.

Lemma nonempty_trim : nonempty (trim text) = true -> nonempty text = true.
Proof. by destruct text. Qed.

Lemma validateInput_blank w :
  nonempty (trim text) = false ->
  UI.validateInput text minLength w
  = (Normal false,
     snd (UI.showStatus (lit "Please enter some text") UI.TError
            UI.default_duration w)).
Proof.
  intros H. unfold UI.validateInput. rewrite H, orb_true_r.
  by rewrite (bind_normal _ _ _ tt) by apply showStatus_normal.
Qed.

Lemma validateInput_short w :
  nonempty (trim text) = true ->
  (Z.of_nat (length (trim text)) < minLength)%Z ->
  UI.validateInput text minLength w
  = (Normal false,
     snd (UI.showStatus
            (lit "Text must be at least " ++ dec minLength ++ lit " characters")
            UI.TError UI.default_duration w)).
Proof.
  intros H Hlt. unfold UI.validateInput. rewrite H, (nonempty_trim H). simpl.
  apply Z.ltb_lt in Hlt. rewrite Hlt.
  by rewrite (bind_normal _ _ _ tt) by apply showStatus_normal.
Qed.

Lemma validateInput_valid w :
  nonempty (trim text) = true ->
  (minLength <= Z.of_nat (length (trim text)))%Z ->
  UI.validateInput text minLength w = (Normal true, w).
Proof.
  intros H Hle. unfold UI.validateInput. rewrite H, (nonempty_trim H). simpl.
  apply Z.ltb_ge in Hle. by rewrite Hle.
Qed.

Lemma validateInput_normal w :
  exists b, fst (UI.validateInput text minLength w) = Normal b.
Proof.
  destruct (nonempty (trim text)) eqn:H.
  - destruct (Z.lt_ge_cases (Z.of_nat (length (trim text))) minLength).
    + rewrite validateInput_short by done. eauto.
    + rewrite validateInput_valid by done. eauto.
  - rewrite validateInput_blank by done. eauto.
Qed.

End ValidateInput.

#[local] Hint Resolve validateInput_keeps validateInput_same_app
  validateInput_same_requests : pres.
#[local] Hint Extern 1 (preserves (frame _) (UI.validateInput _ _)) =>
  (apply frame_weaken_status; [apply validateInput_frame | solve_in | solve_in])
  : pres.

(** ** API: the transport client *)

Section Transport.

Variable net : Request -> API.FetchOutcome.

Lemma post_unfold endpoint data w :
  API.post net endpoint data w
  = (match net (post_request endpoint data) with
     | API.FetchRejects _ | API.FetchResolves (API.JsonRejects _) =>
         Normal API.connect_failure
     | API.FetchPending | API.FetchResolves API.JsonPending => Pending
     | API.FetchResolves (API.JsonResolves v) => Normal v
     end,
     with_requests (requests w ++ [post_request endpoint data]) w).
Proof.
  unfold API.post, try_catch, bind, API.fetch, post_request.
  destruct (net _) as [e| |[e| |v]]; reflexivity.
Qed.

Lemma get_unfold endpoint w :
  API.get net endpoint w
  = (match net (get_request endpoint) with
     | API.FetchRejects _ | API.FetchResolves (API.JsonRejects _) =>
         Normal API.connect_failure
     | API.FetchPending | API.FetchResolves API.JsonPending => Pending
     | API.FetchResolves (API.JsonResolves v) => Normal v
     end,
     with_requests (requests w ++ [get_request endpoint]) w).
Proof.
  unfold API.get, try_catch, bind, API.fetch, get_request.
  destruct (net _) as [e| |[e| |v]]; reflexivity.
Qed.

Lemma post_keeps endpoint data : preserves keeps (API.post net endpoint data).
Proof. intros w. rewrite post_unfold. by intros id. Qed.

Lemma post_frame ids endpoint data :
  preserves (frame ids) (API.post net endpoint data).
Proof. intros w. rewrite post_unfold. by intros id. Qed.

Lemma post_same_app endpoint data : preserves same_app (API.post net endpoint data).
Proof. intros w. by rewrite post_unfold. Qed.

Lemma get_keeps endpoint : preserves keeps (API.get net endpoint).
Proof. intros w. rewrite get_unfold. by intros id. Qed.

Lemma get_frame ids endpoint : preserves (frame ids) (API.get net endpoint).
Proof. intros w. rewrite get_unfold. by intros id. Qed.

Lemma get_same_app endpoint : preserves same_app (API.get net endpoint).
Proof. intros w. by rewrite get_unfold. Qed.

(** C1. For every endpoint and payload, [API.post] and [API.get] never end
    with a thrown exception; when [fetch] or the parse of the response as
    JSON throws or rejects, they return the object
    [{success: false, error: "Failed to connect to server. Please ensure
    the backend is running."}]. *)
Theorem transport_never_throws endpoint data w :
  (forall e, fst (API.post net endpoint data w) <> Throw e) /\
  (forall e, fst (API.get net endpoint w) <> Throw e) /\
  (transport_failure (net (post_request endpoint data)) ->
   fst (API.post net endpoint data w) = Normal API.connect_failure) /\
  (transport_failure (net (get_request endpoint)) ->
   fst (API.get net endpoint w) = Normal API.connect_failure) /\
  API.connect_failure
  = JObj [ (lit "success", JBool false);
           (lit "error",
            JStr (lit "Failed to connect to server. Please ensure the backend is running.")) ].
Proof.
  rewrite post_unfold, get_unfold. simpl. split_and!.
  - intros e. by destruct (net _) as [?| |[?| |?]].
  - intros e. by destruct (net _) as [?| |[?| |?]].
  - by intros [e [-> | ->]].
  - by intros [e [-> | ->]].
  - reflexivity.
Qed.

End Transport.

Lemma transport_never_throws_witness :
  transport_failure (Sample.offline (post_request (lit "/translate") JNull)) /\
  fst (API.post Sample.offline (lit "/translate") JNull Sample.empty)
  = Normal API.connect_failure /\
  fst (API.get Sample.offline (lit "/languages") Sample.empty)
  = Normal API.connect_failure.
Proof.
  assert (H : forall r, transport_failure (Sample.offline r))
    by (intros r; exists NetworkError; by left).
  split; [apply H|].
  split.
  - apply (transport_never_throws Sample.offline (lit "/translate") JNull
             Sample.empty), H.
  - apply (transport_never_throws Sample.offline (lit "/languages") JNull
             Sample.empty), H.
Defined.

#[local] Hint Resolve post_keeps post_same_app get_keeps get_same_app
  post_frame get_frame : pres.

(** ** C2: the loading helpers and a missing button *)

(** C2. Claimed: no presentation helper ever throws, a missing element
    making the call a no-op. [showLoading] and [hideLoading] break this:
    when the button is missing they end with a TypeError, raised by
    [button.querySelector] before the test for missing elements. *)
Theorem loading_helpers_throw_without_button buttonId spinnerId w :
  dom w !! buttonId = None ->
  fst (UI.showLoading buttonId spinnerId w) = Throw TypeError /\
  fst (UI.hideLoading buttonId spinnerId w) = Throw TypeError.
Proof.
  intros H. by rewrite showLoading_no_button, hideLoading_no_button.
Qed.

Lemma loading_helpers_throw_without_button_witness :
  dom Sample.empty !! "translateBtn" = None /\
  fst (UI.showLoading "translateBtn" "translateSpinner" Sample.empty)
  = Throw TypeError /\
  fst (UI.hideLoading "translateBtn" "translateSpinner" Sample.empty)
  = Throw TypeError.
Proof.
  split; [reflexivity|].
  apply (loading_helpers_throw_without_button "translateBtn" "translateSpinner"
           Sample.empty).
  reflexivity.
Defined.

(** ** C6: UI.validateInput *)

(** C6, as amended. For every text [t] and minimum length [m]:
    [validateInput] returns false when [t] is empty or all white space; it
    returns false when the trimmed length of [t] is less than [m]; it
    returns true, and shows nothing, when [t] is not empty or all white
    space and its trimmed length is at least [m]. With the default
    [m = 1] every text that is not blank passes. Each failure shows its own
    message: "Please enter some text" for blank text, "Text must be at
    least m characters" for text that is too short, [m] being printed with
    its digits (as a number up to the largest safe integer is). *)
Theorem validateInput_spec (t : ustring) (m : Z) (w : World) :
  (blank t -> fst (UI.validateInput t m w) = Normal false) /\
  ((Z.of_nat (length (trim t)) < m)%Z ->
   fst (UI.validateInput t m w) = Normal false) /\
  (~ blank t -> (m <= Z.of_nat (length (trim t)))%Z ->
   UI.validateInput t m w = (Normal true, w)) /\
  (~ blank t -> UI.validateInput t 1 w = (Normal true, w)) /\
  (forall bar message,
     dom w !! "statusBar" = Some bar ->
     dom w !! "statusMessage" = Some message ->
     (blank t ->
      shows (lit "Please enter some text") UI.TError
        (snd (UI.validateInput t m w))) /\
     (~ blank t -> (Z.of_nat (length (trim t)) < m)%Z ->
      (m <= max_safe_integer)%Z ->
      shows (lit "Text must be at least " ++ dec m ++ lit " characters")
        UI.TError (snd (UI.validateInput t m w)))).
Proof.
  assert (Hnb : ~ blank t -> nonempty (trim t) = true).
  { rewrite <- nonempty_trim_blank. by destruct (nonempty (trim t)). }
  assert (Hlen : ~ blank t -> (1 <= Z.of_nat (length (trim t)))%Z).
  { intros H. apply Hnb in H. destruct (trim t); [done | simpl; lia]. }
  split_and!.
  - intros H. apply nonempty_trim_blank in H. by rewrite validateInput_blank.
  - intros H. destruct (nonempty (trim t)) eqn:E.
    + by rewrite validateInput_short.
    + by rewrite validateInput_blank.
  - intros H1 H2. apply validateInput_valid; auto.
  - intros H. apply validateInput_valid; auto.
  - intros bar message Hb Hm. split.
    + intros H. apply nonempty_trim_blank in H. rewrite validateInput_blank by done.
      simpl. by eapply showStatus_shows.
    + intros H1 H2 _. rewrite validateInput_short by auto.
      simpl. by eapply showStatus_shows.
Qed.

Lemma validateInput_spec_witness :
  UI.validateInput (lit " Hello world ") 5 (Sample.page [] [])
  = (Normal true, Sample.page [] []) /\
  fst (UI.validateInput (lit "  ") 1 (Sample.page [] [])) = Normal false /\
  fst (UI.validateInput (lit "Hola") 50 (Sample.page [] [])) = Normal false /\
  shows (lit "Please enter some text") UI.TError
    (snd (UI.validateInput (lit "  ") 1 (Sample.page [] []))) /\
  shows (lit "Text must be at least 50 characters") UI.TError
    (snd (UI.validateInput (lit "Hola") 50 (Sample.page [] []))).
Proof.
  assert (Hnb : forall s, nonempty (trim s) = true -> ~ blank s).
  { intros s H Hb. apply nonempty_trim_blank in Hb. congruence. }
  assert (Hb : blank (lit "  ")) by repeat constructor.
  destruct (validateInput_spec (lit " Hello world ") 5 (Sample.page [] []))
    as (_ & _ & Hpass & _).
  destruct (validateInput_spec (lit "  ") 1 (Sample.page [] []))
    as (Hblank & _ & _ & _ & Hmsg1).
  destruct (validateInput_spec (lit "Hola") 50 (Sample.page [] []))
    as (_ & Hshort & _ & _ & Hmsg2).
  split_and!.
  - apply Hpass; [by apply Hnb | by vm_compute].
  - by apply Hblank.
  - by apply Hshort.
  - by eapply Hmsg1.
  - eapply Hmsg2;
      [reflexivity | reflexivity | by apply Hnb | reflexivity | by vm_compute].
Defined.

(** C6, as claimed, fails: with the minimum length 0 the empty text has a
    trimmed length that is at least the minimum, and [validateInput]
    returns false all the same, empty text being refused before its length
    is looked at. *)
Lemma validateInput_empty_counterexample :
  ~ (forall t m w,
       (m <= Z.of_nat (length (trim t)))%Z ->
       fst (UI.validateInput t m w) = Normal true).
Proof.
  intros H. specialize (H [] 0%Z Sample.empty).
  assert (Hlen : (0 <= Z.of_nat (length (trim [])))%Z) by (vm_compute; discriminate).
  specialize (H Hlen). vm_compute in H. discriminate H.
Qed.

(** ** C7: UI.updateStats *)

(** C7. For every text [t] in the text area, [updateStats] writes
    "Characters: c | Words: n" into the stats element, where [c] is the
    length of [t] and [n] the number of white-space-delimited tokens of the
    trimmed [t]; [n] is 0 when [t] is empty or all white space. *)
Theorem updateStats_counts textAreaId statsId (w : World) area stats :
  dom w !! textAreaId = Some area ->
  dom w !! statsId = Some stats ->
  let t := value area in
  fst (UI.updateStats textAreaId statsId w) = Normal tt /\
  exists stats',
    dom (snd (UI.updateStats textAreaId statsId w)) !! statsId = Some stats' /\
    textContent stats'
    = lit "Characters: " ++ dec (Z.of_nat (length t))
      ++ lit " | Words: " ++ dec (Z.of_nat (token_count (trim t))) /\
    (blank t ->
     textContent stats'
     = lit "Characters: " ++ dec (Z.of_nat (length t)) ++ lit " | Words: 0").
Proof.
  intros Ha Hs t. subst t. rewrite (updateStats_present _ _ _ _ _ Ha Hs). simpl.
  split; [done|]. eexists. rewrite lookup_insert_eq. split; [done|].
  simpl. unfold UI.stats_text. rewrite wordCount_tokens. split; [done|].
  intros Hb. rewrite token_count_trim, (token_count_blank _ Hb). done.
Qed.

Lemma updateStats_counts_witness :
  exists stats',
    dom (snd (UI.updateStats "inputText" "inputStats"
                (Sample.page (lit "Hello world") []))) !! "inputStats"
    = Some stats' /\
    textContent stats' = lit "Characters: 11 | Words: 2".
Proof.
  destruct (updateStats_counts "inputText" "inputStats"
              (Sample.page (lit "Hello world") [])
              (with_value (lit "Hello world") Sample.element) Sample.element
              eq_refl eq_refl) as [_ [stats' [H1 [H2 _]]]].
  exists stats'. split; [exact H1|]. rewrite H2. reflexivity.
Defined.

(** ** C8: UI.swapLanguages *)

Section Swap.

Lemma selected_frame ids w w' :
  frame ids w w' -> "sourceLanguage" ∉ ids -> "targetLanguage" ∉ ids ->
  selected w' = selected w.
Proof. intros H Hs Ht. unfold selected. by rewrite !H. Qed.

Lemma selected_showStatus msg ty d w :
  selected (snd (UI.showStatus msg ty d w)) = selected w.
Proof. eapply selected_frame; [apply showStatus_frame | solve_notin..]. Qed.

Lemma selected_inv w s t :
  selected w = Some (s, t) ->
  exists source target,
    dom w !! "sourceLanguage" = Some source /\
    dom w !! "targetLanguage" = Some target /\
    value source = s /\ value target = t.
Proof.
  unfold selected.
  destruct (dom w !! "sourceLanguage") as [source|],
    (dom w !! "targetLanguage") as [target|]; try done.
  intros [= <- <-]. by eexists _, _.
Qed.

Lemma swapLanguages_auto w t :
  selected w = Some (lit "auto", t) ->
  UI.swapLanguages w
  = UI.showStatus (lit "Cannot swap with auto-detect") UI.TError 2000 w.
Proof.
  intros (source & target & Hs & Ht & Hv & _)%selected_inv.
  unfold UI.swapLanguages. run. by rewrite Hv.
Qed.



End Swap.



(** ** C9: UI.populateLanguageDropdown and App.loadLanguages *)

Section Populate.

Lemma bind_eq {A B} (m : M A) (k : A -> M B) w a w' :
  m w = (Normal a, w') -> bind m k w = k a w'.
Proof. intros H. unfold bind. by rewrite H. Qed.

Lemma try_catch_normal {A} (body : M A) handler w a :
  fst (body w) = Normal a -> try_catch body handler w = body w.
Proof. unfold try_catch. destruct (body w) as [r w']. simpl. by intros ->. Qed.

Lemma get_prop_some v k x : prop v (lit k) = Some x -> get_prop v k = ret x.
Proof. intros H. unfold get_prop. by rewrite H. Qed.

Lemma language_value_is_language l : is_language (language_value l) l.
Proof. by destruct l. Qed.

Lemma kept_cons excludeAuto l ls :
  kept excludeAuto (l :: ls) = kept excludeAuto [l] ++ kept excludeAuto ls.
Proof.
  unfold kept. cbn [List.filter]. by destruct (negb (excludeAuto && is_auto l)).
Qed.

Lemma add_language_run select excludeAuto v l w e :
  is_language v l ->
  dom w !! select = Some e ->
  exists w',
    UI.add_language (Some select) excludeAuto v w = (Normal tt, w') /\
    dom w' !! select
    = Some (with_options (options e ++ map option_of (kept excludeAuto [l])) e) /\
    app w' = app w.
Proof.
  intros (Hc & Hn & Hv) He. unfold UI.add_language, kept, is_auto.
  rewrite !(get_prop_some _ _ _ Hc), (get_prop_some _ _ _ Hn),
    (get_prop_some _ _ _ Hv).
  cbn [List.filter map].
  destruct excludeAuto; run; cbn [is_string to_string andb negb].
  - destruct (Str.eqb (code l) (lit "auto")); cbn [negb map]; run.
    + eexists. split_and!; [done | | done]. rewrite He, app_nil_r. by destruct e.
    + eexists. split_and!; [done | | done]. by lk.
  - eexists. split_and!; [done | | done]. by lk.
Qed.

Lemma iter_add_language_run select excludeAuto vs ls :
  Forall2 is_language vs ls ->
  forall w e,
    dom w !! select = Some e ->
    exists w',
      iter (UI.add_language (Some select) excludeAuto) vs w = (Normal tt, w') /\
      dom w' !! select
      = Some (with_options (options e ++ map option_of (kept excludeAuto ls)) e) /\
      app w' = app w.
Proof.
  induction 1 as [|v l vs ls Hl _ IH]; intros w e He; cbn [iter].
  - eexists. split_and!; [done | | done]. cbn [kept List.filter map].
    rewrite He, app_nil_r. by destruct e.
  - destruct (add_language_run select excludeAuto v l w e Hl He)
      as (w1 & Hrun & Hlook & Happ).
    destruct (IH w1 _ Hlook) as (w2 & Hrun2 & Hlook2 & Happ2).
    exists w2. rewrite (bind_eq _ _ _ _ _ Hrun). split_and!; [done | | congruence].
    rewrite Hlook2. f_equal.
    rewrite (kept_cons excludeAuto l ls), map_app, app_assoc. by destruct e.
Qed.

(** The options of a selector after it has been populated from a sequence
    of language records. *)
Lemma populateLanguageDropdown_run select excludeAuto vs ls w e :
  Forall2 is_language vs ls ->
  dom w !! select = Some e ->
  exists w',
    UI.populateLanguageDropdown select (JArr vs) excludeAuto w = (Normal tt, w') /\
    options_of select w' = Some (map option_of (kept excludeAuto ls)) /\
    app w' = app w.
Proof.
  intros Hls He. unfold UI.populateLanguageDropdown. run. cbn [forEach].
  destruct (iter_add_language_run select excludeAuto vs ls Hls
              (with_dom (<[select := with_options [] e]> (dom w)) w)
              (with_options [] e)) as (w' & Hrun & Hlook & Happ); [by lk|].
  exists w'. unfold options_of. rewrite Hrun, Hlook. done.
Qed.

Lemma populateLanguageDropdown_keeps select v excludeAuto :
  preserves keeps (UI.populateLanguageDropdown select v excludeAuto).
Proof. unfold UI.populateLanguageDropdown, UI.add_language. pres. Qed.

Lemma populateLanguageDropdown_frame select v excludeAuto :
  preserves (frame [select]) (UI.populateLanguageDropdown select v excludeAuto).
Proof. unfold UI.populateLanguageDropdown, UI.add_language. pres. Qed.

Lemma kept_no_auto ls l : l ∈ kept true ls -> code l <> lit "auto".
Proof.
  unfold kept. rewrite list_elem_of_In, filter_In. intros [_ H] Hc.
  unfold is_auto, Str.eqb in H. simpl in H.
  by rewrite bool_decide_eq_true_2 in H.
Qed.

Lemma kept_all ls : kept false ls = ls.
Proof. unfold kept. simpl. induction ls; simpl; congruence. Qed.

Lemma bind_get_languages {B} (k : JSValue -> M B) w :
  bind App.get_languages k w = k (languages (app w)) w.
Proof. reflexivity. Qed.

Variable net : Request -> API.FetchOutcome.

(** C9. For every sequence of language records the backend supplies,
    loading the languages gives the target-language selector one option
    for each record whose code is not "auto", in order, so none of its
    options has the value "auto", and gives the source-language selector
    one option for every record of the sequence, the "auto" record
    included when it is there. *)
Theorem loadLanguages_selectors (ls : list Language) (vs : list JSValue)
  (response success : JSValue) (w : World) :
  net (get_request (lit "/languages"))
  = API.FetchResolves (API.JsonResolves response) ->
  prop response (lit "success") = Some success ->
  truthy success = true ->
  prop response (lit "languages") = Some (JArr vs) ->
  Forall2 is_language vs ls ->
  is_Some (dom w !! "sourceLanguage") ->
  is_Some (dom w !! "targetLanguage") ->
  let w' := snd (App.loadLanguages net w) in
  fst (App.loadLanguages net w) = Normal tt /\
  options_of "sourceLanguage" w' = Some (map option_of ls) /\
  options_of "targetLanguage" w'
  = Some (map option_of (List.filter (fun l => negb (is_auto l)) ls)) /\
  (forall o target, options_of "targetLanguage" w' = Some target ->
     o ∈ target -> opt_value o <> lit "auto") /\
  (forall l source, options_of "sourceLanguage" w' = Some source ->
     l ∈ ls -> option_of l ∈ source).
Proof.
  intros Hnet Hs Ht Hl Hls [es Hes] [et Het] w'.
  assert (Hrun : exists w1,
    App.loadLanguages net w = (Normal tt, w1) /\
    options_of "sourceLanguage" w1 = Some (map option_of ls) /\
    options_of "targetLanguage" w1 = Some (map option_of (kept true ls))).
  { unfold App.loadLanguages, API.getLanguages.
    set (body := bind (API.get net (lit "/languages")) _).
    assert (Hbody : exists w1, body w = (Normal tt, w1) /\
      options_of "sourceLanguage" w1 = Some (map option_of ls) /\
      options_of "targetLanguage" w1 = Some (map option_of (kept true ls))).
    { subst body.
      erewrite bind_eq by (rewrite get_unfold, Hnet; reflexivity).
      rewrite (get_prop_some _ _ _ Hs). run. rewrite Ht.
      rewrite (get_prop_some _ _ _ Hl). run. simpl.
      unfold App.set_languages. run.
      rewrite bind_get_languages. cbn [app with_app languages].
      match goal with
      | |- exists _, bind _ _ ?W = _ /\ _ => set (w0 := W)
      end.
      assert (Hes0 : dom w0 !! "sourceLanguage" = Some es) by (subst w0; by lk).
      assert (Het0 : dom w0 !! "targetLanguage" = Some et) by (subst w0; by lk).
      destruct (populateLanguageDropdown_run "sourceLanguage" false vs ls w0 es
                  Hls Hes0) as (w1 & Hrun1 & Hopt1 & Happ1).
      rewrite (bind_eq _ _ _ _ _ Hrun1).
      rewrite bind_get_languages, Happ1. subst w0. cbn [app with_app languages].
      assert (Het1 : dom w1 !! "targetLanguage" = Some et).
      { pose proof (populateLanguageDropdown_frame "sourceLanguage" (JArr vs)
                      false) as Hf.
        specialize (Hf (with_app
          {| languages := JArr vs;
             currentInputText := currentInputText (app w);
             currentOutputText := currentOutputText (app w) |}
          (with_requests (requests w ++ [get_request (lit "/languages")]) w))).
        rewrite Hrun1 in Hf. cbn [snd] in Hf. rewrite Hf by solve_notin. done. }
      destruct (populateLanguageDropdown_run "targetLanguage" true vs ls w1 et
                  Hls Het1) as (w2 & Hrun2 & Hopt2 & Happ2).
      exists w2. split_and!; [done | | done].
      pose proof (populateLanguageDropdown_frame "targetLanguage" (JArr vs)
                    true w1) as Hf.
      rewrite Hrun2 in Hf. cbn [snd] in Hf. unfold options_of in *.
      rewrite Hf by solve_notin. by rewrite Hopt1, kept_all. }
    destruct Hbody as (w1 & Hbody & H1 & H2).
    exists w1. rewrite (try_catch_normal _ _ _ tt) by (by rewrite Hbody). done. }
  destruct Hrun as (w1 & Hrun & H1 & H2). subst w'. rewrite Hrun. simpl.
  split_and!; [done | done | by rewrite H2 | |].
  - intros o target. rewrite H2. intros [= <-] (l & -> & Hin)%list_elem_of_fmap.
    simpl. by eapply kept_no_auto.
  - intros l source. rewrite H1. intros [= <-] Hin.
    by apply list_elem_of_fmap_2.
Qed.

End Populate.

Lemma loadLanguages_selectors_witness :
  let w' := snd (App.loadLanguages
                   (Sample.answering
                      (Sample.languages_response
                         [Sample.auto_detect; Sample.english; Sample.hindi]))
                   (Sample.page [] [])) in
  options_of "sourceLanguage" w'
  = Some [option_of Sample.auto_detect; option_of Sample.english;
          option_of Sample.hindi] /\
  options_of "targetLanguage" w'
  = Some [option_of Sample.english; option_of Sample.hindi].
Proof.
  set (ls := [Sample.auto_detect; Sample.english; Sample.hindi]).
  destruct (loadLanguages_selectors
              (Sample.answering (Sample.languages_response ls))
              ls (map language_value ls) (Sample.languages_response ls)
              (JBool true) (Sample.page [] []))
    as (_ & Hsource & Htarget & _).
  - reflexivity.
  - reflexivity.
  - reflexivity.
  - reflexivity.
  - repeat constructor.
  - by eexists.
  - by eexists.
  - split; [exact Hsource | exact Htarget].
Defined.

(** ** The handlers: what they preserve *)

Lemma showStatus_lookup msg ty d w id :
  id <> "statusBar" -> id <> "statusMessage" ->
  dom (snd (UI.showStatus msg ty d w)) !! id = dom w !! id.
Proof. intros. apply showStatus_frame. solve_notin. Qed.

Lemma showLoading_lookup b s w id :
  id <> b -> id <> s -> dom (snd (UI.showLoading b s w)) !! id = dom w !! id.
Proof. intros. apply showLoading_frame. solve_notin. Qed.

Lemma hideLoading_lookup b s w id :
  id <> b -> id <> s -> dom (snd (UI.hideLoading b s w)) !! id = dom w !! id.
Proof. intros. apply hideLoading_frame. solve_notin. Qed.

Lemma updateStats_lookup a s w id :
  id <> s -> dom (snd (UI.updateStats a s w)) !! id = dom w !! id.
Proof. intros. apply updateStats_frame. solve_notin. Qed.

Lemma updateOutputButtons_lookup h w id :
  id <> "copyOutput" -> id <> "downloadOutput" ->
  dom (snd (UI.updateOutputButtons h w)) !! id = dom w !! id.
Proof. intros. apply updateOutputButtons_frame. solve_notin. Qed.

(** Resolve lookups through the helpers that leave the element alone. *)
Ltac wlookups :=
  repeat first
    [ rewrite lookup_insert_eq
    | rewrite lookup_insert_ne by done
    | rewrite showStatus_lookup by done
    | rewrite showLoading_lookup by done
    | rewrite hideLoading_lookup by done
    | rewrite updateStats_lookup by done
    | rewrite updateOutputButtons_lookup by done
    | progress cbn [dom with_dom with_timers with_app with_requests]
    | match goal with
      | H : dom ?w !! ?id = _ |- context [dom ?w !! ?id] => rewrite H
      end ].

Ltac wlk := wlookups; first [reflexivity | eassumption].

Section Handlers.

Variable net : Request -> API.FetchOutcome.

Lemma translate_body_keeps text o s t m :
  preserves keeps (App.translate_body net text o s t m).
Proof.
  unfold App.translate_body, API.translate, App.set_currentOutputText. pres.
Qed.

Lemma summarize_body_keeps text l f o m :
  preserves keeps (App.summarize_body net text l f o m).
Proof.
  unfold App.summarize_body, API.summarize, App.set_currentOutputText. pres.
Qed.

Lemma handleTranslate_keeps : preserves keeps (App.handleTranslate net).
Proof.
  unfold App.handleTranslate. pres; apply translate_body_keeps.
Qed.

Lemma handleSummarize_keeps : preserves keeps (App.handleSummarize net).
Proof.
  unfold App.handleSummarize. pres; apply summarize_body_keeps.
Qed.

End Handlers.

(** ** C3: the loading state is always cleared *)

Section Settles.

Lemma settles_ret {A} (a : A) : settles (ret a).
Proof. by intros w. Qed.

Lemma settles_throw {A} e : settles (@throw A e).
Proof. by intros w. Qed.

Lemma settles_normal {A} (m : M A) :
  (forall w, exists a, fst (m w) = Normal a) -> settles m.
Proof. intros H w. destruct (H w) as [a ->]. done. Qed.

Lemma settles_bind {A B} (m : M A) (k : A -> M B) :
  settles m -> (forall a, settles (k a)) -> settles (bind m k).
Proof.
  intros Hm Hk w. unfold bind. specialize (Hm w).
  destruct (m w) as [[a|e|] w']; cbn [fst] in *; [apply Hk | done | done].
Qed.

Lemma settles_try_catch {A} (body : M A) handler :
  settles body -> (forall e, settles (handler e)) ->
  settles (try_catch body handler).
Proof.
  intros Hb Hh w. unfold try_catch. specialize (Hb w).
  destruct (body w) as [[a|e|] w']; cbn [fst] in *; [done | apply Hh | done].
Qed.

Lemma settles_try_finally {A} (body : M A) fin :
  settles body -> settles fin -> settles (try_finally body fin).
Proof.
  intros Hb Hf w. unfold try_finally. specialize (Hb w).
  destruct (body w) as [[a|e|] w']; cbn [fst] in *; [| |done];
    specialize (Hf w'); by destruct (fin w') as [[[]|e'|] w''].
Qed.

Lemma settles_getElementById id : settles (getElementById id).
Proof. by intros w. Qed.

Lemma settles_read {A} r (f : Element -> A) : settles (read r f).
Proof.
  intros w. unfold read. destruct r as [id|]; [|done].
  by destruct (dom w !! id).
Qed.

Lemma settles_write r f : settles (write r f).
Proof.
  intros w. unfold write. destruct r as [id|]; [|done].
  by destruct (dom w !! id).
Qed.

Lemma settles_get_prop v k : settles (get_prop v k).
Proof. intros w. unfold get_prop. by destruct (prop v (lit k)). Qed.

Lemma settles_modify f : settles (modify f).
Proof. by intros w. Qed.

Lemma settles_showStatus msg ty d : settles (UI.showStatus msg ty d).
Proof. apply settles_normal. intros w. exists tt. apply showStatus_normal. Qed.

Lemma settles_updateStats a s : settles (UI.updateStats a s).
Proof. apply settles_normal. intros w. exists tt. apply updateStats_normal. Qed.

Lemma settles_updateOutputButtons h : settles (UI.updateOutputButtons h).
Proof.
  apply settles_normal. intros w. exists tt. apply updateOutputButtons_normal.
Qed.

Variable net : Request -> API.FetchOutcome.

Hypothesis Hnet : responsive net.

Lemma settles_post endpoint data : settles (API.post net endpoint data).
Proof.
  intros w. rewrite post_unfold. cbn [fst].
  destruct (Hnet (post_request endpoint data)) as [H1 H2].
  by destruct (net _) as [e| |[e| |v]].
Qed.

End Settles.

(** One step of a proof that a computation comes to an end. *)
Ltac settle_step :=
  lazymatch goal with
  | |- settles (bind _ _) => apply settles_bind; [| intros ?]
  | |- settles (ret _) => apply settles_ret
  | |- settles (throw _) => apply settles_throw
  | |- settles (try_catch _ _) => apply settles_try_catch; [| intros ?]
  | |- settles (try_finally _ _) => apply settles_try_finally
  | |- settles (getElementById _) => apply settles_getElementById
  | |- settles (read _ _) => apply settles_read
  | |- settles (write _ _) => apply settles_write
  | |- settles (get_prop _ _) => apply settles_get_prop
  | |- settles (modify _) => apply settles_modify
  | |- settles (UI.showStatus _ _ _) => apply settles_showStatus
  | |- settles (UI.updateStats _ _) => apply settles_updateStats
  | |- settles (UI.updateOutputButtons _) => apply settles_updateOutputButtons
  | |- settles (API.post _ _ _) => by apply settles_post
  | |- settles (if ?b then _ else _) => destruct b
  | |- settles (match ?x with _ => _ end) => destruct x
  end.

Ltac settle := repeat settle_step.

Section LoadingCleared.

Variable net : Request -> API.FetchOutcome.

(** A [try]/[catch]/[finally] whose handler only shows a status and whose
    [finally] block hides the loading state ends normally and idle,
    whatever the body does, unless the body never settles. *)
Lemma try_finally_hideLoading (body : M unit) (handler : JSError -> M unit)
  buttonId spinnerId w :
  buttonId <> spinnerId ->
  preserves keeps body ->
  (forall e, preserves keeps (handler e)) ->
  (forall e w', fst (handler e w') = Normal tt) ->
  is_Some (dom w !! buttonId) ->
  is_Some (dom w !! spinnerId) ->
  let r := try_finally (try_catch body handler)
             (UI.hideLoading buttonId spinnerId) w in
  fst r <> Pending ->
  fst r = Normal tt /\ idle buttonId spinnerId (snd r).
Proof.
  intros Hne Hbody Hhandler Hnormal Hb Hs r. subst r.
  unfold try_finally, try_catch.
  pose proof (Hbody w) as Hk.
  destruct (body w) as [[[]|e|] w1] eqn:Ebody; cbn [snd] in Hk.
  - destruct (Hk _ Hb) as [button Hb1]. destruct (Hk _ Hs) as [spinner Hs1].
    pose proof (hideLoading_normal buttonId spinnerId w1 button Hb1) as Hn.
    pose proof (hideLoading_idle buttonId spinnerId Hne w1 button spinner Hb1 Hs1)
      as Hi.
    destruct (UI.hideLoading buttonId spinnerId w1) as [r w2].
    simpl in *. subst r. done.
  - pose proof (Hhandler e w1) as Hk2. pose proof (Hnormal e w1) as Hn2.
    destruct (handler e w1) as [r2 w2]. simpl in *. subst r2.
    destruct (Hk2 _ (Hk _ Hb)) as [button Hb1].
    destruct (Hk2 _ (Hk _ Hs)) as [spinner Hs1].
    pose proof (hideLoading_normal buttonId spinnerId w2 button Hb1) as Hn.
    pose proof (hideLoading_idle buttonId spinnerId Hne w2 button spinner Hb1 Hs1)
      as Hi.
    destruct (UI.hideLoading buttonId spinnerId w2) as [r w3].
    simpl in *. subst r. done.
  - done.
Qed.

Lemma after_showLoading_keeps b s msg w : keeps w (after_showLoading b s msg w).
Proof.
  unfold after_showLoading. etransitivity; [apply showLoading_keeps|].
  apply showStatus_keeps.
Qed.

(** [handleTranslate] on a page that has the text areas and the button,
    with an input that is not blank: up to the [try] statement. *)
Lemma handleTranslate_unfold w input :
  dom w !! "inputText" = Some input ->
  is_Some (dom w !! "outputText") ->
  is_Some (dom w !! "translateBtn") ->
  ~ blank (value input) ->
  App.handleTranslate net w
  = try_finally
      (try_catch
         (App.translate_body net (trim (value input)) (Some "outputText")
            (ref_of "sourceLanguage" w) (ref_of "targetLanguage" w)
            (ref_of "translationModel" w))
         (fun error =>
            UI.showStatus (lit "An error occurred during translation")
              UI.TError UI.default_duration))
      (UI.hideLoading "translateBtn" "translateSpinner")
      (after_showLoading "translateBtn" "translateSpinner"
         (lit "Translating...") w).
Proof.
  intros Hi [output Ho] [button Hb] Hnb. unfold App.handleTranslate. run.
  assert (Hne : nonempty (trim (trim (value input))) = true).
  { rewrite trim_idemp. rewrite <- nonempty_trim_blank in Hnb.
    by destruct (nonempty (trim (value input))). }
  rewrite (bind_eq _ _ _ _ _ (validateInput_valid _ 1 w Hne ltac:(
    destruct (trim (trim (value input))); [done | simpl; lia]))).
  cbn [negb].
  rewrite (bind_normal _ _ _ tt) by (by eapply showLoading_normal).
  rewrite (bind_normal _ _ _ tt) by apply showStatus_normal.
  reflexivity.
Qed.

(** [handleSummarize] on a page that has the text areas and the button,
    with a chosen text of 50 characters or more once trimmed: up to the
    [try] statement. *)
Lemma handleSummarize_unfold w text :
  is_Some (dom w !! "inputText") ->
  is_Some (dom w !! "outputText") ->
  is_Some (dom w !! "summarizeBtn") ->
  chosen_text w = Some text ->
  (50 <= length (trim text))%nat ->
  App.handleSummarize net w
  = try_finally
      (try_catch
         (App.summarize_body net (trim text)
            (UI.radio_or (radios w !! "summaryLength") (lit "short"))
            (UI.radio_or (radios w !! "summaryFormat") (lit "paragraph"))
            (Some "outputText") (ref_of "summaryModel" w))
         (fun error =>
            UI.showStatus (lit "An error occurred during summarization")
              UI.TError UI.default_duration))
      (UI.hideLoading "summarizeBtn" "summarizeSpinner")
      (after_showLoading "summarizeBtn" "summarizeSpinner"
         (lit "Summarizing...") w).
Proof.
  intros [input Hi] [output Ho] [button Hb] Hc Hlen.
  unfold App.handleSummarize. run.
  assert (Hvalid : UI.validateInput (trim text) 50 w = (Normal true, w)).
  { apply validateInput_valid; rewrite trim_idemp.
    - destruct (trim text); [simpl in Hlen; lia | done].
    - lia. }
  unfold chosen_text, summary_source in Hc.
  destruct (Str.eqb _ (lit "translated")).
  - rewrite Ho in Hc. injection Hc as <-. run.
    rewrite (bind_eq _ _ _ _ _ Hvalid). cbn [negb]. run.
    rewrite (bind_normal _ _ _ tt) by (by eapply showLoading_normal).
    rewrite (bind_normal _ _ _ tt) by apply showStatus_normal.
    reflexivity.
  - rewrite Hi in Hc. injection Hc as <-. run.
    rewrite (bind_eq _ _ _ _ _ Hvalid). cbn [negb]. run.
    rewrite (bind_normal _ _ _ tt) by (by eapply showLoading_normal).
    rewrite (bind_normal _ _ _ tt) by apply showStatus_normal.
    reflexivity.
Qed.

Lemma translate_body_settles text o src tgt m :
  responsive net -> settles (App.translate_body net text o src tgt m).
Proof.
  intros Hnet.
  unfold App.translate_body, API.translate, App.set_currentOutputText. settle.
Qed.

Lemma summarize_body_settles text l f o m :
  responsive net -> settles (App.summarize_body net text l f o m).
Proof.
  intros Hnet.
  unfold App.summarize_body, API.summarize, App.set_currentOutputText. settle.
Qed.

(** The [try] statement of a handler comes to an end when its body and its
    handler do. *)
Lemma try_statement_settles (body : M unit) (handler : JSError -> M unit) b s :
  settles body -> (forall e, settles (handler e)) ->
  settles (try_finally (try_catch body handler) (UI.hideLoading b s)).
Proof.
  intros Hb Hh. apply settles_try_finally.
  - by apply settles_try_catch.
  - intros w. destruct (dom w !! b) as [button|] eqn:E.
    + by rewrite (hideLoading_normal b s w button E).
    + by rewrite hideLoading_no_button.
Qed.

(** C3. When the backend settles every request, every translate or
    summarize action that enters the loading state (the page has the text
    areas, the button and its spinner, and the text passes validation)
    comes to an end, and whether the request succeeds, the backend reports
    a failure or an exception is thrown, it ends normally with the loading
    state cleared: the button enabled, the spinner still. *)
Theorem loading_always_cleared (w : World) :
  responsive net ->
  (forall input,
     dom w !! "inputText" = Some input ->
     is_Some (dom w !! "outputText") ->
     is_Some (dom w !! "translateBtn") ->
     is_Some (dom w !! "translateSpinner") ->
     ~ blank (value input) ->
     fst (App.handleTranslate net w) = Normal tt /\
     idle "translateBtn" "translateSpinner" (snd (App.handleTranslate net w))) /\
  (forall text,
     is_Some (dom w !! "inputText") ->
     is_Some (dom w !! "outputText") ->
     is_Some (dom w !! "summarizeBtn") ->
     is_Some (dom w !! "summarizeSpinner") ->
     chosen_text w = Some text ->
     (50 <= length (trim text))%nat ->
     fst (App.handleSummarize net w) = Normal tt /\
     idle "summarizeBtn" "summarizeSpinner" (snd (App.handleSummarize net w))).
Proof.
  intros Hnet. split.
  - intros input Hi Ho Hb Hs Hnb.
    rewrite (handleTranslate_unfold w input Hi Ho Hb Hnb).
    apply try_finally_hideLoading; try done.
    + apply translate_body_keeps.
    + intros e. apply showStatus_keeps.
    + intros e w'. apply showStatus_normal.
    + by apply after_showLoading_keeps.
    + by apply after_showLoading_keeps.
    + apply try_statement_settles;
        [by apply translate_body_settles | intros e; apply settles_showStatus].
  - intros text Hi Ho Hb Hs Hc Hlen.
    rewrite (handleSummarize_unfold w text Hi Ho Hb Hc Hlen).
    apply try_finally_hideLoading; try done.
    + apply summarize_body_keeps.
    + intros e. apply showStatus_keeps.
    + intros e w'. apply showStatus_normal.
    + by apply after_showLoading_keeps.
    + by apply after_showLoading_keeps.
    + apply try_statement_settles;
        [by apply summarize_body_settles | intros e; apply settles_showStatus].
Qed.

End LoadingCleared.

(** ** C4: what a translate response does to the output *)

Lemma updateStats_lookup_stats a s w area :
  dom w !! a = Some area ->
  dom (snd (UI.updateStats a s w)) !! s
  = with_textContent
      (UI.stats_text (length (value area)) (UI.wordCount (value area)))
    <$> dom w !! s.
Proof.
  intros Ha. destruct (dom w !! s) as [stats|] eqn:Hs.
  - rewrite (updateStats_present _ _ _ _ _ Ha Hs). simpl.
    by rewrite lookup_insert_eq.
  - rewrite updateStats_absent by auto. simpl. by rewrite Hs.
Qed.

Lemma prop_total v k k' x : prop v k = Some x -> is_Some (prop v k').
Proof. destruct v; simpl; try done; eauto. Qed.

Lemma try_finally_normal {A} (body : M A) fin w a :
  fst (body w) = Normal a ->
  fst (fin (snd (body w))) = Normal tt ->
  try_finally body fin w = (Normal a, snd (fin (snd (body w)))).
Proof.
  unfold try_finally. destruct (body w) as [r w1]. simpl. intros ->.
  destruct (fin w1) as [r2 w2]. simpl. by intros ->.
Qed.

(** Run a computation through the helpers that always end normally. *)
Ltac wrun_step :=
  first
    [ rewrite bind_bind
    | rewrite bind_getElementById
    | rewrite bind_ret
    | rewrite bind_throw_now
    | rewrite bind_modify
    | rewrite bind_setTimeout
    | rewrite bind_getRadioValue
    | rewrite bind_read_null
    | erewrite bind_write by wlk
    | erewrite bind_read by wlk
    | erewrite write_some by wlk
    | erewrite read_some by wlk
    | rewrite (bind_normal (UI.showStatus _ _ _) _ _ tt)
        by apply showStatus_normal
    | rewrite (bind_normal (UI.updateStats _ _) _ _ tt)
        by apply updateStats_normal
    | rewrite (bind_normal (UI.updateOutputButtons _) _ _ tt)
        by apply updateOutputButtons_normal
    | progress
        cbn [ret throw modify is_null negb orb andb fst snd dom with_dom
             with_timers with_app with_requests setTimeout radios app
             requests timers] ].

Ltac wrun := repeat wrun_step.

Lemma showStatus_pair msg ty d w :
  UI.showStatus msg ty d w = (Normal tt, snd (UI.showStatus msg ty d w)).
Proof. rewrite <- (showStatus_normal msg ty d w). apply surjective_pairing. Qed.

Lemma hideLoading_pair b s w button :
  dom w !! b = Some button ->
  UI.hideLoading b s w = (Normal tt, snd (UI.hideLoading b s w)).
Proof.
  intros H. rewrite <- (hideLoading_normal b s w button H).
  apply surjective_pairing.
Qed.

Lemma not_blank_nonempty s : nonempty (trim s) = true -> ~ blank s.
Proof. intros H Hb. apply nonempty_trim_blank in Hb. congruence. Qed.

Lemma showStatus_app msg ty d w : app (snd (UI.showStatus msg ty d w)) = app w.
Proof. apply showStatus_same_app. Qed.

Lemma showLoading_app b s w : app (snd (UI.showLoading b s w)) = app w.
Proof. apply showLoading_same_app. Qed.

Lemma hideLoading_app b s w : app (snd (UI.hideLoading b s w)) = app w.
Proof. apply hideLoading_same_app. Qed.

Lemma updateStats_app a s w : app (snd (UI.updateStats a s w)) = app w.
Proof. apply updateStats_same_app. Qed.

Lemma updateOutputButtons_app h w :
  app (snd (UI.updateOutputButtons h w)) = app w.
Proof. apply updateOutputButtons_same_app. Qed.

(** Read [App.state] through the helpers, which leave it alone. *)
Ltac wapp :=
  repeat first
    [ rewrite showStatus_app
    | rewrite showLoading_app
    | rewrite hideLoading_app
    | rewrite updateStats_app
    | rewrite updateOutputButtons_app
    | progress cbn [app with_dom with_timers with_app with_requests
                    currentOutputText currentInputText languages] ].

Section TranslateResponse.

Variables (net : Request -> API.FetchOutcome) (response : JSValue).

Hypothesis Hnet : answers net response.

Lemma post_answers endpoint data w :
  API.post net endpoint data w
  = (Normal response,
     with_requests (requests w ++ [post_request endpoint data]) w).
Proof. by rewrite post_unfold, Hnet. Qed.

Variables (w : World) (input output : Element).

Hypothesis Hinput : dom w !! "inputText" = Some input.
Hypothesis Houtput : dom w !! "outputText" = Some output.
Hypothesis Hbutton : is_Some (dom w !! "translateBtn").
Hypothesis Hsource : is_Some (dom w !! "sourceLanguage").
Hypothesis Htarget : is_Some (dom w !! "targetLanguage").
Hypothesis Hmodel : is_Some (dom w !! "translationModel").
Hypothesis Hvalid : ~ blank (value input).

(** The run of [handleTranslate] on a success response. *)
Lemma handleTranslate_success s :
  success_response response ->
  prop response (lit "translated_text") = Some (JStr s) ->
  exists w',
    App.handleTranslate net w = (Normal tt, w') /\
    dom w' !! "outputText" = Some (with_value s output) /\
    dom w' !! "outputStats"
    = with_textContent (UI.stats_text (length s) (UI.wordCount s))
      <$> dom w !! "outputStats" /\
    dom w' !! "copyOutput" = with_disabled false <$> dom w !! "copyOutput" /\
    dom w' !! "downloadOutput"
    = with_disabled false <$> dom w !! "downloadOutput" /\
    currentOutputText (app w') = JStr s.
Proof.
  intros (success & Hs & Ht) Htext.
  destruct Hbutton as [button Hb], Hsource as [source Hsrc],
    Htarget as [target Htg], Hmodel as [model Hm].
  destruct (prop_total _ _ (lit "processing_time") _ Hs) as [time Htime].
  destruct (showLoading_keeps "translateBtn" "translateSpinner" w "translateBtn"
              (ex_intro _ _ Hb)) as [button' Hb'].
  eexists. split.
  - rewrite (handleTranslate_unfold net w input Hinput) by eauto.
    unfold after_showLoading, try_finally, try_catch, App.translate_body,
      API.translate.
    lookups. wrun.
    rewrite (bind_eq _ _ _ _ _ (post_answers _ _ _)).
    rewrite (get_prop_some _ _ _ Hs). wrun. rewrite Ht.
    rewrite !(get_prop_some _ _ _ Htext). wrun.
    unfold App.set_currentOutputText. wrun.
    rewrite (get_prop_some _ _ _ Htime). wrun.
    rewrite showStatus_pair.
    erewrite hideLoading_pair by wlk.
    reflexivity.
  - split_and!.
    + by wlk.
    + wlookups. erewrite updateStats_lookup_stats by wlk. by wlk.
    + wlookups. rewrite updateOutputButtons_copy. by wlk.
    + wlookups. rewrite updateOutputButtons_download. by wlk.
    + by wapp.
Qed.

(** The run of [handleTranslate] on a failure response. *)
Lemma handleTranslate_failure :
  failure_response response ->
  exists w',
    App.handleTranslate net w = (Normal tt, w') /\
    dom w' !! "outputText" = Some (with_value [] output) /\
    dom w' !! "copyOutput" = dom w !! "copyOutput" /\
    dom w' !! "downloadOutput" = dom w !! "downloadOutput" /\
    app w' = app w.
Proof.
  intros (success & Hs & Ht).
  destruct Hbutton as [button Hb], Hsource as [source Hsrc],
    Htarget as [target Htg], Hmodel as [model Hm].
  destruct (prop_total _ _ (lit "error") _ Hs) as [error Herror].
  destruct (showLoading_keeps "translateBtn" "translateSpinner" w "translateBtn"
              (ex_intro _ _ Hb)) as [button' Hb'].
  eexists. split.
  - rewrite (handleTranslate_unfold net w input Hinput) by eauto.
    unfold after_showLoading, try_finally, try_catch, App.translate_body,
      API.translate.
    lookups. wrun.
    rewrite (bind_eq _ _ _ _ _ (post_answers _ _ _)).
    rewrite (get_prop_some _ _ _ Hs). wrun. rewrite Ht. wrun.
    rewrite (get_prop_some _ _ _ Herror). wrun.
    rewrite showStatus_pair.
    erewrite hideLoading_pair by wlk.
    reflexivity.
  - split_and!; [by wlk | by wlk | by wlk | by wapp].
Qed.

(** C4. For every translate response: on success the output area holds
    the returned translated text and the output stats show its character
    and word counts (for a text without carriage return: a text area gives
    back any other text with its line breaks rewritten), and the copy and
    download buttons are enabled; on a failure response the output area is
    emptied and the copy and download buttons stay enabled or disabled as
    they were. *)
Theorem translate_response_effects :
  let w' := snd (App.handleTranslate net w) in
  (forall s,
     success_response response ->
     prop response (lit "translated_text") = Some (JStr s) ->
     (no_cr s -> value <$> dom w' !! "outputText" = Some s) /\
     (no_cr s -> is_Some (dom w !! "outputStats") ->
      textContent <$> dom w' !! "outputStats"
      = Some (lit "Characters: " ++ dec (Z.of_nat (length s))
              ++ lit " | Words: " ++ dec (Z.of_nat (token_count (trim s))))) /\
     (is_Some (dom w !! "copyOutput") ->
      disabled <$> dom w' !! "copyOutput" = Some false) /\
     (is_Some (dom w !! "downloadOutput") ->
      disabled <$> dom w' !! "downloadOutput" = Some false)) /\
  (failure_response response ->
   value <$> dom w' !! "outputText" = Some [] /\
   disabled <$> dom w' !! "copyOutput" = disabled <$> dom w !! "copyOutput" /\
   disabled <$> dom w' !! "downloadOutput"
   = disabled <$> dom w !! "downloadOutput").
Proof.
  intros w'. subst w'. split.
  - intros s Hsucc Htext.
    destruct (handleTranslate_success s Hsucc Htext)
      as (w' & -> & Ho & Hst & Hc & Hd & _).
    cbn [snd]. rewrite Ho, Hst, Hc, Hd. split_and!.
    + done.
    + intros _ [stats ->]. cbn. unfold UI.stats_text.
      by rewrite wordCount_tokens.
    + by intros [e ->].
    + by intros [e ->].
  - intros Hfail.
    destruct (handleTranslate_failure Hfail) as (w' & -> & Ho & Hc & Hd & _).
    cbn [snd]. by rewrite Ho, Hc, Hd.
Qed.

End TranslateResponse.

Lemma translate_response_effects_witness :
  let ok :=
    JObj [ (lit "success", JBool true);
           (lit "translated_text", JStr (lit "Hola mundo"));
           (lit "processing_time", JNum (lit "0.5")) ] in
  let ko :=
    JObj [ (lit "success", JBool false); (lit "error", JStr (lit "No model")) ] in
  let w := Sample.page (lit "Hello world") (lit "old") in
  let w1 := snd (App.handleTranslate (Sample.answering ok) w) in
  let w2 := snd (App.handleTranslate (Sample.answering ko) w) in
  value <$> dom w1 !! "outputText" = Some (lit "Hola mundo") /\
  textContent <$> dom w1 !! "outputStats"
  = Some (lit "Characters: 10 | Words: 2") /\
  disabled <$> dom w1 !! "copyOutput" = Some false /\
  disabled <$> dom w1 !! "downloadOutput" = Some false /\
  value <$> dom w2 !! "outputText" = Some [] /\
  disabled <$> dom w2 !! "copyOutput" = Some true /\
  disabled <$> dom w2 !! "downloadOutput" = Some true.
Proof.
  intros ok ko w w1 w2.
  assert (Hnb : ~ blank (lit "Hello world")) by (by apply not_blank_nonempty).
  destruct (translate_response_effects (Sample.answering ok) ok
              (fun _ => eq_refl) w
              (with_value (lit "Hello world") Sample.element)
              (with_value (lit "old") Sample.element)
              eq_refl eq_refl ltac:(by eexists) ltac:(by eexists)
              ltac:(by eexists) ltac:(by eexists) Hnb)
    as [Hok _].
  destruct (Hok (lit "Hola mundo")) as (H1 & H2 & H3 & H4);
    [exists (JBool true); split; vm_compute; reflexivity | reflexivity |].
  destruct (translate_response_effects (Sample.answering ko) ko
              (fun _ => eq_refl) w
              (with_value (lit "Hello world") Sample.element)
              (with_value (lit "old") Sample.element)
              eq_refl eq_refl ltac:(by eexists) ltac:(by eexists)
              ltac:(by eexists) ltac:(by eexists) Hnb)
    as [_ Hko].
  destruct Hko as (H5 & H6 & H7);
    [exists (JBool false); split; vm_compute; reflexivity|].
  assert (Hcr : no_cr (lit "Hola mundo"))
    by (apply (bool_decide_unpack _); vm_compute; exact I).
  subst w1 w2. split_and!.
  - exact (H1 Hcr).
  - rewrite (H2 Hcr) by (by eexists). reflexivity.
  - apply H3. by eexists.
  - apply H4. by eexists.
  - exact H5.
  - rewrite H6. reflexivity.
  - rewrite H7. reflexivity.
Defined.

(** ** C10: what a failure response leaves alone *)

Section FailureResponse.

Variables (net : Request -> API.FetchOutcome) (response : JSValue).

Hypothesis Hnet : answers net response.
Hypothesis Hfail : failure_response response.

Lemma pres_bind_ret (R : relation World) {A B} (a : A) (k : A -> M B) :
  preserves R (k a) -> preserves R (bind (ret a) k).
Proof. intros H w. apply H. Qed.

Lemma pres_bind_post (R : relation World) `{!PreOrder R} {B} endpoint data
  (k : JSValue -> M B) :
  (forall w r, R w (with_requests r w)) ->
  preserves R (k response) ->
  preserves R (bind (API.post net endpoint data) k).
Proof.
  intros Hreq Hk w. rewrite (bind_eq _ _ _ _ _ (post_answers net response Hnet _ _ _)).
  etransitivity; [apply Hreq | apply Hk].
Qed.

(** On a failure response the [try] block of [handleSummarize] touches
    nothing but the status banner. *)
Lemma summarize_body_failure_frame text l f o m :
  preserves (frame ["statusBar"; "statusMessage"])
    (App.summarize_body net text l f o m).
Proof.
  destruct Hfail as (success & Hs & Ht).
  unfold App.summarize_body, API.summarize.
  apply (pres_bind (frame _)); [pres | intros model].
  apply (pres_bind_post (frame _)); [by intros w r id _|].
  rewrite (get_prop_some _ _ _ Hs). apply pres_bind_ret. rewrite Ht. pres.
Qed.

Lemma summarize_body_failure_app text l f o m :
  preserves same_app (App.summarize_body net text l f o m).
Proof.
  destruct Hfail as (success & Hs & Ht).
  unfold App.summarize_body, API.summarize.
  apply (pres_bind same_app); [pres | intros model].
  apply (pres_bind_post same_app); [done|].
  rewrite (get_prop_some _ _ _ Hs). apply pres_bind_ret. rewrite Ht. pres.
Qed.

Lemma translate_body_failure_app text o s t m :
  preserves same_app (App.translate_body net text o s t m).
Proof.
  destruct Hfail as (success & Hs & Ht).
  unfold App.translate_body, API.translate.
  do 3 (apply (pres_bind same_app); [pres | intros ?]).
  apply (pres_bind_post same_app); [done|].
  rewrite (get_prop_some _ _ _ Hs). apply pres_bind_ret. rewrite Ht. pres.
Qed.

Lemma handleSummarize_failure_frame :
  preserves
    (frame ["statusBar"; "statusMessage"; "summarizeBtn"; "summarizeSpinner"])
    (App.handleSummarize net).
Proof.
  unfold App.handleSummarize. pres;
    (eapply frame_weaken; [|apply summarize_body_failure_frame]);
    intros id; rewrite !elem_of_cons; tauto.
Qed.

Lemma handleSummarize_failure_app : preserves same_app (App.handleSummarize net).
Proof.
  unfold App.handleSummarize. pres; apply summarize_body_failure_app.
Qed.

Lemma handleTranslate_failure_app : preserves same_app (App.handleTranslate net).
Proof.
  unfold App.handleTranslate. pres; apply translate_body_failure_app.
Qed.

(** C10. When the backend answers with a failure response, a summarize
    action leaves the output area as it was (it does not empty it, as a
    translate action does), and both a summarize and a translate action
    leave [currentOutputText] of the session state as it was. *)
Theorem failure_keeps_output (w : World) :
  dom (snd (App.handleSummarize net w)) !! "outputText" = dom w !! "outputText" /\
  currentOutputText (app (snd (App.handleSummarize net w)))
  = currentOutputText (app w) /\
  currentOutputText (app (snd (App.handleTranslate net w)))
  = currentOutputText (app w).
Proof.
  split_and!.
  - apply handleSummarize_failure_frame. solve_notin.
  - by rewrite handleSummarize_failure_app.
  - by rewrite handleTranslate_failure_app.
Qed.

End FailureResponse.

Lemma failure_keeps_output_witness :
  let w := Sample.page Sample.long_text (lit "old") in
  let net := Sample.answering Sample.failed in
  length (requests (snd (App.handleSummarize net w))) = 1%nat /\
  value <$> dom (snd (App.handleSummarize net w)) !! "outputText"
  = Some (lit "old") /\
  currentOutputText (app (snd (App.handleSummarize net w))) = JStr [] /\
  currentOutputText (app (snd (App.handleTranslate net w))) = JStr [].
Proof.
  intros w net.
  assert (Hfail : failure_response Sample.failed)
    by (exists (JBool false); split; vm_compute; reflexivity).
  destruct (failure_keeps_output net Sample.failed (fun _ => eq_refl) Hfail w)
    as (H1 & H2 & H3).
  split; [eval_now|].
  rewrite H1, H2, H3. split_and!; eval_now.
Defined.

(** ** C5: summarizing a translation that does not pass validation *)

Section SummarizeTranslated.

Variable net : Request -> API.FetchOutcome.

Lemma showStatus_requests msg ty d w :
  requests (snd (UI.showStatus msg ty d w)) = requests w.
Proof. apply showStatus_same_requests. Qed.

(** The run of [handleSummarize] when the source is the translated text
    and [validateInput] refuses it. *)
Lemma summarize_refused_run w output :
  is_Some (dom w !! "inputText") ->
  dom w !! "outputText" = Some output ->
  summary_source w = lit "translated" ->
  fst (UI.validateInput (trim (value output)) 50 w) = Normal false ->
  App.handleSummarize net w
  = (Normal tt,
     snd (UI.showStatus translate_first UI.TError UI.default_duration
            (snd (UI.validateInput (trim (value output)) 50 w)))).
Proof.
  intros [input Hi] Ho Hsrc Hv. unfold App.handleSummarize. run.
  unfold summary_source in Hsrc. rewrite Hsrc.
  change (Str.eqb (lit "translated") (lit "translated")) with true.
  run. rewrite (bind_normal (UI.validateInput _ _) _ _ false Hv). cbn [negb].
  run. rewrite (bind_normal _ _ _ tt) by apply showStatus_normal.
  reflexivity.
Qed.

Lemma summarize_refused_shows w output :
  is_Some (dom w !! "inputText") ->
  dom w !! "outputText" = Some output ->
  summary_source w = lit "translated" ->
  fst (UI.validateInput (trim (value output)) 50 w) = Normal false ->
  is_Some (dom w !! "statusBar") -> is_Some (dom w !! "statusMessage") ->
  shows translate_first UI.TError (snd (App.handleSummarize net w)).
Proof.
  intros Hi Ho Hsrc Hv Hb Hm.
  rewrite (summarize_refused_run w output Hi Ho Hsrc Hv).
  cbn [snd].
  destruct (validateInput_keeps (trim (value output)) 50 w _ Hb) as [bar Hb'].
  destruct (validateInput_keeps (trim (value output)) 50 w _ Hm) as [msg Hm'].
  by eapply showStatus_shows.
Qed.

(** C5, as amended. When the summarize action is triggered with the
    source radio set to "translated" and validation of the output text
    fails, whether the output is empty, blank or shorter than 50
    characters, the status shown is 'Please translate text first or select
    "Original Text"' and no request is issued. *)
Theorem summarize_translated_invalid (w : World) (output : Element) :
  is_Some (dom w !! "inputText") ->
  dom w !! "outputText" = Some output ->
  summary_source w = lit "translated" ->
  fst (UI.validateInput (trim (value output)) 50 w) = Normal false ->
  fst (App.handleSummarize net w) = Normal tt /\
  requests (snd (App.handleSummarize net w)) = requests w /\
  (is_Some (dom w !! "statusBar") -> is_Some (dom w !! "statusMessage") ->
   shows translate_first UI.TError (snd (App.handleSummarize net w))) /\
  translate_first
  = lit "Please translate text first or select " ++ [34%N]
    ++ lit "Original Text" ++ [34%N].
Proof.
  intros Hi Ho Hsrc Hv. split_and!; [| | | done].
  - by rewrite (summarize_refused_run w output Hi Ho Hsrc Hv).
  - rewrite (summarize_refused_run w output Hi Ho Hsrc Hv).
    cbn [snd]. rewrite showStatus_requests. apply validateInput_same_requests.
  - by apply (summarize_refused_shows w output).
Qed.

End SummarizeTranslated.

Lemma summarize_translated_invalid_witness :
  let w := Sample.with_radio "summarySource" (lit "translated")
             (Sample.page Sample.long_text []) in
  fst (App.handleSummarize Sample.offline w) = Normal tt /\
  requests (snd (App.handleSummarize Sample.offline w)) = [] /\
  shows translate_first UI.TError (snd (App.handleSummarize Sample.offline w)).
Proof.
  intros w.
  destruct (summarize_translated_invalid Sample.offline w
              (with_value [] Sample.element))
    as (H1 & H2 & H3 & _); [eval_some | eval_now | eval_now | eval_now |].
  split_and!; [exact H1 | exact H2 | apply H3; eval_some].
Defined.

(** C5, as claimed, fails: the message is not reserved for an empty
    output. With the translation "Hola" in the output area, which is
    shorter than 50 characters, validation fails and the same message
    is shown. *)
Lemma summarize_translated_counterexample :
  ~ (forall net w output,
       is_Some (dom w !! "inputText") ->
       dom w !! "outputText" = Some output ->
       summary_source w = lit "translated" ->
       fst (UI.validateInput (trim (value output)) 50 w) = Normal false ->
       (shows translate_first UI.TError (snd (App.handleSummarize net w))
        <-> value output = [])).
Proof.
  intros H.
  pose (w := Sample.with_radio "summarySource" (lit "translated")
               (Sample.page Sample.long_text (lit "Hola"))).
  pose (output := with_value (lit "Hola") Sample.element).
  assert (Hi : is_Some (dom w !! "inputText")) by eval_some.
  assert (Ho : dom w !! "outputText" = Some output) by eval_now.
  assert (Hsrc : summary_source w = lit "translated") by eval_now.
  assert (Hv : fst (UI.validateInput (trim (value output)) 50 w) = Normal false)
    by eval_now.
  assert (Hb : is_Some (dom w !! "statusBar")) by eval_some.
  assert (Hm : is_Some (dom w !! "statusMessage")) by eval_some.
  pose proof (summarize_refused_shows Sample.offline w output
                Hi Ho Hsrc Hv Hb Hm) as Hshown.
  apply (H Sample.offline w output Hi Ho Hsrc Hv) in Hshown.
  vm_compute in Hshown. discriminate Hshown.
Qed.

Lemma loading_always_cleared_witness :
  let w := Demo.busy (Sample.page Sample.long_text []) in
  (* the page starts with both buttons left disabled *)
  ~ idle "translateBtn" "translateSpinner" w /\
  (* a domain failure: the backend cannot be reached *)
  idle "translateBtn" "translateSpinner"
    (snd (App.handleTranslate Sample.offline w)) /\
  (* a thrown error: the response is null *)
  idle "translateBtn" "translateSpinner"
    (snd (App.handleTranslate (Sample.answering JNull) w)) /\
  idle "summarizeBtn" "summarizeSpinner"
    (snd (App.handleSummarize (Sample.answering JNull) w)).
Proof.
  intros w.
  assert (Hnb : ~ blank Sample.long_text)
    by (apply not_blank_nonempty; eval_now).
  assert (Hlen : (50 <= length (trim Sample.long_text))%nat)
    by (vm_compute; lia).
  assert (Hoff : responsive Sample.offline) by (by intros req).
  assert (Hnull : responsive (Sample.answering JNull)) by (by intros req).
  destruct (loading_always_cleared Sample.offline w Hoff) as [H1 _].
  destruct (loading_always_cleared (Sample.answering JNull) w Hnull)
    as [H2 H3].
  split_and!.
  - intros (button & spinner & Hb & _ & Hd & _).
    vm_compute in Hb. injection Hb as <-. discriminate Hd.
  - apply (H1 (with_value Sample.long_text Sample.element));
      [eval_now | eval_some | eval_some | eval_some | exact Hnb].
  - apply (H2 (with_value Sample.long_text Sample.element));
      [eval_now | eval_some | eval_some | eval_some | exact Hnb].
  - apply (H3 Sample.long_text);
      [eval_some | eval_some | eval_some | eval_some | eval_now | exact Hlen].
Defined.

(** ** A request that never settles *)

Section Suspended.

Variable net : Request -> API.FetchOutcome.

Lemma translate_body_frame text s t m :
  preserves
    (frame ["outputText"; "outputStats"; "copyOutput"; "downloadOutput";
            "statusBar"; "statusMessage"])
    (App.translate_body net text (Some "outputText") s t m).
Proof.
  unfold App.translate_body, API.translate, App.set_currentOutputText. pres.
Qed.

Lemma summarize_body_frame text l f m :
  preserves
    (frame ["outputText"; "outputStats"; "copyOutput"; "downloadOutput";
            "statusBar"; "statusMessage"])
    (App.summarize_body net text l f (Some "outputText") m).
Proof.
  unfold App.summarize_body, API.summarize, App.set_currentOutputText. pres.
Qed.

Lemma after_showLoading_loading b s msg w :
  b <> s -> b <> "statusBar" -> b <> "statusMessage" ->
  s <> "statusBar" -> s <> "statusMessage" ->
  is_Some (dom w !! b) -> is_Some (dom w !! s) ->
  loading b s (after_showLoading b s msg w).
Proof.
  intros Hne ? ? ? ? [button Hb] [spinner Hs].
  destruct (showLoading_loading b s Hne w button spinner Hb Hs)
    as (button' & spinner' & Hb' & Hs' & Hl).
  exists button', spinner'. unfold after_showLoading.
  by rewrite !showStatus_lookup.
Qed.

(** While the request of a handler stays unanswered, the handler stays
    suspended inside its [try] block and the page stays in the loading
    state the handler has entered. *)
Lemma try_finally_pending (body : M unit) handler fin ids b s w :
  preserves (frame ids) body -> b ∉ ids -> s ∉ ids ->
  loading b s w ->
  fst (try_finally (try_catch body handler) fin w) = Pending ->
  (forall e w', fst (handler e w') <> Pending) ->
  (forall w', fst (fin w') <> Pending) ->
  loading b s (snd (try_finally (try_catch body handler) fin w)).
Proof.
  intros Hframe Hb Hs (button & spinner & Hlb & Hls & Hl) Hp Hh Hf.
  unfold try_finally, try_catch in *.
  pose proof (Hframe w) as Hk.
  destruct (body w) as [[[]|e|] w1]; cbn [snd] in Hk.
  - specialize (Hf w1). by destruct (fin w1) as [[[]|e|] w2].
  - specialize (Hh e w1). destruct (handler e w1) as [[[]|e'|] w2]; try done;
      specialize (Hf w2); by destruct (fin w2) as [[[]|e''|] w3].
  - exists button, spinner. cbn [snd]. by rewrite !Hk.
Qed.

Lemma hideLoading_not_pending b s w : fst (UI.hideLoading b s w) <> Pending.
Proof.
  destruct (dom w !! b) as [button|] eqn:E.
  - by rewrite (hideLoading_normal b s w button E).
  - by rewrite hideLoading_no_button.
Qed.

Lemma handleTranslate_pending_loading w input :
  dom w !! "inputText" = Some input ->
  is_Some (dom w !! "outputText") ->
  is_Some (dom w !! "translateBtn") ->
  is_Some (dom w !! "translateSpinner") ->
  ~ blank (value input) ->
  fst (App.handleTranslate net w) = Pending ->
  loading "translateBtn" "translateSpinner" (snd (App.handleTranslate net w)).
Proof.
  intros Hi Ho Hb Hs Hnb. rewrite (handleTranslate_unfold net w input Hi Ho Hb Hnb).
  intros Hp.
  eapply try_finally_pending; try exact Hp.
  - apply translate_body_frame.
  - solve_notin.
  - solve_notin.
  - by apply after_showLoading_loading.
  - intros e w'. by rewrite showStatus_normal.
  - apply hideLoading_not_pending.
Qed.

Lemma handleSummarize_pending_loading w text :
  is_Some (dom w !! "inputText") ->
  is_Some (dom w !! "outputText") ->
  is_Some (dom w !! "summarizeBtn") ->
  is_Some (dom w !! "summarizeSpinner") ->
  chosen_text w = Some text ->
  (50 <= length (trim text))%nat ->
  fst (App.handleSummarize net w) = Pending ->
  loading "summarizeBtn" "summarizeSpinner" (snd (App.handleSummarize net w)).
Proof.
  intros Hi Ho Hb Hs Hc Hlen.
  rewrite (handleSummarize_unfold net w text Hi Ho Hb Hc Hlen). intros Hp.
  eapply try_finally_pending; try exact Hp.
  - apply summarize_body_frame.
  - solve_notin.
  - solve_notin.
  - by apply after_showLoading_loading.
  - intros e w'. by rewrite showStatus_normal.
  - apply hideLoading_not_pending.
Qed.

End Suspended.

(** * Further properties of the code *)

(** ** Handlers that stop before the request *)

Section EarlyExits.

Variable net : Request -> API.FetchOutcome.

Lemma shows_frame ids msg ty w w' :
  frame ids w w' -> "statusBar" ∉ ids -> "statusMessage" ∉ ids ->
  shows msg ty w -> shows msg ty w'.
Proof.
  intros Hf Hb Hm (bar & message & H1 & H2 & H). exists bar, message.
  by rewrite !Hf.
Qed.

Lemma trim_blank_nonempty s : blank s -> nonempty (trim (trim s)) = false.
Proof. intros H. rewrite trim_idemp. by apply nonempty_trim_blank. Qed.

(** X1. A translate action on an input that is empty or all white space
    sends no request: it ends normally, shows "Please enter some text",
    and changes nothing else, neither the session state nor any element
    but the status banner (the button stays as it was). *)
Theorem handleTranslate_blank_input (w : World) (input : Element) :
  dom w !! "inputText" = Some input ->
  is_Some (dom w !! "outputText") ->
  blank (value input) ->
  fst (App.handleTranslate net w) = Normal tt /\
  requests (snd (App.handleTranslate net w)) = requests w /\
  app (snd (App.handleTranslate net w)) = app w /\
  (forall id, id <> "statusBar" -> id <> "statusMessage" ->
     dom (snd (App.handleTranslate net w)) !! id = dom w !! id) /\
  (is_Some (dom w !! "statusBar") -> is_Some (dom w !! "statusMessage") ->
   shows (lit "Please enter some text") UI.TError
     (snd (App.handleTranslate net w))).
Proof.
  intros Hi [output Ho] Hb.
  assert (Hrun : App.handleTranslate net w
    = (Normal tt,
       snd (UI.showStatus (lit "Please enter some text") UI.TError
              UI.default_duration w))).
  { unfold App.handleTranslate. run.
    by rewrite (bind_eq _ _ _ _ _
                  (validateInput_blank _ 1 w (trim_blank_nonempty _ Hb))). }
  rewrite Hrun. cbn [fst snd]. split_and!.
  - done.
  - apply showStatus_requests.
  - apply showStatus_app.
  - intros id H1 H2. by apply showStatus_lookup.
  - intros [bar Hbar] [message Hm]. by eapply showStatus_shows.
Qed.

(** X2. Without the input area or without the output area, a translate
    action and a summarize action do nothing at all: no request, no
    status, no change of the page or of the session state. *)
Theorem handlers_need_text_areas (w : World) :
  dom w !! "inputText" = None \/ dom w !! "outputText" = None ->
  App.handleTranslate net w = (Normal tt, w) /\
  App.handleSummarize net w = (Normal tt, w).
Proof.
  intros H. unfold App.handleTranslate, App.handleSummarize.
  destruct H as [H|H]; run; cbn [orb].
  - done.
  - unfold ref_of. by destruct (dom w !! "inputText").
Qed.

(** X3. With a valid text but without its button, an action does not
    reach the backend: [showLoading] throws before the [try] statement,
    so the handler ends with an uncaught TypeError, having sent nothing
    and changed nothing. *)
Theorem handlers_throw_without_button (w : World) :
  (forall input,
     dom w !! "inputText" = Some input ->
     is_Some (dom w !! "outputText") ->
     ~ blank (value input) ->
     dom w !! "translateBtn" = None ->
     App.handleTranslate net w = (Throw TypeError, w)) /\
  (forall text,
     is_Some (dom w !! "inputText") ->
     is_Some (dom w !! "outputText") ->
     chosen_text w = Some text ->
     (50 <= length (trim text))%nat ->
     dom w !! "summarizeBtn" = None ->
     App.handleSummarize net w = (Throw TypeError, w)).
Proof.
  split.
  - intros input Hi [output Ho] Hnb Hb. unfold App.handleTranslate. run.
    assert (Hne : nonempty (trim (trim (value input))) = true).
    { rewrite trim_idemp. rewrite <- nonempty_trim_blank in Hnb.
      by destruct (nonempty (trim (value input))). }
    rewrite (bind_eq _ _ _ _ _ (validateInput_valid _ 1 w Hne ltac:(
      destruct (trim (trim (value input))); [done | simpl; lia]))).
    cbn [negb]. unfold bind. by rewrite showLoading_no_button.
  - intros text [input Hi] [output Ho] Hc Hlen Hb.
    unfold App.handleSummarize. run.
    assert (Hvalid : UI.validateInput (trim text) 50 w = (Normal true, w)).
    { apply validateInput_valid; rewrite trim_idemp.
      - destruct (trim text); [simpl in Hlen; lia | done].
      - lia. }
    unfold chosen_text, summary_source in Hc.
    destruct (Str.eqb _ (lit "translated")).
    + rewrite Ho in Hc. injection Hc as <-. run.
      rewrite (bind_eq _ _ _ _ _ Hvalid). cbn [negb]. run.
      unfold bind. by rewrite showLoading_no_button.
    + rewrite Hi in Hc. injection Hc as <-. run.
      rewrite (bind_eq _ _ _ _ _ Hvalid). cbn [negb]. run.
      unfold bind. by rewrite showLoading_no_button.
Qed.

End EarlyExits.

Lemma handleTranslate_blank_input_witness :
  let w := Sample.page (lit "  ") (lit "old") in
  fst (App.handleTranslate Sample.offline w) = Normal tt /\
  requests (snd (App.handleTranslate Sample.offline w)) = [] /\
  shows (lit "Please enter some text") UI.TError
    (snd (App.handleTranslate Sample.offline w)).
Proof.
  intros w.
  destruct (handleTranslate_blank_input Sample.offline w
              (with_value (lit "  ") Sample.element))
    as (H1 & H2 & _ & _ & H3);
    [eval_now | eval_some | repeat constructor |].
  split_and!; [exact H1 | exact H2 | apply H3; eval_some].
Defined.

Lemma handlers_need_text_areas_witness :
  App.handleTranslate Sample.offline Sample.empty = (Normal tt, Sample.empty) /\
  App.handleSummarize Sample.offline Sample.empty = (Normal tt, Sample.empty).
Proof.
  apply (handlers_need_text_areas Sample.offline Sample.empty). left. eval_now.
Defined.

Lemma handlers_throw_without_button_witness :
  let w := Demo.without "translateBtn"
             (Demo.without "summarizeBtn" (Sample.page Sample.long_text [])) in
  App.handleTranslate Sample.offline w = (Throw TypeError, w) /\
  App.handleSummarize Sample.offline w = (Throw TypeError, w).
Proof.
  intros w.
  assert (Hnb : ~ blank Sample.long_text)
    by (apply not_blank_nonempty; eval_now).
  destruct (handlers_throw_without_button Sample.offline w) as [H1 H2].
  split.
  - apply (H1 (with_value Sample.long_text Sample.element));
      [eval_now | eval_some | exact Hnb | eval_now].
  - apply (H2 Sample.long_text);
      [eval_some | eval_some | eval_now | vm_compute; lia | eval_now].
Defined.

(** ** The requests a handler sends *)

Lemma showLoading_requests b s w :
  requests (snd (UI.showLoading b s w)) = requests w.
Proof. apply showLoading_same_requests. Qed.

Lemma hideLoading_requests b s w :
  requests (snd (UI.hideLoading b s w)) = requests w.
Proof. apply hideLoading_same_requests. Qed.

Lemma after_showLoading_requests b s msg w :
  requests (after_showLoading b s msg w) = requests w.
Proof.
  unfold after_showLoading. by rewrite showStatus_requests, showLoading_requests.
Qed.

Lemma after_showLoading_app b s msg w : app (after_showLoading b s msg w) = app w.
Proof. unfold after_showLoading. by rewrite showStatus_app, showLoading_app. Qed.

Lemma after_showLoading_lookup b s msg w id :
  id <> b -> id <> s -> id <> "statusBar" -> id <> "statusMessage" ->
  dom (after_showLoading b s msg w) !! id = dom w !! id.
Proof.
  intros. unfold after_showLoading.
  by rewrite showStatus_lookup, showLoading_lookup.
Qed.

Section Requests.

Variable net : Request -> API.FetchOutcome.

Lemma bind_post_requests {B} endpoint data (k : JSValue -> M B) w :
  (forall v, preserves same_requests (k v)) ->
  requests (snd (bind (API.post net endpoint data) k w))
  = requests w ++ [post_request endpoint data].
Proof.
  intros Hk. unfold bind. rewrite post_unfold.
  destruct (net _) as [e| |[e| |v]]; cbn [snd requests with_requests];
    try done; by rewrite Hk.
Qed.

Lemma try_finally_requests {A} (body : M A) handler fin w :
  (forall e, preserves same_requests (handler e)) ->
  preserves same_requests fin ->
  requests (snd (try_finally (try_catch body handler) fin w))
  = requests (snd (body w)).
Proof.
  intros Hh Hf. unfold try_finally, try_catch.
  destruct (body w) as [[a|e|] w1]; cbn [snd].
  - specialize (Hf w1). by destruct (fin w1) as [[[]|e|] w2].
  - specialize (Hh e w1). destruct (handler e w1) as [[a|e'|] w2];
      cbn [snd] in *; try done;
      specialize (Hf w2); destruct (fin w2) as [[[]|e''|] w3];
      cbn [snd] in *; unfold same_requests in *; congruence.
  - done.
Qed.

Lemma translate_rest_same_requests outputText v :
  preserves same_requests
    (success <- get_prop v "success" ;;
     if truthy success then
       translated <- get_prop v "translated_text" ;;
       write outputText (with_value (to_value_string translated)) ;;
       translated' <- get_prop v "translated_text" ;;
       App.set_currentOutputText translated' ;;
       UI.updateStats "outputText" "outputStats" ;;
       UI.updateOutputButtons true ;;
       time <- get_prop v "processing_time" ;;
       UI.showStatus
         (App.check_mark ++ lit " Translated in " ++ to_string time ++ lit "s")
         UI.TSuccess 3000
     else
       write outputText (with_value []) ;;
       error <- get_prop v "error" ;;
       UI.showStatus
         (to_string (or_else error (JStr (lit "Translation failed"))))
         UI.TError 5000).
Proof. unfold App.set_currentOutputText. pres. Qed.

Lemma summarize_rest_same_requests outputText v :
  preserves same_requests
    (success <- get_prop v "success" ;;
     if truthy success then
       summary <- get_prop v "summary" ;;
       write outputText (with_value (to_value_string summary)) ;;
       summary' <- get_prop v "summary" ;;
       App.set_currentOutputText summary' ;;
       UI.updateStats "outputText" "outputStats" ;;
       UI.updateOutputButtons true ;;
       time <- get_prop v "processing_time" ;;
       UI.showStatus
         (App.check_mark ++ lit " Summarized in " ++ to_string time ++ lit "s")
         UI.TSuccess 3000
     else
       error <- get_prop v "error" ;;
       UI.showStatus
         (to_string (or_else error (JStr (lit "Summarization failed"))))
         UI.TError 5000).
Proof. unfold App.set_currentOutputText. pres. Qed.

(** The request log after the [try] block of [handleTranslate], when the
    three selectors are there. *)
Lemma translate_body_requests text o w source target model :
  dom w !! "sourceLanguage" = Some source ->
  dom w !! "targetLanguage" = Some target ->
  dom w !! "translationModel" = Some model ->
  requests
    (snd (App.translate_body net text o (Some "sourceLanguage")
            (Some "targetLanguage") (Some "translationModel") w))
  = requests w
    ++ [translate_request text (value source) (value target) (value model)].
Proof.
  intros Hs Ht Hm. unfold App.translate_body, API.translate. run.
  rewrite bind_post_requests; [done|]. apply translate_rest_same_requests.
Qed.

Lemma summarize_body_requests text l f o w model :
  dom w !! "summaryModel" = Some model ->
  requests
    (snd (App.summarize_body net text l f o (Some "summaryModel") w))
  = requests w ++ [summarize_request text (value model) l f].
Proof.
  intros Hm. unfold App.summarize_body, API.summarize. run.
  rewrite bind_post_requests; [done|]. apply summarize_rest_same_requests.
Qed.

(** X4. A translate action on a page that has its elements and a text
    that is not blank sends exactly one request, whatever the backend
    then does: a POST to /translate whose body carries the trimmed input
    and the current values of the source, target and model selectors. *)
Theorem handleTranslate_request (w : World) (input source target model : Element) :
  dom w !! "inputText" = Some input ->
  is_Some (dom w !! "outputText") ->
  is_Some (dom w !! "translateBtn") ->
  dom w !! "sourceLanguage" = Some source ->
  dom w !! "targetLanguage" = Some target ->
  dom w !! "translationModel" = Some model ->
  ~ blank (value input) ->
  requests (snd (App.handleTranslate net w))
  = requests w
    ++ [translate_request (trim (value input)) (value source) (value target)
          (value model)].
Proof.
  intros Hi Ho Hb Hs Ht Hm Hnb.
  rewrite (handleTranslate_unfold net w input Hi Ho Hb Hnb).
  rewrite try_finally_requests;
    [| intros e; apply showStatus_same_requests
     | apply hideLoading_same_requests].
  rewrite (ref_of_some _ _ _ Hs), (ref_of_some _ _ _ Ht), (ref_of_some _ _ _ Hm).
  erewrite translate_body_requests;
    [| by rewrite after_showLoading_lookup..].
  by rewrite after_showLoading_requests.
Qed.

(** X5. A summarize action on a page that has its elements and a chosen
    text of at least 50 characters sends exactly one request: a POST to
    /summarize with the trimmed text, the value of the model selector and
    the checked length and format, "short" and "paragraph" when no radio
    button is checked. *)
Theorem handleSummarize_request (w : World) (text : ustring) (model : Element) :
  is_Some (dom w !! "inputText") ->
  is_Some (dom w !! "outputText") ->
  is_Some (dom w !! "summarizeBtn") ->
  dom w !! "summaryModel" = Some model ->
  chosen_text w = Some text ->
  (50 <= length (trim text))%nat ->
  requests (snd (App.handleSummarize net w))
  = requests w
    ++ [summarize_request (trim text) (value model)
          (UI.radio_or (radios w !! "summaryLength") (lit "short"))
          (UI.radio_or (radios w !! "summaryFormat") (lit "paragraph"))] /\
  (radios w !! "summaryLength" = None ->
   UI.radio_or (radios w !! "summaryLength") (lit "short") = lit "short") /\
  (radios w !! "summaryFormat" = None ->
   UI.radio_or (radios w !! "summaryFormat") (lit "paragraph") = lit "paragraph").
Proof.
  intros Hi Ho Hb Hm Hc Hlen. split_and!; [|by intros ->..].
  rewrite (handleSummarize_unfold net w text Hi Ho Hb Hc Hlen).
  rewrite try_finally_requests;
    [| intros e; apply showStatus_same_requests
     | apply hideLoading_same_requests].
  rewrite (ref_of_some _ _ _ Hm).
  erewrite summarize_body_requests;
    [| by rewrite after_showLoading_lookup].
  by rewrite after_showLoading_requests.
Qed.

End Requests.

Lemma handleTranslate_request_witness :
  requests (snd (App.handleTranslate Sample.offline
                   (Sample.page (lit "  Hello world ") [])))
  = [translate_request (lit "Hello world") (lit "en") (lit "hi") (lit "m1")].
Proof.
  rewrite (handleTranslate_request Sample.offline
             (Sample.page (lit "  Hello world ") [])
             (with_value (lit "  Hello world ") Sample.element)
             (with_value (lit "en") Sample.element)
             (with_value (lit "hi") Sample.element)
             (with_value (lit "m1") Sample.element));
    [eval_now | eval_now | eval_some | eval_some | eval_now | eval_now
    | eval_now | apply not_blank_nonempty; eval_now].
Defined.

Lemma handleSummarize_request_witness :
  requests (snd (App.handleSummarize Sample.offline
                   (Sample.page Sample.long_text [])))
  = [summarize_request Sample.long_text (lit "m2") (lit "short") (lit "paragraph")].
Proof.
  destruct (handleSummarize_request Sample.offline
              (Sample.page Sample.long_text []) Sample.long_text
              (with_value (lit "m2") Sample.element)) as [H _];
    [eval_some | eval_some | eval_some | eval_now | eval_now
    | vm_compute; lia |].
  rewrite H. eval_now.
Defined.

(** ** No action sends more than one request *)

Section AtMostOne.

Variable net : Request -> API.FetchOutcome.

Lemma amo_same {A} endpoint (m : M A) :
  preserves same_requests m -> at_most_one endpoint m.
Proof. intros H w. left. apply H. Qed.

Lemma amo_bind {A B} endpoint (m : M A) (k : A -> M B) :
  preserves same_requests m -> (forall a, at_most_one endpoint (k a)) ->
  at_most_one endpoint (bind m k).
Proof.
  intros Hm Hk w. unfold bind. specialize (Hm w).
  destruct (m w) as [[a|e|] w1]; cbn [snd] in *; [|by left..].
  unfold same_requests in Hm. rewrite <- Hm. apply Hk.
Qed.

Lemma amo_post {B} endpoint data (k : JSValue -> M B) :
  (forall v, preserves same_requests (k v)) ->
  at_most_one endpoint (bind (API.post net endpoint data) k).
Proof. intros Hk w. right. exists data. by apply bind_post_requests. Qed.

Lemma amo_try {A} endpoint (body : M A) handler fin :
  at_most_one endpoint body ->
  (forall e, preserves same_requests (handler e)) ->
  preserves same_requests fin ->
  at_most_one endpoint (try_finally (try_catch body handler) fin).
Proof. intros Hb Hh Hf w. rewrite try_finally_requests by done. apply Hb. Qed.

Lemma translate_body_at_most_one text o s t m :
  at_most_one (lit "/translate") (App.translate_body net text o s t m).
Proof.
  unfold App.translate_body, API.translate.
  do 3 (apply amo_bind; [pres | intros ?]).
  apply amo_post. intros v. apply translate_rest_same_requests.
Qed.

Lemma summarize_body_at_most_one text l f o m :
  at_most_one (lit "/summarize") (App.summarize_body net text l f o m).
Proof.
  unfold App.summarize_body, API.summarize.
  apply amo_bind; [pres | intros ?].
  apply amo_post. intros v. apply summarize_rest_same_requests.
Qed.

(** One step of a proof that a handler sends at most one request. *)
Ltac amo_step :=
  lazymatch goal with
  | |- at_most_one _ (bind _ _) => apply amo_bind; [pres | intros ?]
  | |- at_most_one _ (ret _) => apply amo_same; pres
  | |- at_most_one _ (try_finally (try_catch _ _) _) =>
      apply amo_try; [| intros ?; pres | pres]
  | |- at_most_one _ (if ?b then _ else _) => destruct b
  | |- at_most_one _ (match ?x with _ => _ end) => destruct x
  end.

(** X6. Whatever the page and the backend, a translate action sends at
    most one request, a POST to /translate, and a summarize action at most
    one, a POST to /summarize; neither retries, and neither removes or
    rewrites a request sent before. *)
Theorem handlers_send_at_most_one :
  at_most_one (lit "/translate") (App.handleTranslate net) /\
  at_most_one (lit "/summarize") (App.handleSummarize net).
Proof.
  split.
  - unfold App.handleTranslate. repeat amo_step.
    apply translate_body_at_most_one.
  - unfold App.handleSummarize. repeat amo_step;
      apply summarize_body_at_most_one.
Qed.

End AtMostOne.

(** ** Exceptions inside the [try] block *)

Section Caught.

Variable net : Request -> API.FetchOutcome.

Lemma try_finally_caught (body : M unit) handler fin w e w1 :
  body w = (Throw e, w1) ->
  fst (handler e w1) = Normal tt ->
  fst (fin (snd (handler e w1))) = Normal tt ->
  try_finally (try_catch body handler) fin w
  = (Normal tt, snd (fin (snd (handler e w1)))).
Proof.
  intros Hb Hh Hf. unfold try_finally, try_catch. rewrite Hb.
  destruct (handler e w1) as [r w2]. cbn [fst snd] in *. subst r.
  destruct (fin w2) as [r w3]. cbn [fst snd] in *. by subst r.
Qed.

Lemma translate_body_null_ref text o s t m w :
  s = None \/ t = None \/ m = None ->
  App.translate_body net text o s t m w = (Throw TypeError, w).
Proof.
  unfold App.translate_body, bind, read. intros [->|[->| ->]].
  - reflexivity.
  - destruct s as [id|]; [destruct (dom w !! id)|]; reflexivity.
  - destruct s as [id|]; [destruct (dom w !! id)|]; try reflexivity.
    destruct t as [id'|]; [destruct (dom w !! id')|]; reflexivity.
Qed.

Lemma hideLoading_after b s msg h w :
  is_Some (dom w !! b) ->
  fst (UI.hideLoading b s
         (snd (UI.showStatus h UI.TError UI.default_duration
                 (after_showLoading b s msg w)))) = Normal tt.
Proof.
  intros Hb.
  destruct (showStatus_keeps h UI.TError UI.default_duration
              (after_showLoading b s msg w) b
              (after_showLoading_keeps b s msg w b Hb)) as [button Hb'].
  by eapply hideLoading_normal.
Qed.

(** X7. When the source, target or model selector is missing from the
    page, a translate action on a valid text sends no request: the read
    of the missing element throws inside the [try] block, the handler
    shows "An error occurred during translation", leaves the output area
    and the session state as they were, and ends normally with the
    loading state cleared. *)
Theorem handleTranslate_missing_selector (w : World) (input : Element) :
  dom w !! "inputText" = Some input ->
  is_Some (dom w !! "outputText") ->
  is_Some (dom w !! "translateBtn") ->
  ~ blank (value input) ->
  dom w !! "sourceLanguage" = None \/ dom w !! "targetLanguage" = None \/
  dom w !! "translationModel" = None ->
  let w' := snd (App.handleTranslate net w) in
  fst (App.handleTranslate net w) = Normal tt /\
  requests w' = requests w /\
  app w' = app w /\
  dom w' !! "outputText" = dom w !! "outputText" /\
  (is_Some (dom w !! "translateSpinner") ->
   idle "translateBtn" "translateSpinner" w') /\
  (is_Some (dom w !! "statusBar") -> is_Some (dom w !! "statusMessage") ->
   shows (lit "An error occurred during translation") UI.TError w').
Proof.
  intros Hi Ho Hb Hnb Hmiss w'. subst w'.
  rewrite (handleTranslate_unfold net w input Hi Ho Hb Hnb).
  set (W := after_showLoading _ _ _ w).
  erewrite try_finally_caught;
    [ | apply translate_body_null_ref | apply showStatus_normal
      | by apply hideLoading_after ].
  2: { destruct Hmiss as [H|[H|H]]; rewrite (ref_of_none _ _ H); auto. }
  cbn [fst snd]. subst W. split_and!.
  - done.
  - by rewrite hideLoading_requests, showStatus_requests,
      after_showLoading_requests.
  - by rewrite hideLoading_app, showStatus_app, after_showLoading_app.
  - by rewrite hideLoading_lookup, showStatus_lookup, after_showLoading_lookup.
  - intros Hs.
    pose proof (after_showLoading_keeps "translateBtn" "translateSpinner"
                  (lit "Translating...") w) as Hk.
    destruct (showStatus_keeps (lit "An error occurred during translation")
                UI.TError UI.default_duration _ _ (Hk _ Hb)) as [button Hb'].
    destruct (showStatus_keeps (lit "An error occurred during translation")
                UI.TError UI.default_duration _ _ (Hk _ Hs)) as [spinner Hs'].
    by eapply hideLoading_idle.
  - intros Hbar Hmsg.
    pose proof (after_showLoading_keeps "translateBtn" "translateSpinner"
                  (lit "Translating...") w) as Hk.
    destruct (Hk _ Hbar) as [bar Hbar']. destruct (Hk _ Hmsg) as [msg Hmsg'].
    eapply shows_frame;
      [apply hideLoading_frame | solve_notin | solve_notin |].
    by eapply showStatus_shows.
Qed.

Variable response : JSValue.
Hypothesis Hnet : answers net response.

(** X8. When the backend answers a translate request with [null], the
    read of [response.success] throws inside the [try] block: the handler
    shows "An error occurred during translation", leaves the output area
    and the session state as they were, and ends normally with the
    loading state cleared. *)
Theorem handleTranslate_null_response (w : World) (input : Element) :
  dom w !! "inputText" = Some input ->
  is_Some (dom w !! "outputText") ->
  is_Some (dom w !! "translateBtn") ->
  is_Some (dom w !! "sourceLanguage") ->
  is_Some (dom w !! "targetLanguage") ->
  is_Some (dom w !! "translationModel") ->
  ~ blank (value input) ->
  prop response (lit "success") = None ->
  let w' := snd (App.handleTranslate net w) in
  fst (App.handleTranslate net w) = Normal tt /\
  app w' = app w /\
  dom w' !! "outputText" = dom w !! "outputText" /\
  (is_Some (dom w !! "translateSpinner") ->
   idle "translateBtn" "translateSpinner" w') /\
  (is_Some (dom w !! "statusBar") -> is_Some (dom w !! "statusMessage") ->
   shows (lit "An error occurred during translation") UI.TError w').
Proof.
  intros Hi Ho Hb [source Hs] [target Ht] [model Hm] Hnb Hnone w'. subst w'.
  rewrite (handleTranslate_unfold net w input Hi Ho Hb Hnb).
  rewrite (ref_of_some _ _ _ Hs), (ref_of_some _ _ _ Ht), (ref_of_some _ _ _ Hm).
  set (W := after_showLoading _ _ _ w).
  assert (HW : forall id, id <> "translateBtn" -> id <> "translateSpinner" ->
            id <> "statusBar" -> id <> "statusMessage" ->
            dom W !! id = dom w !! id)
    by (intros; by apply after_showLoading_lookup).
  assert (Hbody :
    App.translate_body net (trim (value input)) (Some "outputText")
      (Some "sourceLanguage") (Some "targetLanguage") (Some "translationModel") W
    = (Throw TypeError,
       with_requests
         (requests W
          ++ [translate_request (trim (value input)) (value source)
                (value target) (value model)]) W)).
  { unfold App.translate_body, API.translate.
    erewrite !bind_read by (rewrite HW by done; eassumption).
    rewrite (bind_eq _ _ _ _ _ (post_answers net response Hnet _ _ _)).
    unfold get_prop. by rewrite Hnone. }
  pose proof (after_showLoading_keeps "translateBtn" "translateSpinner"
                (lit "Translating...") w) as Hk. fold W in Hk.
  assert (Hk' : forall id, is_Some (dom w !! id) ->
            is_Some (dom (snd (UI.showStatus
                                 (lit "An error occurred during translation")
                                 UI.TError UI.default_duration
                                 (with_requests
                                    (requests W
                                     ++ [translate_request (trim (value input))
                                           (value source) (value target)
                                           (value model)]) W))) !! id)).
  { intros id H. apply showStatus_keeps. cbn [dom with_requests]. by apply Hk. }
  erewrite try_finally_caught;
    [ | exact Hbody | apply showStatus_normal | ].
  2: { destruct (Hk' _ Hb) as [button Hb']. by eapply hideLoading_normal. }
  cbn [fst snd]. split_and!.
  - done.
  - rewrite hideLoading_app, showStatus_app. cbn [app with_requests].
    apply after_showLoading_app.
  - rewrite hideLoading_lookup, showStatus_lookup by done.
    cbn [dom with_requests]. by apply HW.
  - intros Hsp. destruct (Hk' _ Hb) as [button Hb'].
    destruct (Hk' _ Hsp) as [spinner Hsp']. by eapply hideLoading_idle.
  - intros Hbar Hmsg.
    destruct (Hk _ Hbar) as [bar Hbar']. destruct (Hk _ Hmsg) as [msg Hmsg'].
    eapply shows_frame;
      [apply hideLoading_frame | solve_notin | solve_notin |].
    by eapply showStatus_shows.
Qed.

End Caught.

Lemma handleTranslate_missing_selector_witness :
  let w := Demo.without "targetLanguage" (Sample.page (lit "Hello") (lit "old")) in
  fst (App.handleTranslate Sample.offline w) = Normal tt /\
  requests (snd (App.handleTranslate Sample.offline w)) = [] /\
  value <$> dom (snd (App.handleTranslate Sample.offline w)) !! "outputText"
  = Some (lit "old") /\
  shows (lit "An error occurred during translation") UI.TError
    (snd (App.handleTranslate Sample.offline w)).
Proof.
  intros w.
  destruct (handleTranslate_missing_selector Sample.offline w
              (with_value (lit "Hello") Sample.element))
    as (H1 & H2 & _ & H3 & _ & H4);
    [eval_now | eval_some | eval_some | apply not_blank_nonempty; eval_now
    | right; left; eval_now |].
  split_and!; [exact H1 | exact H2 | rewrite H3; eval_now
              | apply H4; eval_some].
Defined.

Lemma handleTranslate_null_response_witness :
  let w := Sample.page (lit "Hello") (lit "old") in
  let net := Sample.answering JNull in
  fst (App.handleTranslate net w) = Normal tt /\
  value <$> dom (snd (App.handleTranslate net w)) !! "outputText"
  = Some (lit "old") /\
  shows (lit "An error occurred during translation") UI.TError
    (snd (App.handleTranslate net w)).
Proof.
  intros w net.
  destruct (handleTranslate_null_response net JNull (fun _ => eq_refl) w
              (with_value (lit "Hello") Sample.element))
    as (H1 & _ & H2 & _ & H3);
    [eval_now | eval_some | eval_some | eval_some | eval_some | eval_some
    | apply not_blank_nonempty; eval_now | eval_now |].
  split_and!; [exact H1 | rewrite H2; eval_now | apply H3; eval_some].
Defined.

(** ** The run of a handler on a response *)

Lemma answers_delivers net response : answers net response -> delivers net response.
Proof. intros H endpoint data w. by apply post_answers. Qed.

Lemma unreachable_delivers net : unreachable net -> delivers net API.connect_failure.
Proof.
  intros H endpoint data w. rewrite post_unfold.
  by destruct (H (post_request endpoint data)) as [e [-> | ->]].
Qed.

Lemma keeps_insert (d : gmap string Element) id e id' :
  is_Some (d !! id') -> is_Some (<[id := e]> d !! id').
Proof.
  intros H. destruct (decide (id = id')) as [->|Hne].
  - rewrite lookup_insert_eq. eauto.
  - by rewrite lookup_insert_ne.
Qed.

Section Responses.

Variables (net : Request -> API.FetchOutcome) (response : JSValue).

Hypothesis Hpost : delivers net response.

Variables (w : World) (output : Element).

Hypothesis Houtput : dom w !! "outputText" = Some output.

Section Translate.

Variables input source target model : Element.

Hypothesis Hinput : dom w !! "inputText" = Some input.
Hypothesis Hbutton : is_Some (dom w !! "translateBtn").
Hypothesis Hsource : dom w !! "sourceLanguage" = Some source.
Hypothesis Htarget : dom w !! "targetLanguage" = Some target.
Hypothesis Hmodel : dom w !! "translationModel" = Some model.
Hypothesis Hvalid : ~ blank (value input).

(** The whole run of [handleTranslate] on a success response. *)
Lemma handleTranslate_success_eq success text time :
  prop response (lit "success") = Some success ->
  truthy success = true ->
  prop response (lit "translated_text") = Some text ->
  prop response (lit "processing_time") = Some time ->
  App.handleTranslate net w
  = (Normal tt,
     snd (UI.hideLoading "translateBtn" "translateSpinner"
            (snd (UI.showStatus
                    (App.check_mark ++ lit " Translated in " ++ to_string time
                     ++ lit "s") UI.TSuccess 3000
                    (snd (UI.updateOutputButtons true
                            (snd (UI.updateStats "outputText" "outputStats"
                                    (output_written text
             (translate_request (trim (value input)) (value source)
             (value target) (value model))
             output
             (after_showLoading "translateBtn" "translateSpinner"
             (lit "Translating...") w)))))))))).
Proof.
  intros Hs Ht Htext Htime. destruct Hbutton as [button Hb].
  destruct (showLoading_keeps "translateBtn" "translateSpinner" w "translateBtn"
              (ex_intro _ _ Hb)) as [button' Hb'].
  rewrite (handleTranslate_unfold net w input Hinput) by eauto.
  unfold after_showLoading, try_finally, try_catch, App.translate_body,
    API.translate, output_written, translate_request.
  lookups. wrun. rewrite (bind_eq _ _ _ _ _ (Hpost _ _ _)).
  rewrite (get_prop_some _ _ _ Hs). wrun. rewrite Ht.
  rewrite !(get_prop_some _ _ _ Htext). wrun.
  unfold App.set_currentOutputText. wrun.
  rewrite (get_prop_some _ _ _ Htime). wrun.
  rewrite showStatus_pair. erewrite hideLoading_pair by wlk. reflexivity.
Qed.

(** The whole run of [handleTranslate] on a failure response. *)
Lemma handleTranslate_failure_eq :
  failure_response response ->
  App.handleTranslate net w
  = (Normal tt,
     snd (UI.hideLoading "translateBtn" "translateSpinner"
            (snd (UI.showStatus
                    (failure_text response (lit "Translation failed"))
                    UI.TError 5000
                    (with_dom
             (<["outputText" := with_value [] output]>
                (dom (after_showLoading "translateBtn" "translateSpinner"
             (lit "Translating...") w)))
             (with_requests
                (requests (after_showLoading "translateBtn" "translateSpinner"
             (lit "Translating...") w)
                 ++ [translate_request (trim (value input)) (value source)
             (value target) (value model)])
                (after_showLoading "translateBtn" "translateSpinner"
             (lit "Translating...") w))))))).
Proof.
  intros (success & Hs & Ht). destruct Hbutton as [button Hb].
  destruct (prop_total _ _ (lit "error") _ Hs) as [error Herror].
  destruct (showLoading_keeps "translateBtn" "translateSpinner" w "translateBtn"
              (ex_intro _ _ Hb)) as [button' Hb'].
  rewrite (handleTranslate_unfold net w input Hinput) by eauto.
  unfold after_showLoading, try_finally, try_catch, App.translate_body,
    API.translate, failure_text, translate_request.
  lookups. wrun. rewrite (bind_eq _ _ _ _ _ (Hpost _ _ _)).
  rewrite (get_prop_some _ _ _ Hs). wrun. rewrite Ht. wrun.
  rewrite (get_prop_some _ _ _ Herror). wrun. rewrite Herror. cbn [default].
  rewrite showStatus_pair. erewrite hideLoading_pair by wlk. reflexivity.
Qed.

End Translate.

Section Summarize.

Variables (text : ustring) (model : Element).

Hypothesis Hinput : is_Some (dom w !! "inputText").
Hypothesis Hbutton : is_Some (dom w !! "summarizeBtn").
Hypothesis Hmodel : dom w !! "summaryModel" = Some model.
Hypothesis Hchosen : chosen_text w = Some text.
Hypothesis Hlength : (50 <= length (trim text))%nat.

(** The whole run of [handleSummarize] on a success response. *)
Lemma handleSummarize_success_eq success summary time :
  prop response (lit "success") = Some success ->
  truthy success = true ->
  prop response (lit "summary") = Some summary ->
  prop response (lit "processing_time") = Some time ->
  App.handleSummarize net w
  = (Normal tt,
     snd (UI.hideLoading "summarizeBtn" "summarizeSpinner"
            (snd (UI.showStatus
                    (App.check_mark ++ lit " Summarized in " ++ to_string time
                     ++ lit "s") UI.TSuccess 3000
                    (snd (UI.updateOutputButtons true
                            (snd (UI.updateStats "outputText" "outputStats"
                                    (output_written summary
             (summarize_request (trim text) (value model)
             (UI.radio_or (radios w !! "summaryLength") (lit "short"))
             (UI.radio_or (radios w !! "summaryFormat") (lit "paragraph")))
             output
             (after_showLoading "summarizeBtn" "summarizeSpinner"
             (lit "Summarizing...") w)))))))))).
Proof.
  intros Hs Ht Htext Htime. destruct Hbutton as [button Hb].
  destruct (showLoading_keeps "summarizeBtn" "summarizeSpinner" w "summarizeBtn"
              (ex_intro _ _ Hb)) as [button' Hb'].
  rewrite (handleSummarize_unfold net w text) by eauto.
  unfold after_showLoading, try_finally, try_catch, App.summarize_body,
    API.summarize, output_written, summarize_request.
  lookups. wrun. rewrite (bind_eq _ _ _ _ _ (Hpost _ _ _)).
  rewrite (get_prop_some _ _ _ Hs). wrun. rewrite Ht.
  rewrite !(get_prop_some _ _ _ Htext). wrun.
  unfold App.set_currentOutputText. wrun.
  rewrite (get_prop_some _ _ _ Htime). wrun.
  rewrite showStatus_pair. erewrite hideLoading_pair by wlk. reflexivity.
Qed.

(** The whole run of [handleSummarize] on a failure response. *)
Lemma handleSummarize_failure_eq :
  failure_response response ->
  App.handleSummarize net w
  = (Normal tt,
     snd (UI.hideLoading "summarizeBtn" "summarizeSpinner"
            (snd (UI.showStatus
                    (failure_text response (lit "Summarization failed"))
                    UI.TError 5000
                    (with_requests
             (requests (after_showLoading "summarizeBtn" "summarizeSpinner"
             (lit "Summarizing...") w)
              ++ [summarize_request (trim text) (value model)
             (UI.radio_or (radios w !! "summaryLength") (lit "short"))
             (UI.radio_or (radios w !! "summaryFormat") (lit "paragraph"))])
             (after_showLoading "summarizeBtn" "summarizeSpinner"
             (lit "Summarizing...") w)))))).
Proof.
  intros (success & Hs & Ht). destruct Hbutton as [button Hb].
  destruct (prop_total _ _ (lit "error") _ Hs) as [error Herror].
  destruct (showLoading_keeps "summarizeBtn" "summarizeSpinner" w "summarizeBtn"
              (ex_intro _ _ Hb)) as [button' Hb'].
  rewrite (handleSummarize_unfold net w text) by eauto.
  unfold after_showLoading, try_finally, try_catch, App.summarize_body,
    API.summarize, failure_text, summarize_request.
  lookups. wrun. rewrite (bind_eq _ _ _ _ _ (Hpost _ _ _)).
  rewrite (get_prop_some _ _ _ Hs). wrun. rewrite Ht. wrun.
  rewrite (get_prop_some _ _ _ Herror). wrun. rewrite Herror. cbn [default].
  rewrite showStatus_pair. erewrite hideLoading_pair by wlk. reflexivity.
Qed.

End Summarize.

End Responses.

(** ** What the user sees after a response *)

Lemma output_written_keeps v req output W id :
  is_Some (dom W !! id) -> is_Some (dom (output_written v req output W) !! id).
Proof. intros H. unfold output_written. cbn [dom with_app with_dom]. by apply keeps_insert. Qed.

Lemma shows_after_hide b s msg ty d w :
  b <> "statusBar" -> b <> "statusMessage" ->
  s <> "statusBar" -> s <> "statusMessage" ->
  is_Some (dom w !! "statusBar") -> is_Some (dom w !! "statusMessage") ->
  shows msg ty (snd (UI.hideLoading b s (snd (UI.showStatus msg ty d w)))).
Proof.
  intros ? ? ? ? [bar Hb] [message Hm].
  eapply shows_frame; [apply hideLoading_frame | solve_notin | solve_notin |].
  by eapply showStatus_shows.
Qed.

Lemma failure_text_fallback response fallback error :
  prop response (lit "error") = Some error -> truthy error = false ->
  failure_text response fallback = fallback.
Proof. intros H Ht. unfold failure_text, or_else. by rewrite H; cbn; rewrite Ht. Qed.

Lemma failure_text_error response fallback e :
  prop response (lit "error") = Some (JStr e) -> e <> [] ->
  failure_text response fallback = e.
Proof.
  intros H He. unfold failure_text, or_else. rewrite H. cbn.
  by destruct e.
Qed.

(** The projections of a pair, for rewriting. *)
Lemma fst_pair {A B} (a : A) (b : B) : fst (a, b) = a.
Proof. reflexivity. Qed.

Lemma snd_pair {A B} (a : A) (b : B) : snd (a, b) = b.
Proof. reflexivity. Qed.

Section SummarizeResponse.

Variables (net : Request -> API.FetchOutcome) (response : JSValue).
Variables (w : World) (output model : Element) (text : ustring).

Hypothesis Hnet : answers net response.
Hypothesis Hinput : is_Some (dom w !! "inputText").
Hypothesis Houtput : dom w !! "outputText" = Some output.
Hypothesis Hbutton : is_Some (dom w !! "summarizeBtn").
Hypothesis Hmodel : dom w !! "summaryModel" = Some model.
Hypothesis Hchosen : chosen_text w = Some text.
Hypothesis Hlength : (50 <= length (trim text))%nat.

(** X9. On a success response to a summarize request, the session state
    holds the returned summary as the current output text and the copy and
    download buttons are enabled; when the summary has no carriage return
    (a text area gives back any other text with its line breaks
    rewritten), the output area holds it and the output stats show its
    character and word counts. *)
Theorem summarize_response_effects (s : ustring) :
  success_response response ->
  prop response (lit "summary") = Some (JStr s) ->
  let w' := snd (App.handleSummarize net w) in
  fst (App.handleSummarize net w) = Normal tt /\
  (no_cr s -> value <$> dom w' !! "outputText" = Some s) /\
  currentOutputText (app w') = JStr s /\
  (no_cr s -> is_Some (dom w !! "outputStats") ->
   textContent <$> dom w' !! "outputStats"
   = Some (lit "Characters: " ++ dec (Z.of_nat (length s))
           ++ lit " | Words: " ++ dec (Z.of_nat (token_count (trim s))))) /\
  (is_Some (dom w !! "copyOutput") ->
   disabled <$> dom w' !! "copyOutput" = Some false) /\
  (is_Some (dom w !! "downloadOutput") ->
   disabled <$> dom w' !! "downloadOutput" = Some false).
Proof.
  intros (success & Hs & Ht) Hsum w'. subst w'.
  destruct (prop_total _ _ (lit "processing_time") _ Hs) as [time Htime].
  rewrite (handleSummarize_success_eq net response (answers_delivers _ _ Hnet)
             w output Houtput text model Hinput Hbutton Hmodel Hchosen Hlength
             success (JStr s) time Hs Ht Hsum Htime).
  rewrite fst_pair, !snd_pair.
  unfold output_written, after_showLoading. split_and!.
  - done.
  - intros _. by wlk.
  - by wapp.
  - intros _ [stats Hst]. wlookups.
    erewrite updateStats_lookup_stats by wlk. wlookups. cbn.
    unfold UI.stats_text. by rewrite wordCount_tokens.
  - intros [e He]. wlookups. rewrite updateOutputButtons_copy. by wlk.
  - intros [e He]. wlookups. rewrite updateOutputButtons_download. by wlk.
Qed.

End SummarizeResponse.

Lemma summarize_response_effects_witness :
  let w := Sample.page Sample.long_text (lit "old") in
  let w' := snd (App.handleSummarize
                   (Sample.answering (Demo.summarized (lit "A fox jumps.")))
                   w) in
  value <$> dom w' !! "outputText" = Some (lit "A fox jumps.") /\
  currentOutputText (app w') = JStr (lit "A fox jumps.") /\
  textContent <$> dom w' !! "outputStats"
  = Some (lit "Characters: 12 | Words: 3") /\
  disabled <$> dom w' !! "copyOutput" = Some false.
Proof.
  intros w w'. subst w'.
  destruct (summarize_response_effects
              (Sample.answering (Demo.summarized (lit "A fox jumps.")))
              (Demo.summarized (lit "A fox jumps.")) w
              (with_value (lit "old") Sample.element)
              (with_value (lit "m2") Sample.element) Sample.long_text
              (fun _ => eq_refl))
    with (s := lit "A fox jumps.")
    as (_ & H1 & H2 & H3 & H4 & _);
    [eval_some | eval_now | eval_some | eval_now | eval_now | vm_compute; lia
    | exists (JBool true); split; eval_now | eval_now |].
  assert (Hcr : no_cr (lit "A fox jumps."))
    by (apply (bool_decide_unpack _); vm_compute; exact I).
  split_and!; [exact (H1 Hcr) | exact H2
              | rewrite (H3 Hcr) by eval_some; eval_now
              | apply H4; eval_some].
Defined.

Section TranslateBanners.

Variables (net : Request -> API.FetchOutcome) (response : JSValue).
Variables (w : World) (input output source target model : Element).

Hypothesis Hinput : dom w !! "inputText" = Some input.
Hypothesis Houtput : dom w !! "outputText" = Some output.
Hypothesis Hbutton : is_Some (dom w !! "translateBtn").
Hypothesis Hsource : dom w !! "sourceLanguage" = Some source.
Hypothesis Htarget : dom w !! "targetLanguage" = Some target.
Hypothesis Hmodel : dom w !! "translationModel" = Some model.
Hypothesis Hvalid : ~ blank (value input).
Hypothesis Hbar : is_Some (dom w !! "statusBar").
Hypothesis Hmessage : is_Some (dom w !! "statusMessage").

Lemma status_after_showLoading b s msg id :
  is_Some (dom w !! id) -> is_Some (dom (after_showLoading b s msg w) !! id).
Proof. apply after_showLoading_keeps. Qed.

(** X10. On a success response to a translate request, whatever the
    response carries besides a truthy [success], the handler ends normally.
    When [translated_text] has a string form, the session state keeps its
    value as it came and the output area holds its text (the word
    "undefined" when the property is missing, nothing when it is [null]),
    provided the text has no carriage return; when [processing_time] has a
    string form too, the banner reads "Translated in", the text of
    [processing_time] and "s" after a check mark, in the success style. *)
Theorem translate_success_banner (success text time : JSValue) :
  answers net response ->
  prop response (lit "success") = Some success ->
  truthy success = true ->
  prop response (lit "translated_text") = Some text ->
  prop response (lit "processing_time") = Some time ->
  let w' := snd (App.handleTranslate net w) in
  fst (App.handleTranslate net w) = Normal tt /\
  (printable text = true -> currentOutputText (app w') = text) /\
  (printable text = true -> no_cr (to_value_string text) ->
   value <$> dom w' !! "outputText" = Some (to_value_string text)) /\
  (printable text = true -> printable time = true ->
   shows ([10003%N] ++ lit " Translated in " ++ to_string time ++ lit "s")
     UI.TSuccess w') /\
  to_value_string JUndefined = lit "undefined" /\
  to_value_string JNull = [].
Proof.
  intros Hnet Hs Ht Htext Htime w'. subst w'.
  rewrite (handleTranslate_success_eq net response (answers_delivers _ _ Hnet)
             w output Houtput input source target model Hinput Hbutton Hsource
             Htarget Hmodel Hvalid success text time Hs Ht Htext Htime).
  rewrite fst_pair, !snd_pair. split_and!; [done | | | | done | done].
  - intros _. unfold output_written. by wapp.
  - intros _ _. unfold output_written, after_showLoading. by wlk.
  - intros _ _. apply shows_after_hide; try done;
      apply updateOutputButtons_keeps, updateStats_keeps,
        output_written_keeps, status_after_showLoading; done.
Qed.

(** X11. On a failure response to a translate request whose [error] has a
    string form the banner shows it, in the error style, or "Translation
    failed" when the response has no [error] or an empty one; whatever the
    [error], the output area is emptied but the output stats are not
    recomputed: they still show the counts of the text that was there. *)
Theorem translate_failure_banner :
  answers net response ->
  failure_response response ->
  let w' := snd (App.handleTranslate net w) in
  (printable (default JUndefined (prop response (lit "error"))) = true ->
   shows (failure_text response (lit "Translation failed")) UI.TError w') /\
  (forall error, prop response (lit "error") = Some error ->
     truthy error = false ->
     failure_text response (lit "Translation failed")
     = lit "Translation failed") /\
  (forall e, prop response (lit "error") = Some (JStr e) -> e <> [] ->
     failure_text response (lit "Translation failed") = e) /\
  value <$> dom w' !! "outputText" = Some [] /\
  dom w' !! "outputStats" = dom w !! "outputStats".
Proof.
  intros Hnet Hfail w'. subst w'.
  rewrite (handleTranslate_failure_eq net response (answers_delivers _ _ Hnet)
             w output Houtput input source target model Hinput Hbutton Hsource
             Htarget Hmodel Hvalid Hfail).
  cbn [snd]. split_and!.
  - intros _. apply shows_after_hide; try done;
      cbn [dom with_dom with_requests];
      apply keeps_insert, status_after_showLoading; done.
  - intros error. apply failure_text_fallback.
  - intros e. apply failure_text_error.
  - unfold after_showLoading. by wlk.
  - unfold after_showLoading. by wlk.
Qed.

End TranslateBanners.

Lemma translate_success_banner_witness :
  let response :=
    JObj [ (lit "success", JBool true); (lit "processing_time", JNum (lit "0.5")) ] in
  let w := Sample.page (lit "Hello") (lit "old") in
  let w' := snd (App.handleTranslate (Sample.answering response) w) in
  currentOutputText (app w') = JUndefined /\
  value <$> dom w' !! "outputText" = Some (lit "undefined") /\
  shows ([10003%N] ++ lit " Translated in 0.5s") UI.TSuccess w'.
Proof.
  intros response w w'. subst w'.
  destruct (translate_success_banner (Sample.answering response) response w
              (with_value (lit "Hello") Sample.element)
              (with_value (lit "old") Sample.element)
              (with_value (lit "en") Sample.element)
              (with_value (lit "hi") Sample.element)
              (with_value (lit "m1") Sample.element))
    with (success := JBool true) (text := JUndefined) (time := JNum (lit "0.5"))
    as (_ & H1 & H2 & H3 & _);
    [eval_now | eval_now | eval_some | eval_now | eval_now | eval_now
    | apply not_blank_nonempty; eval_now | eval_some | eval_some
    | intros req; reflexivity | eval_now | eval_now | eval_now | eval_now |].
  assert (Hcr : no_cr (to_value_string JUndefined))
    by (apply (bool_decide_unpack _); vm_compute; exact I).
  split_and!;
    [exact (H1 eq_refl) | exact (H2 eq_refl Hcr) | exact (H3 eq_refl eq_refl)].
Defined.

Lemma translate_failure_banner_witness :
  let w := Sample.page (lit "Hello") (lit "old") in
  let w' := snd (App.handleTranslate (Sample.answering Sample.failed) w) in
  shows (lit "No model") UI.TError w' /\
  value <$> dom w' !! "outputText" = Some [] /\
  dom w' !! "outputStats" = Some Sample.element.
Proof.
  intros w w'. subst w'.
  destruct (translate_failure_banner (Sample.answering Sample.failed)
              Sample.failed w
              (with_value (lit "Hello") Sample.element)
              (with_value (lit "old") Sample.element)
              (with_value (lit "en") Sample.element)
              (with_value (lit "hi") Sample.element)
              (with_value (lit "m1") Sample.element))
    as (H1 & _ & H2 & H3 & H4);
    [eval_now | eval_now | eval_some | eval_now | eval_now | eval_now
    | apply not_blank_nonempty; eval_now | eval_some | eval_some
    | intros req; reflexivity | exists (JBool false); split; eval_now |].
  split_and!; [| exact H3 | rewrite H4; eval_now].
  rewrite <- (H2 (lit "No model")); [apply H1; eval_now | eval_now | discriminate].
Defined.

Section FailureBanners.

Variables (net : Request -> API.FetchOutcome).
Variables (w : World) (output model : Element) (text : ustring).

Hypothesis Hinput : is_Some (dom w !! "inputText").
Hypothesis Houtput : dom w !! "outputText" = Some output.
Hypothesis Hbutton : is_Some (dom w !! "summarizeBtn").
Hypothesis Hmodel : dom w !! "summaryModel" = Some model.
Hypothesis Hchosen : chosen_text w = Some text.
Hypothesis Hlength : (50 <= length (trim text))%nat.
Hypothesis Hbar : is_Some (dom w !! "statusBar").
Hypothesis Hmessage : is_Some (dom w !! "statusMessage").

(** X12. On a failure response to a summarize request whose [error] has
    a string form the banner shows it, in the error style, or
    "Summarization failed" when the response has no [error] or an empty
    one; whatever the [error], the handler ends normally and the copy and
    download buttons stay as they were. *)
Theorem summarize_failure_banner (response : JSValue) :
  answers net response ->
  failure_response response ->
  let w' := snd (App.handleSummarize net w) in
  fst (App.handleSummarize net w) = Normal tt /\
  (printable (default JUndefined (prop response (lit "error"))) = true ->
   shows (failure_text response (lit "Summarization failed")) UI.TError w') /\
  (forall error, prop response (lit "error") = Some error ->
     truthy error = false ->
     failure_text response (lit "Summarization failed")
     = lit "Summarization failed") /\
  (forall e, prop response (lit "error") = Some (JStr e) -> e <> [] ->
     failure_text response (lit "Summarization failed") = e) /\
  dom w' !! "copyOutput" = dom w !! "copyOutput" /\
  dom w' !! "downloadOutput" = dom w !! "downloadOutput".
Proof.
  intros Hnet Hfail w'. subst w'.
  rewrite (handleSummarize_failure_eq net response (answers_delivers _ _ Hnet)
             w output Houtput text model Hinput Hbutton Hmodel Hchosen Hlength
             Hfail).
  cbn [fst snd]. split_and!.
  - done.
  - intros _. apply shows_after_hide; try done; cbn [dom with_requests];
      by apply after_showLoading_keeps.
  - intros error. apply failure_text_fallback.
  - intros e. apply failure_text_error.
  - unfold after_showLoading. by wlk.
  - unfold after_showLoading. by wlk.
Qed.

(** X13. When the backend cannot be reached, or does not answer in JSON,
    a summarize action ends normally and shows, in the error style, the
    message of the transport client: "Failed to connect to server. Please
    ensure the backend is running."; the output area keeps its text. *)
Theorem summarize_unreachable :
  unreachable net ->
  let w' := snd (App.handleSummarize net w) in
  fst (App.handleSummarize net w) = Normal tt /\
  shows (lit "Failed to connect to server. Please ensure the backend is running.")
    UI.TError w' /\
  dom w' !! "outputText" = dom w !! "outputText".
Proof.
  intros Hnet w'. subst w'.
  rewrite (handleSummarize_failure_eq net API.connect_failure
             (unreachable_delivers _ Hnet)
             w output Houtput text model Hinput Hbutton Hmodel Hchosen Hlength
             ltac:(exists (JBool false); split; eval_now)).
  cbn [fst snd]. split_and!.
  - done.
  - change (lit "Failed to connect to server. Please ensure the backend is running.")
      with (failure_text API.connect_failure (lit "Summarization failed")).
    apply shows_after_hide; try done; cbn [dom with_requests];
      by apply after_showLoading_keeps.
  - unfold after_showLoading. by wlk.
Qed.

End FailureBanners.

Lemma summarize_failure_banner_witness :
  let response := JObj [ (lit "success", JBool false) ] in
  let w := Sample.page Sample.long_text (lit "old") in
  let w' := snd (App.handleSummarize (Sample.answering response) w) in
  shows (lit "Summarization failed") UI.TError w'.
Proof.
  intros response w w'. subst w'.
  destruct (summarize_failure_banner (Sample.answering response) w
              (with_value (lit "old") Sample.element)
              (with_value (lit "m2") Sample.element) Sample.long_text)
    with (response := response)
    as (_ & H1 & H2 & _);
    [eval_some | eval_now | eval_some | eval_now | eval_now | vm_compute; lia
    | eval_some | eval_some | intros req; reflexivity
    | exists (JBool false); split; eval_now |].
  rewrite <- (H2 JUndefined); [apply H1; eval_now | eval_now | eval_now].
Defined.

Lemma summarize_unreachable_witness :
  let w := Sample.page Sample.long_text (lit "old") in
  let w' := snd (App.handleSummarize Sample.offline w) in
  shows (lit "Failed to connect to server. Please ensure the backend is running.")
    UI.TError w' /\
  value <$> dom w' !! "outputText" = Some (lit "old").
Proof.
  intros w w'. subst w'.
  destruct (summarize_unreachable Sample.offline w
              (with_value (lit "old") Sample.element)
              (with_value (lit "m2") Sample.element) Sample.long_text)
    as (_ & H1 & H2);
    [eval_some | eval_now | eval_some | eval_now | eval_now | vm_compute; lia
    | eval_some | eval_some
    | intros req; exists NetworkError; by left |].
  split; [exact H1 | rewrite H2; eval_now].
Defined.

(** ** UI.showStatus *)

(** X14. [showStatus] replaces the banner: whatever style and message the
    banner had, it then shows the new message in the new style only. It
    sets one timer to hide the banner, with the given delay, exactly when
    the duration is positive; with a duration of zero (or less) it sets
    none. Without the status bar or without its message element it does
    nothing. *)
Theorem showStatus_replaces (msg : ustring) (ty : UI.StatusType) (d : Z)
  (w : World) :
  fst (UI.showStatus msg ty d w) = Normal tt /\
  (is_Some (dom w !! "statusBar") -> is_Some (dom w !! "statusMessage") ->
   shows msg ty (snd (UI.showStatus msg ty d w)) /\
   timers (snd (UI.showStatus msg ty d w))
   = if (0 <? d)%Z then timers w ++ [(HideStatusBar, d)] else timers w) /\
  (dom w !! "statusBar" = None \/ dom w !! "statusMessage" = None ->
   snd (UI.showStatus msg ty d w) = w).
Proof.
  split_and!.
  - apply showStatus_normal.
  - intros [bar Hb] [message Hm]. split; [by eapply showStatus_shows|].
    unfold UI.showStatus. destruct ty, (0 <? d)%Z; run; reflexivity.
  - intros H. by rewrite showStatus_absent.
Qed.

Lemma showStatus_replaces_witness :
  let w := Demo.with_element "statusBar"
             (with_classList {["error"; "show"]} Sample.element)
             (Sample.page [] []) in
  shows (lit "Translating...") UI.TInfo
    (snd (UI.showStatus (lit "Translating...") UI.TInfo 0 w)) /\
  timers (snd (UI.showStatus (lit "Translating...") UI.TInfo 0 w)) = [] /\
  timers (snd (UI.showStatus (lit "Languages swapped") UI.TSuccess 1500 w))
  = [(HideStatusBar, 1500%Z)].
Proof.
  intros w.
  destruct (showStatus_replaces (lit "Translating...") UI.TInfo 0 w)
    as (_ & H1 & _).
  destruct (showStatus_replaces (lit "Languages swapped") UI.TSuccess 1500 w)
    as (_ & H2 & _).
  destruct H1 as [H1 H1']; [eval_some | eval_some |].
  destruct H2 as [_ H2']; [eval_some | eval_some |].
  split_and!; [exact H1 | rewrite H1'; eval_now | rewrite H2'; eval_now].
Defined.

(** ** UI.populateLanguageDropdown: repetition and errors *)

Section PopulateMore.

Lemma iter_app f xs ys w :
  iter f (xs ++ ys) w = bind (iter f xs) (fun _ => iter f ys) w.
Proof.
  revert w. induction xs as [|x xs IH]; intros w.
  - reflexivity.
  - change (iter f ((x :: xs) ++ ys))
      with (bind (f x) (fun _ => iter f (xs ++ ys))).
    change (iter f (x :: xs)) with (bind (f x) (fun _ => iter f xs)).
    rewrite bind_bind. destruct (f x w) as [[[]|e|] w1] eqn:E.
    + rewrite !(bind_eq _ _ _ _ _ E). apply IH.
    + unfold bind at 1 2. by rewrite E.
    + unfold bind at 1 2. by rewrite E.
Qed.

Lemma add_language_null select excludeAuto w :
  UI.add_language select excludeAuto JNull w = (Throw TypeError, w).
Proof. unfold UI.add_language. by destruct excludeAuto. Qed.

(** X15. Populating a selector replaces its options: after any number of
    earlier populations, the selector holds exactly one option for each
    record of the last sequence that is kept, in order, so loading the
    languages again never duplicates an option. A selector that is not on
    the page is skipped without error. *)
Theorem populateLanguageDropdown_replaces select (w : World)
  (vs0 vs : list JSValue) (ls0 ls : list Language) (ex0 ex : bool) :
  (Forall2 is_language vs0 ls0 -> Forall2 is_language vs ls ->
   is_Some (dom w !! select) ->
   options_of select
     (snd (UI.populateLanguageDropdown select (JArr vs) ex
             (snd (UI.populateLanguageDropdown select (JArr vs0) ex0 w))))
   = Some (map option_of (kept ex ls))) /\
  (dom w !! select = None ->
   UI.populateLanguageDropdown select (JArr vs) ex w = (Normal tt, w)).
Proof.
  split.
  - intros H0 H [e He].
    destruct (populateLanguageDropdown_run select ex0 vs0 ls0 w e H0 He)
      as (w1 & -> & Hopt & _). cbn [snd].
    unfold options_of in Hopt.
    destruct (dom w1 !! select) as [e1|] eqn:He1; [|done].
    destruct (populateLanguageDropdown_run select ex vs ls w1 e1 H He1)
      as (w2 & -> & Hopt2 & _). done.
  - intros H. unfold UI.populateLanguageDropdown. by run.
Qed.

(** The run of [populateLanguageDropdown] on a value that is not an
    array. *)
Lemma populateLanguageDropdown_not_array select (w : World) (e : Element)
  (ex : bool) v :
  dom w !! select = Some e -> (forall xs, v <> JArr xs) ->
  UI.populateLanguageDropdown select v ex w
  = (Throw TypeError, with_dom (<[select := with_options [] e]> (dom w)) w).
Proof.
  intros He Hv. unfold UI.populateLanguageDropdown. run.
  destruct v; try reflexivity. by destruct (Hv xs).
Qed.

(** X16. Populating a selector from a value that is not an array throws a
    TypeError after the selector has been emptied of its options, every
    other element being as it was; and a [null] entry in the array throws
    a TypeError at that entry, leaving in the selector the options of the
    records before it and none of those after it. *)
Theorem populateLanguageDropdown_errors select (w : World) (e : Element)
  (ex : bool) :
  dom w !! select = Some e ->
  (forall v, (forall xs, v <> JArr xs) ->
     fst (UI.populateLanguageDropdown select v ex w) = Throw TypeError /\
     options_of select (snd (UI.populateLanguageDropdown select v ex w))
     = Some [] /\
     (forall id, id <> select ->
        dom (snd (UI.populateLanguageDropdown select v ex w)) !! id
        = dom w !! id)) /\
  (forall vs ls rest, Forall2 is_language vs ls ->
     fst (UI.populateLanguageDropdown select (JArr (vs ++ JNull :: rest)) ex w)
     = Throw TypeError /\
     options_of select
       (snd (UI.populateLanguageDropdown select (JArr (vs ++ JNull :: rest)) ex w))
     = Some (map option_of (kept ex ls))).
Proof.
  intros He. split.
  - intros v Hv. rewrite (populateLanguageDropdown_not_array _ _ _ _ _ He Hv).
    cbn [fst snd]. split_and!; [done | |].
    + unfold options_of. cbn [dom with_dom]. by rewrite lookup_insert_eq.
    + intros id Hid. cbn [dom with_dom]. by rewrite lookup_insert_ne.
  - intros vs ls rest Hls. unfold UI.populateLanguageDropdown. run.
    cbn [forEach]. rewrite iter_app.
    destruct (iter_add_language_run select ex vs ls Hls
                (with_dom (<[select := with_options [] e]> (dom w)) w)
                (with_options [] e)) as (w1 & Hrun & Hlook & _); [by lk|].
    rewrite (bind_eq _ _ _ _ _ Hrun). cbn [iter].
    unfold bind. rewrite add_language_null. cbn [fst snd].
    unfold options_of. by rewrite Hlook.
Qed.

End PopulateMore.

Lemma populateLanguageDropdown_replaces_witness :
  let ls := [Sample.auto_detect; Sample.english; Sample.hindi] in
  let vs := map language_value ls in
  options_of "targetLanguage"
    (snd (UI.populateLanguageDropdown "targetLanguage" (JArr vs) true
            (snd (UI.populateLanguageDropdown "targetLanguage" (JArr vs) true
                    (Sample.page [] [])))))
  = Some [option_of Sample.english; option_of Sample.hindi].
Proof.
  intros ls vs.
  destruct (populateLanguageDropdown_replaces "targetLanguage"
              (Sample.page [] []) vs vs ls ls true true) as [H _].
  rewrite H; [eval_now | repeat constructor | repeat constructor | eval_some].
Defined.

Lemma populateLanguageDropdown_errors_witness :
  let w := Sample.page [] [] in
  fst (UI.populateLanguageDropdown "sourceLanguage" (JStr (lit "en,hi")) false w)
  = Throw TypeError /\
  options_of "sourceLanguage"
    (snd (UI.populateLanguageDropdown "sourceLanguage"
            (JArr [language_value Sample.english; JNull;
                   language_value Sample.hindi]) false w))
  = Some [option_of Sample.english].
Proof.
  intros w.
  destruct (populateLanguageDropdown_errors "sourceLanguage" w
              (with_value (lit "en") Sample.element) false) as [H1 H2];
    [eval_now|].
  split.
  - destruct (H1 (JStr (lit "en,hi"))) as [H _]; [discriminate | exact H].
  - destruct (H2 [language_value Sample.english] [Sample.english]
                [language_value Sample.hindi]) as [_ H];
      [repeat constructor|].
    exact H.
Defined.

(** ** App.loadLanguages: failures *)

Section LoadLanguagesFailures.

Variable net : Request -> API.FetchOutcome.

Lemma try_catch_no_throw {A} (body : M A) handler w :
  (forall e w', exists a, fst (handler e w') = Normal a) ->
  forall e, fst (try_catch body handler w) <> Throw e.
Proof.
  intros Hh e. unfold try_catch. destruct (body w) as [[a|e'|] w1]; try done.
  destruct (Hh e' w1) as [a Ha]. by rewrite Ha.
Qed.

Lemma get_returns response w :
  fst (API.get net (lit "/languages") w) = Normal response ->
  API.get net (lit "/languages") w
  = (Normal response,
     with_requests (requests w ++ [get_request (lit "/languages")]) w).
Proof. rewrite get_unfold. cbn [fst]. by intros ->. Qed.

(** The run of [loadLanguages] when the response is refused. *)
Lemma loadLanguages_refused response success w :
  fst (API.get net (lit "/languages") w) = Normal response ->
  prop response (lit "success") = Some success ->
  (truthy success = false \/
   exists l, prop response (lit "languages") = Some l /\ truthy l = false) ->
  App.loadLanguages net w
  = (Normal tt,
     snd (UI.showStatus (lit "Failed to load languages") UI.TError
            UI.default_duration
            (with_requests (requests w ++ [get_request (lit "/languages")]) w))).
Proof.
  intros Hget Hs Hcase. unfold App.loadLanguages, API.getLanguages.
  rewrite (try_catch_normal _ _ _ tt);
    rewrite (bind_eq _ _ _ _ _ (get_returns _ _ Hget));
    rewrite (get_prop_some _ _ _ Hs); run.
  - destruct (truthy success) eqn:Ht.
    + destruct Hcase as [|(l & Hl & Hlt)]; [done|].
      rewrite (get_prop_some _ _ _ Hl). run. rewrite Hlt.
      apply showStatus_pair.
    + run. rewrite Ht. apply showStatus_pair.
  - destruct (truthy success) eqn:Ht.
    + destruct Hcase as [|(l & Hl & Hlt)]; [done|].
      rewrite (get_prop_some _ _ _ Hl). run. rewrite Hlt.
      apply showStatus_normal.
    + run. rewrite Ht. apply showStatus_normal.
Qed.

(** X17. [loadLanguages] never throws. When the transport client returns
    a response whose [success] is falsy (as it does itself when the
    backend cannot be reached) or whose [languages] is missing or falsy,
    the banner shows "Failed to load languages" (not the message of the
    response), and the language list of the session state and every
    element but the banner stay as they were. *)
Theorem loadLanguages_failure (w : World) :
  (forall e, fst (App.loadLanguages net w) <> Throw e) /\
  (forall response success,
     fst (API.get net (lit "/languages") w) = Normal response ->
     prop response (lit "success") = Some success ->
     (truthy success = false \/
      exists l, prop response (lit "languages") = Some l /\ truthy l = false) ->
     let w' := snd (App.loadLanguages net w) in
     fst (App.loadLanguages net w) = Normal tt /\
     languages (app w') = languages (app w) /\
     (forall id, id <> "statusBar" -> id <> "statusMessage" ->
        dom w' !! id = dom w !! id) /\
     (is_Some (dom w !! "statusBar") -> is_Some (dom w !! "statusMessage") ->
      shows (lit "Failed to load languages") UI.TError w')).
Proof.
  split.
  - apply try_catch_no_throw. intros e w'. exists tt. apply showStatus_normal.
  - intros response success Hget Hs Hcase w'. subst w'.
    rewrite (loadLanguages_refused response success w Hget Hs Hcase).
    cbn [fst snd]. split_and!.
    + done.
    + by rewrite showStatus_app.
    + intros id H1 H2. by rewrite showStatus_lookup.
    + intros [bar Hb] [message Hm]. by eapply showStatus_shows.
Qed.

(** X18. When the response says success but its [languages] is a value
    other than an array (a string, a number, an object), [loadLanguages]
    still ends normally: the session state has taken the value, the source
    selector has been emptied, and the banner shows "Error loading
    languages". *)
Theorem loadLanguages_malformed (w : World) (response success l : JSValue) :
  fst (API.get net (lit "/languages") w) = Normal response ->
  prop response (lit "success") = Some success ->
  truthy success = true ->
  prop response (lit "languages") = Some l ->
  truthy l = true ->
  (forall xs, l <> JArr xs) ->
  is_Some (dom w !! "sourceLanguage") ->
  let w' := snd (App.loadLanguages net w) in
  fst (App.loadLanguages net w) = Normal tt /\
  languages (app w') = l /\
  options_of "sourceLanguage" w' = Some [] /\
  (is_Some (dom w !! "statusBar") -> is_Some (dom w !! "statusMessage") ->
   shows (lit "Error loading languages") UI.TError w').
Proof.
  intros Hget Hs Ht Hl Hlt Hna [source Hsrc] w'. subst w'.
  set (w1 := with_app
               {| languages := l;
                  currentInputText := currentInputText (app w);
                  currentOutputText := currentOutputText (app w) |}
               (with_requests (requests w ++ [get_request (lit "/languages")]) w)).
  assert (Hrun : App.loadLanguages net w
    = UI.showStatus (lit "Error loading languages") UI.TError
        UI.default_duration
        (with_dom (<["sourceLanguage" := with_options [] source]> (dom w1)) w1)).
  { unfold App.loadLanguages, API.getLanguages, try_catch.
    rewrite (bind_eq _ _ _ _ _ (get_returns _ _ Hget)).
    rewrite (get_prop_some _ _ _ Hs). run. rewrite Ht.
    rewrite !(get_prop_some _ _ _ Hl). run. rewrite Hlt.
    unfold App.set_languages. run. rewrite bind_get_languages.
    cbn [app with_app languages].
    unfold bind.
    match goal with
    | |- context [UI.populateLanguageDropdown "sourceLanguage" l false ?W] =>
        rewrite (populateLanguageDropdown_not_array "sourceLanguage" W
                   source false l ltac:(by lk) Hna)
    end.
    reflexivity. }
  rewrite Hrun. split_and!.
  - apply showStatus_normal.
  - by rewrite showStatus_app.
  - unfold options_of. rewrite showStatus_lookup by done.
    cbn [dom with_dom]. by rewrite lookup_insert_eq.
  - intros Hb Hm.
    assert (Hk : forall id, is_Some (dom w !! id) ->
              is_Some (dom (with_dom
                              (<["sourceLanguage" := with_options [] source]>
                                 (dom w1)) w1) !! id))
      by (intros id H; cbn [dom with_dom]; by apply keeps_insert).
    destruct (Hk _ Hb) as [bar Hb']. destruct (Hk _ Hm) as [message Hm'].
    by eapply showStatus_shows.
Qed.

End LoadLanguagesFailures.

Lemma loadLanguages_failure_witness :
  let w := Sample.page [] [] in
  let w' := snd (App.loadLanguages Sample.offline w) in
  fst (App.loadLanguages Sample.offline w) = Normal tt /\
  languages (app w') = JArr [] /\
  shows (lit "Failed to load languages") UI.TError w'.
Proof.
  intros w w'. subst w'.
  destruct (loadLanguages_failure Sample.offline w) as [_ H].
  destruct (H API.connect_failure (JBool false)) as (H1 & H2 & _ & H3);
    [eval_now | eval_now | left; eval_now |].
  split_and!; [exact H1 | rewrite H2; eval_now | apply H3; eval_some].
Defined.

Lemma loadLanguages_malformed_witness :
  let response :=
    JObj [ (lit "success", JBool true); (lit "languages", JStr (lit "en,hi")) ] in
  let w := Sample.page [] [] in
  let w' := snd (App.loadLanguages (Sample.answering response) w) in
  fst (App.loadLanguages (Sample.answering response) w) = Normal tt /\
  languages (app w') = JStr (lit "en,hi") /\
  shows (lit "Error loading languages") UI.TError w'.
Proof.
  intros response w w'. subst w'.
  destruct (loadLanguages_malformed (Sample.answering response) w response
              (JBool true) (JStr (lit "en,hi")))
    as (H1 & H2 & _ & H3);
    [eval_now | eval_now | eval_now | eval_now | eval_now | discriminate
    | eval_some |].
  split_and!; [exact H1 | exact H2 | apply H3; eval_some].
Defined.

(** ** Defaults, clearing and typing *)

Section Defaults.

Lemma setDefaultLanguages_run w source target :
  dom w !! "sourceLanguage" = Some source ->
  dom w !! "targetLanguage" = Some target ->
  App.setDefaultLanguages w
  = (Normal tt,
     with_dom (<["targetLanguage" := with_value (lit "hi") target]>
                 (<["sourceLanguage" := with_value (lit "auto") source]> (dom w)))
       w).
Proof. intros Hs Ht. unfold App.setDefaultLanguages. by run. Qed.

(** X19. On selectors that offer them, [setDefaultLanguages] selects
    "auto" as source and "hi" as target, and nothing else changes; a swap
    asked for right after is refused: the selection stays ("auto", "hi")
    and the banner shows "Cannot swap with auto-detect". *)
Theorem defaults_then_swap (w : World) (source target : Element) :
  dom w !! "sourceLanguage" = Some source ->
  dom w !! "targetLanguage" = Some target ->
  offers source (lit "auto") ->
  offers target (lit "hi") ->
  let w1 := snd (App.setDefaultLanguages w) in
  let w2 := snd (UI.swapLanguages w1) in
  fst (App.setDefaultLanguages w) = Normal tt /\
  selected w1 = Some (lit "auto", lit "hi") /\
  (forall id, id <> "sourceLanguage" -> id <> "targetLanguage" ->
     dom w1 !! id = dom w !! id) /\
  selected w2 = Some (lit "auto", lit "hi") /\
  (is_Some (dom w !! "statusBar") -> is_Some (dom w !! "statusMessage") ->
   shows (lit "Cannot swap with auto-detect") UI.TError w2).
Proof.
  intros Hs Ht _ _ w1 w2. subst w1 w2.
  rewrite (setDefaultLanguages_run w source target Hs Ht). cbn [fst snd].
  set (w1 := with_dom _ w).
  assert (Hsel : selected w1 = Some (lit "auto", lit "hi")).
  { subst w1. unfold selected. cbn [dom with_dom]. by lookups. }
  rewrite (swapLanguages_auto w1 _ Hsel). rewrite selected_showStatus.
  split_and!; [done | done | | done |].
  - intros id H1 H2. subst w1. cbn [dom with_dom]. by lookups.
  - intros [bar Hb] [message Hm].
    eapply showStatus_shows; subst w1; cbn [dom with_dom]; by lookups.
Qed.

Lemma clearInput_run w input :
  dom w !! "inputText" = Some input ->
  App.clearInput w
  = UI.updateStats "inputText" "inputStats"
      (with_app
         {| languages := languages (app w); currentInputText := [];
            currentOutputText := currentOutputText (app w) |}
         (with_dom (<["inputText" := with_value [] input]> (dom w)) w)).
Proof.
  intros Hi. unfold App.clearInput, App.set_currentInputText. by run.
Qed.

(** X20. The clear action empties the input area and the input text of
    the session state and makes the input stats read "Characters: 0 |
    Words: 0"; it leaves every other element, the current output text and
    the request log alone. Without the input area it does nothing. *)
Theorem clearInput_effects (w : World) :
  (is_Some (dom w !! "inputText") ->
   let w' := snd (App.clearInput w) in
   fst (App.clearInput w) = Normal tt /\
   value <$> dom w' !! "inputText" = Some [] /\
   currentInputText (app w') = [] /\
   currentOutputText (app w') = currentOutputText (app w) /\
   requests w' = requests w /\
   (is_Some (dom w !! "inputStats") ->
    textContent <$> dom w' !! "inputStats"
    = Some (lit "Characters: 0 | Words: 0")) /\
   (forall id, id <> "inputText" -> id <> "inputStats" ->
      dom w' !! id = dom w !! id)) /\
  (dom w !! "inputText" = None -> App.clearInput w = (Normal tt, w)).
Proof.
  split.
  - intros [input Hi] w'. subst w'. rewrite (clearInput_run w input Hi).
    split_and!.
    + apply updateStats_normal.
    + by wlk.
    + by wapp.
    + by wapp.
    + by rewrite (updateStats_same_requests "inputText" "inputStats" _).
    + intros [stats Hst].
      erewrite updateStats_lookup_stats by wlk. by wlookups.
    + intros id H1 H2. by wlk.
  - intros H. unfold App.clearInput. by run.
Qed.

(** X21. After an input event the input text of the session state equals
    the text of the input area, and the input stats show its character
    and word counts; nothing is sent and the output is untouched. *)
Theorem onInput_mirrors (w : World) (input : Element) :
  dom w !! "inputText" = Some input ->
  let w' := snd (App.onInput w) in
  fst (App.onInput w) = Normal tt /\
  currentInputText (app w') = value input /\
  value <$> dom w' !! "inputText" = Some (value input) /\
  requests w' = requests w /\
  dom w' !! "outputText" = dom w !! "outputText" /\
  (is_Some (dom w !! "inputStats") ->
   textContent <$> dom w' !! "inputStats"
   = Some (lit "Characters: " ++ dec (Z.of_nat (length (value input)))
           ++ lit " | Words: "
           ++ dec (Z.of_nat (token_count (trim (value input)))))).
Proof.
  intros Hi w'. subst w'.
  assert (Hrun : App.onInput w
    = UI.updateStats "inputText" "inputStats"
        (with_app
           {| languages := languages (app w);
              currentInputText := value input;
              currentOutputText := currentOutputText (app w) |} w)).
  { unfold App.onInput, App.set_currentInputText. by run. }
  rewrite Hrun. split_and!.
  - apply updateStats_normal.
  - by wapp.
  - wlookups. done.
  - by rewrite (updateStats_same_requests "inputText" "inputStats" _).
  - by wlk.
  - intros [stats Hst]. erewrite updateStats_lookup_stats by wlk.
    wlookups. cbn. unfold UI.stats_text. by rewrite wordCount_tokens.
Qed.

End Defaults.

Lemma defaults_then_swap_witness :
  let codes := [lit "auto"; lit "en"; lit "hi"] in
  let w := Demo.with_selects (Demo.select [] codes) (Demo.select [] codes)
             (Sample.page [] []) in
  selected (snd (App.setDefaultLanguages w)) = Some (lit "auto", lit "hi") /\
  selected (snd (UI.swapLanguages (snd (App.setDefaultLanguages w))))
  = Some (lit "auto", lit "hi") /\
  shows (lit "Cannot swap with auto-detect") UI.TError
    (snd (UI.swapLanguages (snd (App.setDefaultLanguages w)))).
Proof.
  intros codes w.
  destruct (defaults_then_swap w (Demo.select [] codes) (Demo.select [] codes))
    as (_ & H1 & _ & H2 & H3);
    [ eval_now | eval_now
    | right; exists {| opt_value := lit "auto"; opt_text := lit "auto" |};
      split; [vm_compute; repeat constructor | reflexivity]
    | right; exists {| opt_value := lit "hi"; opt_text := lit "hi" |};
      split; [vm_compute; repeat constructor | reflexivity] |].
  split_and!; [exact H1 | exact H2 | apply H3; eval_some].
Defined.

Lemma clearInput_effects_witness :
  let w := Sample.page (lit "Hello world") (lit "old") in
  value <$> dom (snd (App.clearInput w)) !! "inputText" = Some [] /\
  currentInputText (app (snd (App.clearInput w))) = [] /\
  textContent <$> dom (snd (App.clearInput w)) !! "inputStats"
  = Some (lit "Characters: 0 | Words: 0") /\
  App.clearInput Sample.empty = (Normal tt, Sample.empty).
Proof.
  intros w.
  destruct (clearInput_effects w) as [H _].
  destruct H as (_ & H1 & H2 & _ & _ & H3 & _); [eval_some|].
  destruct (clearInput_effects Sample.empty) as [_ H4].
  split_and!; [exact H1 | exact H2 | apply H3; eval_some | apply H4; eval_now].
Defined.

Lemma onInput_mirrors_witness :
  let w := Sample.page (lit "Hello world") [] in
  currentInputText (app (snd (App.onInput w))) = lit "Hello world" /\
  textContent <$> dom (snd (App.onInput w)) !! "inputStats"
  = Some (lit "Characters: 11 | Words: 2").
Proof.
  intros w.
  destruct (onInput_mirrors w (with_value (lit "Hello world") Sample.element))
    as (_ & H1 & _ & _ & _ & H2); [eval_now|].
  split; [exact H1 | rewrite H2 by eval_some; eval_now].
Defined.

(** ** UI.toggleSummarySection *)

Lemma with_classList_id (e : Element) : with_classList (classList e) e = e.
Proof. by destruct e. Qed.

Lemma with_dom_id (w : World) : with_dom (dom w) w = w.
Proof. by destruct w. Qed.

Lemma toggle_collapsed_twice (e : Element) :
  toggle_collapsed (toggle_collapsed e) = e.
Proof.
  destruct e as [v t d c o l]. unfold toggle_collapsed, with_classList.
  cbn [classList value textContent disabled btnText options]. f_equal.
  destruct (bool_decide ("collapsed" ∈ c)) eqn:E.
  - apply bool_decide_eq_true in E.
    rewrite bool_decide_eq_false_2 by set_solver.
    apply set_eq. intros x.
    destruct (decide (x = "collapsed")) as [->|]; set_solver.
  - apply bool_decide_eq_false in E.
    rewrite bool_decide_eq_true_2 by set_solver. set_solver.
Qed.

Lemma toggleSummarySection_run w section :
  dom w !! "summarySection" = Some section ->
  UI.toggleSummarySection w
  = (Normal tt,
     with_dom (<["summarySection" := toggle_collapsed section]> (dom w)) w).
Proof. intros H. unfold UI.toggleSummarySection. by run. Qed.

(** X22. Toggling the summary section twice gives back the page as it
    was: the class "collapsed" is added when it is missing and removed
    when it is there, and no other class or element is touched. Without
    the section the toggle does nothing. *)
Theorem toggleSummarySection_involution (w : World) :
  fst (UI.toggleSummarySection w) = Normal tt /\
  snd (UI.toggleSummarySection (snd (UI.toggleSummarySection w))) = w /\
  (forall section, dom w !! "summarySection" = Some section ->
     exists section',
       dom (snd (UI.toggleSummarySection w)) !! "summarySection" = Some section' /\
       ("collapsed" ∈ classList section' <-> "collapsed" ∉ classList section) /\
       (forall c, c <> "collapsed" ->
          c ∈ classList section' <-> c ∈ classList section)) /\
  (forall id, id <> "summarySection" ->
     dom (snd (UI.toggleSummarySection w)) !! id = dom w !! id).
Proof.
  destruct (dom w !! "summarySection") as [section|] eqn:Hs.
  - rewrite (toggleSummarySection_run w section Hs). cbn [fst snd].
    split_and!; [done | | |].
    + erewrite toggleSummarySection_run
        by (cbn [dom with_dom]; apply lookup_insert_eq).
      cbn [snd dom with_dom].
      rewrite toggle_collapsed_twice, insert_insert_eq, insert_id by done.
      by destruct w.
    + intros ? [= <-]. eexists. cbn [dom with_dom]. rewrite lookup_insert_eq.
      split; [done|]. unfold toggle_collapsed. cbn [classList with_classList].
      destruct (bool_decide ("collapsed" ∈ classList section)) eqn:E.
      * apply bool_decide_eq_true in E. set_solver.
      * apply bool_decide_eq_false in E. set_solver.
    + intros id Hid. cbn [dom with_dom]. by rewrite lookup_insert_ne.
  - assert (Hrun : UI.toggleSummarySection w = (Normal tt, w))
      by (unfold UI.toggleSummarySection; by run).
    rewrite !Hrun. cbn [fst snd]. rewrite Hrun. done.
Qed.

(** ** UI.updateStats: the word count *)

Lemma token_starts_app p a c b :
  is_ws c = true ->
  token_starts p (a ++ c :: b) = (token_starts p a + token_starts true b)%nat.
Proof.
  intros Hc. revert p.
  induction a as [|x a IH]; intros p;
    rewrite ?app_nil_l, <- ?app_comm_cons; cbn [token_starts].
  - by rewrite Hc.
  - destruct (is_ws x); rewrite IH; lia.
Qed.

Lemma token_starts_le p s : (token_starts p s <= length s)%nat.
Proof.
  revert p. induction s as [|c s IH]; intros p; cbn [token_starts length]; [lia|].
  destruct (is_ws c).
  - specialize (IH true). lia.
  - specialize (IH false). destruct p; lia.
Qed.

(** X23. The word count shown by [updateStats] does not depend on white
    space around the text, adds up when two texts are joined by a white
    space character, and never exceeds the number of characters. *)
Theorem wordCount_properties (a b pre post : ustring) (c : N) :
  (blank pre -> blank post ->
   UI.wordCount (pre ++ a ++ post) = UI.wordCount a) /\
  (is_ws c = true ->
   UI.wordCount (a ++ c :: b) = (UI.wordCount a + UI.wordCount b)%nat) /\
  (UI.wordCount a <= length a)%nat.
Proof.
  rewrite !wordCount_tokens, !token_count_trim. unfold token_count. split_and!.
  - intros Hpre Hpost.
    assert (Hl : forall s, token_starts true (pre ++ s) = token_starts true s).
    { intros s.
      induction Hpre as [|x pre Hx _ IH];
        rewrite ?app_nil_l, <- ?app_comm_cons; cbn [token_starts];
        [done | by rewrite Hx]. }
    rewrite Hl.
    assert (Hr : forall p, token_starts p (a ++ post) = token_starts p a).
    { induction a as [|x a' IH]; intros p;
        rewrite ?app_nil_l, <- ?app_comm_cons; cbn [token_starts].
      - revert p. induction Hpost as [|y post Hy _ IH]; intros p;
          cbn [token_starts]; [done | by rewrite Hy].
      - destruct (is_ws x); by rewrite IH. }
    apply Hr.
  - intros Hc. by apply token_starts_app.
  - apply token_starts_le.
Qed.

Lemma toggleSummarySection_involution_witness :
  let w := Demo.with_element "summarySection" Sample.element Sample.empty in
  snd (UI.toggleSummarySection (snd (UI.toggleSummarySection w))) = w /\
  exists section,
    dom (snd (UI.toggleSummarySection w)) !! "summarySection" = Some section /\
    "collapsed" ∈ classList section.
Proof.
  intros w.
  destruct (toggleSummarySection_involution w) as (_ & H1 & H2 & _).
  destruct (H2 Sample.element) as (section & Hs & Hc & _); [eval_now|].
  split; [exact H1|]. exists section. split; [exact Hs|].
  apply Hc. apply not_elem_of_empty.
Defined.

Lemma wordCount_properties_witness :
  UI.wordCount (lit "  " ++ lit "a b" ++ lit " ") = UI.wordCount (lit "a b") /\
  UI.wordCount (lit "a b" ++ 32%N :: lit "c")
  = (UI.wordCount (lit "a b") + UI.wordCount (lit "c"))%nat.
Proof.
  destruct (wordCount_properties (lit "a b") (lit "c") (lit "  ") (lit " ") 32)
    as (H1 & H2 & _).
  split.
  - apply H1; unfold blank; vm_compute; repeat constructor.
  - apply H2. vm_compute. reflexivity.
Defined.

(** ** UI.toggleTheme and UI.loadTheme *)

Lemma eqb_true a b : Str.eqb a b = true <-> a = b.
Proof. unfold Str.eqb. apply bool_decide_eq_true. Qed.

Lemma eqb_false a b : Str.eqb a b = false <-> a <> b.
Proof. unfold Str.eqb. apply bool_decide_eq_false. Qed.

Lemma light_not_dark : lit "light" <> lit "dark".
Proof. vm_compute. discriminate. Qed.

(** The run of [toggleTheme], [t] being the theme it sets. *)
Lemma toggleTheme_run t w theme store st icon cb dl ls :
  (theme = Some (lit "dark") /\ t = lit "light") \/
  (theme <> Some (lit "dark") /\ t = lit "dark") ->
  Browser.toggleTheme
    {| Browser.world := w; Browser.data_theme := theme;
       Browser.localStorage := store; Browser.storage := st;
       Browser.theme_icon := icon; Browser.clipboard := cb;
       Browser.downloads := dl; Browser.listeners := ls |}
  = (match st with
     | Browser.StorageOpen => Normal tt
     | Browser.StorageFull => Throw QuotaExceededError
     | Browser.StorageBlocked => Throw SecurityError
     end,
     {| Browser.world := w; Browser.data_theme := Some t;
        Browser.localStorage :=
          match st with
          | Browser.StorageOpen => <["theme" := t]> store
          | _ => store
          end;
        Browser.storage := st;
        Browser.theme_icon :=
          match st, icon with
          | Browser.StorageOpen, Some _ => Some (Browser.icon_for t)
          | _, _ => icon
          end;
        Browser.clipboard := cb; Browser.downloads := dl;
        Browser.listeners := ls |}).
Proof.
  intros H. unfold Browser.toggleTheme.
  cbn [Browser.data_theme Browser.storage].
  assert (Ht : match theme with
               | Some t0 =>
                   if Str.eqb t0 (lit "dark") then lit "light" else lit "dark"
               | None => lit "dark"
               end = t).
  { destruct H as [[-> ->]|[H ->]].
    - by rewrite (proj2 (eqb_true _ _) eq_refl).
    - destruct theme as [t0|]; [|done].
      rewrite (proj2 (eqb_false t0 (lit "dark"))); [done | congruence]. }
  rewrite Ht. by destruct st, icon.
Qed.

(** X24. A click on the theme toggle gives the page the dark theme unless
    the page is dark, in which case it gives the light one, and changes no
    element with an id; a second click changes the theme again and a third
    gives back the state after the first. The click ends normally exactly
    when the storage takes the write: the theme is then stored under
    "theme" as it is set on the page, and the icon (when the page has one)
    is the sun for dark and the moon for light. When the storage refuses,
    the click throws after the theme of the page has changed: nothing is
    stored and the icon stays as it was. *)
Theorem toggleTheme_alternates (b : Browser.State) :
  let b1 := snd (Browser.toggleTheme b) in
  let b2 := snd (Browser.toggleTheme b1) in
  (fst (Browser.toggleTheme b) = Normal tt
   <-> Browser.storage b = Browser.StorageOpen) /\
  (Browser.data_theme b1 = Some (lit "light")
   <-> Browser.data_theme b = Some (lit "dark")) /\
  (Browser.data_theme b1 = Some (lit "dark")
   <-> Browser.data_theme b <> Some (lit "dark")) /\
  Browser.world b1 = Browser.world b /\
  Browser.data_theme b2 <> Browser.data_theme b1 /\
  snd (Browser.toggleTheme b2) = b1 /\
  (Browser.storage b = Browser.StorageOpen ->
   Browser.localStorage b1 !! "theme" = Browser.data_theme b1 /\
   (is_Some (Browser.theme_icon b) ->
    Browser.theme_icon b1
    = Some (if decide (Browser.data_theme b1 = Some (lit "dark"))
            then Browser.sun else Browser.moon)) /\
   (Browser.theme_icon b = None -> Browser.theme_icon b1 = None)) /\
  (Browser.storage b <> Browser.StorageOpen ->
   (exists e, fst (Browser.toggleTheme b) = Throw e) /\
   Browser.localStorage b1 = Browser.localStorage b /\
   Browser.theme_icon b1 = Browser.theme_icon b).
Proof.
  pose proof light_not_dark as Hld.
  assert (Hdl : Some (lit "light") <> Some (lit "dark")) by congruence.
  assert (Hsun : Browser.icon_for (lit "dark") = Browser.sun)
    by (unfold Browser.icon_for; by rewrite (proj2 (eqb_true _ _) eq_refl)).
  assert (Hmoon : Browser.icon_for (lit "light") = Browser.moon)
    by (unfold Browser.icon_for; by rewrite (proj2 (eqb_false _ _) Hld)).
  destruct b as [w theme store st icon cb dl ls]. cbn zeta.
  destruct (decide (theme = Some (lit "dark"))) as [Ht|Ht].
  - rewrite (toggleTheme_run (lit "light")) by auto. cbn [fst snd].
    rewrite (toggleTheme_run (lit "dark")) by auto. cbn [snd].
    rewrite (toggleTheme_run (lit "light")) by auto.
    cbn [fst snd Browser.data_theme Browser.localStorage Browser.theme_icon
         Browser.world Browser.storage].
    split_and!.
    + by destruct st.
    + split; congruence.
    + split; congruence.
    + reflexivity.
    + congruence.
    + destruct st, icon; by rewrite ?insert_insert_eq.
    + intros ->. rewrite lookup_insert_eq, Hmoon. split_and!.
      * reflexivity.
      * intros [i ->]. by rewrite decide_False by congruence.
      * by intros ->.
    + intros Hst. split_and!.
      * destruct st; [done | by eexists | by eexists].
      * by destruct st.
      * by destruct st, icon.
  - rewrite (toggleTheme_run (lit "dark")) by auto. cbn [fst snd].
    rewrite (toggleTheme_run (lit "light")) by auto. cbn [snd].
    rewrite (toggleTheme_run (lit "dark")) by auto.
    cbn [fst snd Browser.data_theme Browser.localStorage Browser.theme_icon
         Browser.world Browser.storage].
    split_and!.
    + by destruct st.
    + split; congruence.
    + split; congruence.
    + reflexivity.
    + congruence.
    + destruct st, icon; by rewrite ?insert_insert_eq.
    + intros ->. rewrite lookup_insert_eq, Hsun. split_and!.
      * reflexivity.
      * intros [i ->]. by rewrite decide_True by congruence.
      * by intros ->.
    + intros Hst. split_and!.
      * destruct st; [done | by eexists | by eexists].
      * by destruct st.
      * by destruct st, icon.
Qed.

Lemma toggleTheme_alternates_witness :
  let b := Demo.browser Sample.empty in
  Browser.data_theme (snd (Browser.toggleTheme b)) = Some (lit "dark") /\
  Browser.theme_icon (snd (Browser.toggleTheme b)) = Some Browser.sun /\
  Browser.localStorage (snd (Browser.toggleTheme (Demo.blocked b))) = ∅.
Proof.
  intros b.
  destruct (toggleTheme_alternates b) as (_ & _ & H1 & _ & _ & _ & H2 & _).
  destruct H2 as (_ & H2 & _); [reflexivity|].
  destruct (toggleTheme_alternates (Demo.blocked b))
    as (_ & _ & _ & _ & _ & _ & _ & H3).
  destruct H3 as (_ & H3 & _); [discriminate|].
  assert (Hd : Browser.data_theme (snd (Browser.toggleTheme b))
               = Some (lit "dark"))
    by (apply H1; intros H; vm_compute in H; discriminate H).
  split_and!; [exact Hd | | rewrite H3; reflexivity].
  rewrite H2 by eval_some. by rewrite decide_True by exact Hd.
Defined.

Lemma toggleTheme_stored b :
  Browser.storage b = Browser.StorageOpen ->
  exists t, (t = lit "light" \/ t = lit "dark") /\
    Browser.data_theme (snd (Browser.toggleTheme b)) = Some t /\
    Browser.localStorage (snd (Browser.toggleTheme b)) !! "theme" = Some t /\
    (is_Some (Browser.theme_icon b) ->
     Browser.theme_icon (snd (Browser.toggleTheme b))
     = Some (Browser.icon_for t)).
Proof.
  destruct b as [w theme store st icon cb dl ls]. cbn [Browser.storage].
  intros ->.
  destruct (decide (theme = Some (lit "dark"))) as [Ht|Ht].
  - exists (lit "light"). rewrite (toggleTheme_run (lit "light")) by auto.
    cbn [snd Browser.data_theme Browser.localStorage Browser.theme_icon].
    rewrite lookup_insert_eq. split_and!; auto. by intros [i ->].
  - exists (lit "dark"). rewrite (toggleTheme_run (lit "dark")) by auto.
    cbn [snd Browser.data_theme Browser.localStorage Browser.theme_icon].
    rewrite lookup_insert_eq. split_and!; auto. by intros [i ->].
Qed.

Lemma nonempty_theme t : t = lit "light" \/ t = lit "dark" -> nonempty t = true.
Proof. by intros [-> | ->]. Qed.

(** The run of [loadTheme] when the storage can be read, [t] being the
    theme it sets. *)
Lemma loadTheme_run t w theme store st icon cb dl ls :
  st <> Browser.StorageBlocked ->
  theme_of (store !! "theme") = t ->
  Browser.loadTheme
    {| Browser.world := w; Browser.data_theme := theme;
       Browser.localStorage := store; Browser.storage := st;
       Browser.theme_icon := icon; Browser.clipboard := cb;
       Browser.downloads := dl; Browser.listeners := ls |}
  = (Normal tt,
     {| Browser.world := w; Browser.data_theme := Some t;
        Browser.localStorage := store; Browser.storage := st;
        Browser.theme_icon :=
          match icon with
          | Some _ => Some (Browser.icon_for t)
          | None => None
          end;
        Browser.clipboard := cb; Browser.downloads := dl;
        Browser.listeners := ls |}).
Proof.
  intros Hst <-. unfold Browser.loadTheme, theme_of.
  cbn [Browser.localStorage Browser.storage].
  by destruct st, icon.
Qed.

Lemma loadTheme_blocked b :
  Browser.storage b = Browser.StorageBlocked ->
  Browser.loadTheme b = (Throw SecurityError, b).
Proof. intros H. unfold Browser.loadTheme. by rewrite H. Qed.

(** X25. [loadTheme] ends normally exactly when the storage can be read;
    when it is closed to the page, [loadTheme] throws a SecurityError and
    leaves the page as it is. It writes nothing to the storage and changes
    no element with an id; run again it changes nothing. On a page loaded
    with the storage a click on the theme toggle left behind it sets the
    theme of that click, with the same icon; with no theme stored, or an
    empty one, it sets the light theme and the moon. *)
Theorem loadTheme_restores (b fresh : Browser.State) :
  let b1 := snd (Browser.toggleTheme b) in
  let b' := snd (Browser.loadTheme fresh) in
  (fst (Browser.loadTheme fresh) = Normal tt
   <-> Browser.storage fresh <> Browser.StorageBlocked) /\
  (Browser.storage fresh = Browser.StorageBlocked ->
   Browser.loadTheme fresh = (Throw SecurityError, fresh)) /\
  Browser.localStorage b' = Browser.localStorage fresh /\
  Browser.world b' = Browser.world fresh /\
  snd (Browser.loadTheme b') = b' /\
  (Browser.storage b = Browser.StorageOpen ->
   Browser.storage fresh <> Browser.StorageBlocked ->
   Browser.localStorage fresh = Browser.localStorage b1 ->
   Browser.data_theme b' = Browser.data_theme b1 /\
   (is_Some (Browser.theme_icon b) -> is_Some (Browser.theme_icon fresh) ->
    Browser.theme_icon b' = Browser.theme_icon b1)) /\
  (Browser.storage fresh <> Browser.StorageBlocked ->
   Browser.localStorage fresh !! "theme" = None \/
   Browser.localStorage fresh !! "theme" = Some ([] : ustring) ->
   Browser.data_theme b' = Some (lit "light") /\
   (is_Some (Browser.theme_icon fresh) ->
    Browser.theme_icon b' = Some Browser.moon)).
Proof.
  intros b1 b'. subst b1 b'.
  assert (Hcases : Browser.storage fresh = Browser.StorageBlocked \/
                   Browser.storage fresh <> Browser.StorageBlocked)
    by (destruct (Browser.storage fresh); auto).
  destruct Hcases as [Hblocked|Hopen].
  - rewrite !(loadTheme_blocked fresh Hblocked). cbn [fst snd].
    rewrite (loadTheme_blocked fresh Hblocked). cbn [snd].
    by split_and!.
  - destruct fresh as [w theme store st icon cb dl ls].
    cbn [Browser.storage Browser.localStorage Browser.theme_icon] in *.
    rewrite (loadTheme_run (theme_of (store !! "theme"))) by done.
    cbn [fst snd].
    rewrite (loadTheme_run (theme_of (store !! "theme"))) by done.
    cbn [snd Browser.data_theme Browser.localStorage Browser.theme_icon
         Browser.world].
    split_and!; try done.
    + by destruct icon.
    + intros Hb _ Hstore.
      destruct (toggleTheme_stored b Hb) as (t & Ht & Hth & Hst & Hic).
      rewrite <- Hstore in Hst. apply nonempty_theme in Ht.
      assert (Htheme : theme_of (store !! "theme") = t)
        by (unfold theme_of; by rewrite Hst, Ht).
      rewrite Htheme, Hth. split; [done|].
      intros Hi [i ->]. by rewrite (Hic Hi).
    + intros _ Hblank.
      assert (Hl : theme_of (store !! "theme") = lit "light")
        by (unfold theme_of; destruct Hblank as [Hb|Hb]; by rewrite Hb).
      rewrite Hl. split; [done|].
      intros [i ->]. unfold Browser.icon_for.
      by rewrite (proj2 (eqb_false _ _) light_not_dark).
Qed.

Lemma loadTheme_restores_witness :
  let b := Demo.browser Sample.empty in
  let fresh :=
    Browser.with_localStorage
      (Browser.localStorage (snd (Browser.toggleTheme b))) b in
  Browser.data_theme (snd (Browser.loadTheme fresh)) = Some (lit "dark") /\
  Browser.data_theme (snd (Browser.loadTheme b)) = Some (lit "light") /\
  Browser.loadTheme (Demo.blocked b) = (Throw SecurityError, Demo.blocked b).
Proof.
  intros b fresh.
  destruct (loadTheme_restores b fresh) as (_ & _ & _ & _ & _ & H1 & _).
  destruct H1 as [H1 _]; [reflexivity | discriminate | eval_now |].
  destruct (loadTheme_restores b b) as (_ & _ & _ & _ & _ & _ & H2).
  destruct H2 as [H2 _]; [discriminate | left; eval_now |].
  destruct (loadTheme_restores b (Demo.blocked b)) as (_ & H3 & _).
  split_and!; [rewrite H1; eval_now | exact H2 | apply H3; reflexivity].
Defined.

(** ** UI.copyToClipboard and App.handleCopy *)

Lemma with_world_id b : Browser.with_world (Browser.world b) b = b.
Proof. by destruct b. Qed.

Lemma lift_showStatus msg ty d b :
  Browser.lift (UI.showStatus msg ty d) b
  = (Normal tt,
     Browser.with_world (snd (UI.showStatus msg ty d (Browser.world b))) b).
Proof. unfold Browser.lift. by rewrite showStatus_normal. Qed.

Lemma bindB_getElementById {C} id (k : Ref -> Browser.B C) b :
  Browser.bindB (Browser.lift (getElementById id)) k b
  = k (ref_of id (Browser.world b)) b.
Proof.
  unfold Browser.bindB, Browser.lift, getElementById. cbn [fst snd].
  by rewrite with_world_id.
Qed.

Lemma bindB_read {A C} id (f : Element -> A) (k : A -> Browser.B C) b e :
  dom (Browser.world b) !! id = Some e ->
  Browser.bindB (Browser.lift (read (Some id) f)) k b = k (f e) b.
Proof.
  intros H. unfold Browser.bindB, Browser.lift, read. rewrite H.
  cbn [fst snd]. by rewrite with_world_id.
Qed.

Section Clipboard.

Variable clip : ustring -> Browser.ClipOutcome.

Lemma copyToClipboard_run text b :
  Browser.copyToClipboard clip text b
  = match clip text with
    | Browser.ClipResolves =>
        (Normal true,
         Browser.with_world
           (snd (UI.showStatus (App.check_mark ++ lit " Copied to clipboard!")
                   UI.TSuccess 2000 (Browser.world b)))
           (Browser.with_clipboard (Some text) b))
    | Browser.ClipRejects _ =>
        (Normal false,
         Browser.with_world
           (snd (UI.showStatus (lit "Failed to copy to clipboard") UI.TError
                   UI.default_duration (Browser.world b))) b)
    | Browser.ClipPending => (Pending, b)
    end.
Proof.
  unfold Browser.copyToClipboard, Browser.try_catchB, Browser.bindB,
    Browser.writeText.
  destruct (clip text) as [|e|]; rewrite ?lift_showStatus; reflexivity.
Qed.

(** X26. [copyToClipboard] never throws. It returns true exactly when
    the clipboard takes the text, which is then on the clipboard while the
    banner says so; when the clipboard refuses (or is missing) it returns
    false, the clipboard keeps what it held and the banner shows "Failed
    to copy to clipboard". Only the banner changes on the page. *)
Theorem copyToClipboard_outcomes (text : ustring) (b : Browser.State) :
  let r := Browser.copyToClipboard clip text b in
  (forall e, fst r <> Throw e) /\
  (fst r = Normal true <-> clip text = Browser.ClipResolves) /\
  (fst r = Normal false <-> exists e, clip text = Browser.ClipRejects e) /\
  (clip text = Browser.ClipResolves ->
   Browser.clipboard (snd r) = Some text /\
   (is_Some (dom (Browser.world b) !! "statusBar") ->
    is_Some (dom (Browser.world b) !! "statusMessage") ->
    shows (App.check_mark ++ lit " Copied to clipboard!") UI.TSuccess
      (Browser.world (snd r)))) /\
  (clip text <> Browser.ClipResolves ->
   Browser.clipboard (snd r) = Browser.clipboard b) /\
  (forall e, clip text = Browser.ClipRejects e ->
   is_Some (dom (Browser.world b) !! "statusBar") ->
   is_Some (dom (Browser.world b) !! "statusMessage") ->
   shows (lit "Failed to copy to clipboard") UI.TError
     (Browser.world (snd r))) /\
  (forall id, id <> "statusBar" -> id <> "statusMessage" ->
     dom (Browser.world (snd r)) !! id = dom (Browser.world b) !! id) /\
  Browser.downloads (snd r) = Browser.downloads b.
Proof.
  intros r. subst r. rewrite copyToClipboard_run.
  destruct (clip text) as [|e|] eqn:E; cbn [fst snd].
  - split_and!.
    + done.
    + done.
    + split; [done | by intros [? [=]]].
    + intros _. split; [done|]. intros [bar Hb] [message Hm].
      by eapply showStatus_shows.
    + done.
    + done.
    + intros id H1 H2. cbn [Browser.world Browser.with_world].
      by rewrite showStatus_lookup.
    + done.
  - split_and!.
    + done.
    + done.
    + split; [by eexists | done].
    + done.
    + done.
    + intros e' _ [bar Hb] [message Hm]. by eapply showStatus_shows.
    + intros id H1 H2. cbn [Browser.world Browser.with_world].
      by rewrite showStatus_lookup.
    + done.
  - split_and!.
    + done.
    + done.
    + split; [done | by intros [? [=]]].
    + done.
    + done.
    + done.
    + done.
    + done.
Qed.

Lemma handleCopy_run b :
  Browser.handleCopy clip b
  = (Normal tt,
     match dom (Browser.world b) !! "outputText" with
     | Some output =>
         if nonempty (value output)
         then snd (Browser.copyToClipboard clip (value output) b)
         else b
     | None => b
     end).
Proof.
  unfold Browser.handleCopy. rewrite bindB_getElementById. unfold ref_of.
  destruct (dom (Browser.world b) !! "outputText") as [output|] eqn:Ho;
    cbn [is_null]; [|reflexivity].
  rewrite (bindB_read _ _ _ _ _ Ho).
  destruct (nonempty (value output)); [|reflexivity].
  by rewrite (bindB_read _ _ _ _ _ Ho).
Qed.

(** X27. A click on the copy button never throws, whatever the clipboard
    does, and never changes the output area. It does nothing at all when
    the output area is missing or empty; otherwise it is the value of the
    output area, as it is, that goes to the clipboard when the clipboard
    takes it, and the clipboard keeps what it held when it does not. *)
Theorem handleCopy_copies_output (b : Browser.State) :
  let b' := snd (Browser.handleCopy clip b) in
  fst (Browser.handleCopy clip b) = Normal tt /\
  (forall output,
     dom (Browser.world b) !! "outputText" = Some output ->
     value output <> [] ->
     (clip (value output) = Browser.ClipResolves ->
      Browser.clipboard b' = Some (value output)) /\
     (clip (value output) <> Browser.ClipResolves ->
      Browser.clipboard b' = Browser.clipboard b)) /\
  (dom (Browser.world b) !! "outputText" = None \/
   (exists output, dom (Browser.world b) !! "outputText" = Some output /\
                   value output = []) ->
   b' = b) /\
  dom (Browser.world b') !! "outputText"
  = dom (Browser.world b) !! "outputText".
Proof.
  intros b'. subst b'. rewrite handleCopy_run. cbn [fst snd]. split_and!.
  - done.
  - intros output Ho Hv. rewrite Ho.
    assert (Hn : nonempty (value output) = true)
      by (by destruct (value output)).
    rewrite Hn. rewrite copyToClipboard_run.
    destruct (clip (value output)); by split.
  - intros [Ho|(output & Ho & Hv)]; rewrite Ho; [done|]. by rewrite Hv.
  - destruct (dom (Browser.world b) !! "outputText") as [output|] eqn:Ho;
      [|by rewrite Ho].
    destruct (nonempty (value output)); [|by rewrite Ho].
    rewrite copyToClipboard_run.
    destruct (clip (value output));
      cbn [snd Browser.world Browser.with_world];
      rewrite ?showStatus_lookup by done; done.
Qed.

End Clipboard.

Lemma copyToClipboard_outcomes_witness :
  let b := Demo.browser (Sample.page [] (lit "Hola")) in
  Browser.clipboard
    (snd (Browser.copyToClipboard Demo.clip_ok (lit "Hola") b))
  = Some (lit "Hola") /\
  fst (Browser.copyToClipboard Demo.clip_denied (lit "Hola") b)
  = Normal false /\
  shows (lit "Failed to copy to clipboard") UI.TError
    (Browser.world
       (snd (Browser.copyToClipboard Demo.clip_denied (lit "Hola") b))).
Proof.
  intros b.
  destruct (copyToClipboard_outcomes Demo.clip_ok (lit "Hola") b)
    as (_ & _ & _ & H1 & _).
  destruct (copyToClipboard_outcomes Demo.clip_denied (lit "Hola") b)
    as (_ & _ & H2 & _ & _ & H3 & _).
  split_and!.
  - apply H1. reflexivity.
  - apply H2. eexists. reflexivity.
  - apply (H3 TypeError); [reflexivity | eval_some | eval_some].
Defined.

Lemma handleCopy_copies_output_witness :
  let b := Demo.browser (Sample.page [] (lit "Hola")) in
  let b0 := Demo.browser (Sample.page [] []) in
  Browser.clipboard (snd (Browser.handleCopy Demo.clip_ok b))
  = Some (lit "Hola") /\
  snd (Browser.handleCopy Demo.clip_ok b0) = b0.
Proof.
  intros b b0.
  destruct (handleCopy_copies_output Demo.clip_ok b) as (_ & H1 & _).
  destruct (H1 (with_value (lit "Hola") Sample.element)) as [H _];
    [eval_now | vm_compute; discriminate |].
  destruct (handleCopy_copies_output Demo.clip_ok b0) as (_ & _ & H2 & _).
  split; [apply H; reflexivity|].
  apply H2. right. exists (with_value [] Sample.element). split; eval_now.
Defined.

(** ** UI.downloadText and App.handleDownload *)





(** ** App.setupEventListeners and App.init *)

#[local] Instance adds_none_preorder : PreOrder adds_none.
Proof. split; [by intros w id | intros w1 w2 w3 H1 H2 id H; auto]. Qed.

Lemma adds_none_write r f : preserves adds_none (write r f).
Proof.
  intros w. unfold write. destruct r as [id|]; [|reflexivity].
  destruct (dom w !! id) as [e|] eqn:E; [|reflexivity].
  intros id'. cbn [snd dom with_dom]. destruct (decide (id = id')) as [<-|Hne].
  - by rewrite E.
  - by rewrite lookup_insert_ne.
Qed.

#[local] Hint Resolve adds_none_write : pres.

Lemma showStatus_adds_none msg ty d : preserves adds_none (UI.showStatus msg ty d).
Proof. unfold UI.showStatus. pres. Qed.

Lemma populateLanguageDropdown_adds_none select v excludeAuto :
  preserves adds_none (UI.populateLanguageDropdown select v excludeAuto).
Proof. unfold UI.populateLanguageDropdown, UI.add_language. pres. Qed.

#[local] Hint Resolve showStatus_adds_none populateLanguageDropdown_adds_none
  populateLanguageDropdown_keeps : pres.

Section Init.

Variable net : Request -> API.FetchOutcome.

Lemma get_adds_none endpoint : preserves adds_none (API.get net endpoint).
Proof. intros w. rewrite get_unfold. by intros id. Qed.

Lemma get_languages_pres (R : relation World) `{!PreOrder R} :
  preserves R App.get_languages.
Proof. intros w. cbn [App.get_languages snd]. reflexivity. Qed.

Lemma loadLanguages_keeps : preserves keeps (App.loadLanguages net).
Proof.
  unfold App.loadLanguages, API.getLanguages, App.set_languages.
  repeat first [apply (get_languages_pres keeps) | apply get_keeps | pres_step].
Qed.

Lemma loadLanguages_adds_none : preserves adds_none (App.loadLanguages net).
Proof.
  unfold App.loadLanguages, API.getLanguages, App.set_languages.
  repeat first
    [apply (get_languages_pres adds_none) | apply get_adds_none | pres_step].
Qed.

Lemma loadLanguages_no_throw w e : fst (App.loadLanguages net w) <> Throw e.
Proof.
  apply try_catch_no_throw. intros e' w'. exists tt. apply showStatus_normal.
Qed.

Lemma setDefaultLanguages_normal w : fst (App.setDefaultLanguages w) = Normal tt.
Proof.
  unfold App.setDefaultLanguages.
  destruct (dom w !! "sourceLanguage") eqn:Hs,
    (dom w !! "targetLanguage") eqn:Ht; by run.
Qed.

Lemma setDefaultLanguages_keeps : preserves keeps App.setDefaultLanguages.
Proof. unfold App.setDefaultLanguages. pres. Qed.

Lemma setDefaultLanguages_adds_none : preserves adds_none App.setDefaultLanguages.
Proof. unfold App.setDefaultLanguages. pres. Qed.

Lemma setDefaultLanguages_values w :
  (forall source, dom w !! "sourceLanguage" = Some source ->
     dom (snd (App.setDefaultLanguages w)) !! "sourceLanguage"
     = Some (with_value (lit "auto") source)) /\
  (forall target, dom w !! "targetLanguage" = Some target ->
     dom (snd (App.setDefaultLanguages w)) !! "targetLanguage"
     = Some (with_value (lit "hi") target)).
Proof.
  unfold App.setDefaultLanguages.
  destruct (dom w !! "sourceLanguage") eqn:Hs,
    (dom w !! "targetLanguage") eqn:Ht; run; split; intros ? [=]; subst;
    cbn [dom with_dom]; by lookups.
Qed.

Lemma bind_listener_eq id ty l w theme store st icon cb dl ls :
  Browser.bind_listener id ty l
    {| Browser.world := w; Browser.data_theme := theme;
       Browser.localStorage := store; Browser.storage := st;
       Browser.theme_icon := icon;
       Browser.clipboard := cb; Browser.downloads := dl;
       Browser.listeners := ls |}
  = (Normal tt,
     {| Browser.world := w; Browser.data_theme := theme;
        Browser.localStorage := store; Browser.storage := st;
       Browser.theme_icon := icon;
        Browser.clipboard := cb; Browser.downloads := dl;
        Browser.listeners := ls ++ List.filter (on_page w) [(id, ty, l)] |}).
Proof.
  unfold Browser.bind_listener. rewrite bindB_getElementById.
  unfold ref_of, on_page. cbn [Browser.world List.filter fst].
  destruct (dom w !! id) as [e|] eqn:E; cbn [is_null negb].
  - by rewrite bool_decide_eq_true_2 by eauto.
  - rewrite bool_decide_eq_false_2 by (by intros [? [=]]).
    by rewrite app_nil_r.
Qed.

Lemma bind_listener_run {C} id ty l (k : unit -> Browser.B C)
  w theme store st icon cb dl ls :
  Browser.bindB (Browser.bind_listener id ty l) k
    {| Browser.world := w; Browser.data_theme := theme;
       Browser.localStorage := store; Browser.storage := st;
       Browser.theme_icon := icon;
       Browser.clipboard := cb; Browser.downloads := dl;
       Browser.listeners := ls |}
  = k tt
      {| Browser.world := w; Browser.data_theme := theme;
         Browser.localStorage := store; Browser.storage := st;
       Browser.theme_icon := icon;
         Browser.clipboard := cb; Browser.downloads := dl;
         Browser.listeners := ls ++ List.filter (on_page w) [(id, ty, l)] |}.
Proof. unfold Browser.bindB. by rewrite bind_listener_eq. Qed.

Lemma filter_cons_app {A} (P : A -> bool) x xs :
  List.filter P (x :: xs) = List.filter P [x] ++ List.filter P xs.
Proof. cbn [List.filter]. by destruct (P x). Qed.

Lemma setupEventListeners_run w theme store st icon cb dl ls :
  Browser.setupEventListeners
    {| Browser.world := w; Browser.data_theme := theme;
       Browser.localStorage := store; Browser.storage := st;
       Browser.theme_icon := icon;
       Browser.clipboard := cb; Browser.downloads := dl;
       Browser.listeners := ls |}
  = (Normal tt,
     {| Browser.world := w; Browser.data_theme := theme;
        Browser.localStorage := store; Browser.storage := st;
       Browser.theme_icon := icon;
        Browser.clipboard := cb; Browser.downloads := dl;
        Browser.listeners := ls ++ List.filter (on_page w) page_listeners |}).
Proof.
  unfold Browser.setupEventListeners.
  rewrite !bind_listener_run, bind_listener_eq. do 2 f_equal.
  unfold page_listeners. rewrite !(filter_cons_app _ _ (_ :: _)).
  by rewrite !app_assoc.
Qed.

Lemma on_page_same w w' l :
  keeps w w' -> adds_none w w' -> on_page w' l = on_page w l.
Proof.
  intros Hk Ha. unfold on_page. apply bool_decide_ext. split; [apply Ha | apply Hk].
Qed.

(** The run of [init] when the storage can be read. *)
Lemma init_run w theme store st icon cb dl ls :
  st <> Browser.StorageBlocked ->
  Browser.init net
    {| Browser.world := w; Browser.data_theme := theme;
       Browser.localStorage := store; Browser.storage := st;
       Browser.theme_icon := icon;
       Browser.clipboard := cb; Browser.downloads := dl;
       Browser.listeners := ls |}
  = (match fst (App.loadLanguages net w) with
     | Normal _ => Normal tt
     | Throw e => Throw e
     | Pending => Pending
     end,
     {| Browser.world :=
          match fst (App.loadLanguages net w) with
          | Normal _ =>
              snd (App.setDefaultLanguages (snd (App.loadLanguages net w)))
          | _ => snd (App.loadLanguages net w)
          end;
        Browser.data_theme := Some (theme_of (store !! "theme"));
        Browser.localStorage := store; Browser.storage := st;
        Browser.theme_icon :=
          match icon with
          | Some _ => Some (Browser.icon_for (theme_of (store !! "theme")))
          | None => None
          end;
        Browser.clipboard := cb; Browser.downloads := dl;
        Browser.listeners :=
          match fst (App.loadLanguages net w) with
          | Normal _ =>
              ls ++ List.filter (on_page (snd (App.loadLanguages net w)))
                      page_listeners
          | _ => ls
          end |}).
Proof.
  intros Hst. unfold Browser.init. unfold Browser.bindB at 1.
  rewrite (loadTheme_run (theme_of (store !! "theme"))) by done.
  unfold Browser.bindB at 1. unfold Browser.lift at 1.
  cbn [Browser.world].
  destruct (App.loadLanguages net w) as [[[]|e|] w1];
    cbn [fst snd Browser.world Browser.with_world Browser.data_theme
         Browser.localStorage Browser.storage Browser.theme_icon
         Browser.clipboard Browser.downloads Browser.listeners];
    [|reflexivity..].
  unfold Browser.with_world.
  cbn [Browser.world Browser.data_theme Browser.localStorage Browser.storage
       Browser.theme_icon Browser.clipboard Browser.downloads
       Browser.listeners].
  unfold Browser.bindB. rewrite setupEventListeners_run.
  unfold Browser.lift, Browser.with_world.
  cbn [fst snd Browser.world Browser.with_world Browser.data_theme
       Browser.localStorage Browser.storage Browser.theme_icon
       Browser.clipboard Browser.downloads Browser.listeners].
  by rewrite setDefaultLanguages_normal.
Qed.

Lemma init_blocked b :
  Browser.storage b = Browser.StorageBlocked ->
  Browser.init net b = (Throw SecurityError, b).
Proof.
  intros H. unfold Browser.init, Browser.bindB.
  by rewrite (loadTheme_blocked b H).
Qed.

(** X29. [init] throws exactly when the storage is closed to the page:
    the read of the theme fails, and nothing is loaded, bound or changed.
    Otherwise it sets the theme that is stored (the light one when none
    is) and neither adds nor removes an element. When it completes, the
    listeners bound are those of the elements of the page, each once and
    in the order of the source, and a language selector that offers
    "auto" (the source) or "hi" (the target) holds it. While the request
    for the languages is pending no listener is bound. *)
Theorem init_outcomes (b : Browser.State) :
  let r := Browser.init net b in
  (Browser.storage b = Browser.StorageBlocked ->
   r = (Throw SecurityError, b)) /\
  (Browser.storage b <> Browser.StorageBlocked ->
   (fst r = Normal tt \/ fst r = Pending) /\
   Browser.data_theme (snd r)
   = Some (theme_of (Browser.localStorage b !! "theme")) /\
   (forall id, is_Some (dom (Browser.world (snd r)) !! id)
               <-> is_Some (dom (Browser.world b) !! id)) /\
   (fst r = Normal tt ->
    Browser.listeners (snd r)
    = Browser.listeners b
      ++ List.filter (on_page (Browser.world b)) page_listeners /\
    (forall source, dom (Browser.world b) !! "sourceLanguage" = Some source ->
       exists s, dom (Browser.world (snd r)) !! "sourceLanguage" = Some s /\
                 (offers s (lit "auto") -> value s = lit "auto")) /\
    (forall target, dom (Browser.world b) !! "targetLanguage" = Some target ->
       exists t, dom (Browser.world (snd r)) !! "targetLanguage" = Some t /\
                 (offers t (lit "hi") -> value t = lit "hi"))) /\
   (fst r = Pending -> Browser.listeners (snd r) = Browser.listeners b)).
Proof.
  cbn zeta. split; [apply init_blocked|].
  destruct b as [w theme store st icon cb dl ls].
  cbn [Browser.storage]. intros Hst.
  rewrite init_run by done.
  cbn [fst snd Browser.world Browser.localStorage Browser.listeners
       Browser.data_theme].
  pose proof (loadLanguages_keeps w) as Hk1.
  pose proof (loadLanguages_adds_none w) as Ha1.
  pose proof (loadLanguages_no_throw w) as Hnt.
  destruct (App.loadLanguages net w) as [[[]|e|] w1]; cbn [fst snd] in *.
  - pose proof (setDefaultLanguages_keeps w1) as Hk2.
    pose proof (setDefaultLanguages_adds_none w1) as Ha2.
    destruct (setDefaultLanguages_values w1) as [Hsrc Htgt].
    split_and!.
    + by left.
    + done.
    + intros id. split; intros H; auto.
    + intros _. split_and!.
      * f_equal. apply filter_ext_in. intros l _. by apply on_page_same.
      * intros source Hs. destruct (Hk1 "sourceLanguage") as [s1 Hs1]; [eauto|].
        eexists. split; [by apply Hsrc | done].
      * intros target Ht. destruct (Hk1 "targetLanguage") as [t1 Ht1]; [eauto|].
        eexists. split; [by apply Htgt | done].
    + done.
  - by destruct (Hnt e).
  - split_and!; [by right | done | | done | done].
    intros id. split; intros H; auto.
Qed.

End Init.

Lemma init_outcomes_witness :
  let b := Demo.browser (Sample.page [] []) in
  let net :=
    Sample.answering
      (Sample.languages_response [Sample.auto_detect; Sample.hindi]) in
  Browser.listeners (snd (Browser.init net b))
  = [ ("inputText", Browser.InputEvent, Browser.OnInput);
      ("translateBtn", Browser.Click, Browser.OnTranslate);
      ("copyOutput", Browser.Click, Browser.OnCopy);
      ("downloadOutput", Browser.Click, Browser.OnDownload);
      ("summarizeBtn", Browser.Click, Browser.OnSummarize) ] /\
  (exists s,
     dom (Browser.world (snd (Browser.init net b))) !! "sourceLanguage"
     = Some s /\ value s = lit "auto") /\
  Browser.listeners (snd (Browser.init (fun _ => API.FetchPending) b)) = [] /\
  Browser.init net (Demo.blocked b) = (Throw SecurityError, Demo.blocked b).
Proof.
  intros b net.
  destruct (init_outcomes net b) as [_ H]. destruct H as (_ & _ & _ & H & _);
    [discriminate|].
  destruct H as (H1 & Hsrc & _); [eval_now|].
  destruct (init_outcomes (fun _ => API.FetchPending) b) as [_ H2].
  destruct H2 as (_ & _ & _ & _ & H2); [discriminate|].
  destruct (init_outcomes net (Demo.blocked b)) as [H3 _].
  split_and!.
  - rewrite H1. eval_now.
  - destruct (Hsrc (with_value (lit "en") Sample.element)) as (s & Hs & Hv);
      [eval_now|].
    exists s. split; [exact Hs|]. apply Hv. right.
    vm_compute in Hs. injection Hs as Hs. subst s.
    eexists. split; [constructor | eval_now].
  - rewrite H2 by eval_now. eval_now.
  - apply H3. reflexivity.
Defined.

(** ** App.handleSummarize: an original text that is too short *)

Section SummarizeOriginal.

Variable net : Request -> API.FetchOutcome.

Lemma validateInput_refuses text minLength w :
  (Z.of_nat (length (trim text)) < minLength)%Z ->
  fst (UI.validateInput text minLength w) = Normal false.
Proof.
  intros H. destruct (nonempty (trim text)) eqn:E.
  - by rewrite validateInput_short.
  - by rewrite validateInput_blank.
Qed.

(** The run of [handleSummarize] when the source is the original text and
    [validateInput] refuses it. *)
Lemma summarize_original_run w input :
  dom w !! "inputText" = Some input ->
  is_Some (dom w !! "outputText") ->
  summary_source w <> lit "translated" ->
  fst (UI.validateInput (trim (value input)) 50 w) = Normal false ->
  App.handleSummarize net w
  = (Normal tt,
     snd (UI.showStatus
            (lit "Text must be at least 50 characters for summarization")
            UI.TError UI.default_duration
            (snd (UI.validateInput (trim (value input)) 50 w)))).
Proof.
  intros Hi [output Ho] Hsrc Hv. unfold App.handleSummarize. run.
  unfold summary_source in Hsrc. rewrite (proj2 (eqb_false _ _) Hsrc).
  run. rewrite (bind_normal (UI.validateInput _ _) _ _ false Hv). cbn [negb].
  run. rewrite (bind_normal _ _ _ tt) by apply showStatus_normal.
  reflexivity.
Qed.

(** X30. A summarize action whose source is not "translated" (no source
    radio checked, "original", or any other value) takes the input text;
    when that text, trimmed, has fewer than 50 characters, be it empty,
    the action sends no request and never shows the loading state: it ends
    normally with the banner "Text must be at least 50 characters for
    summarization" in place of the message of [validateInput], and the
    session state and every element but the banner are as they were. *)
Theorem summarize_original_invalid (w : World) (input : Element) :
  dom w !! "inputText" = Some input ->
  is_Some (dom w !! "outputText") ->
  summary_source w <> lit "translated" ->
  (Z.of_nat (length (trim (value input))) < 50)%Z ->
  let w' := snd (App.handleSummarize net w) in
  fst (App.handleSummarize net w) = Normal tt /\
  requests w' = requests w /\
  app w' = app w /\
  (forall id, id <> "statusBar" -> id <> "statusMessage" ->
     dom w' !! id = dom w !! id) /\
  (is_Some (dom w !! "statusBar") -> is_Some (dom w !! "statusMessage") ->
   shows (lit "Text must be at least 50 characters for summarization")
     UI.TError w').
Proof.
  intros Hi Ho Hsrc Hlen w'. subst w'.
  assert (Hv : fst (UI.validateInput (trim (value input)) 50 w) = Normal false)
    by (apply validateInput_refuses; by rewrite trim_idemp).
  rewrite (summarize_original_run w input Hi Ho Hsrc Hv). cbn [fst snd].
  split_and!.
  - done.
  - rewrite showStatus_requests. apply validateInput_same_requests.
  - rewrite showStatus_app. apply validateInput_same_app.
  - intros id H1 H2. rewrite showStatus_lookup by done.
    apply validateInput_frame. solve_notin.
  - intros Hb Hm.
    destruct (validateInput_keeps (trim (value input)) 50 w _ Hb) as [bar Hb'].
    destruct (validateInput_keeps (trim (value input)) 50 w _ Hm) as [msg Hm'].
    by eapply showStatus_shows.
Qed.

End SummarizeOriginal.

Lemma summarize_original_invalid_witness :
  let w := Sample.page (lit "Too short") [] in
  fst (App.handleSummarize Sample.offline w) = Normal tt /\
  requests (snd (App.handleSummarize Sample.offline w)) = [] /\
  shows (lit "Text must be at least 50 characters for summarization")
    UI.TError (snd (App.handleSummarize Sample.offline w)).
Proof.
  intros w.
  destruct (summarize_original_invalid Sample.offline w
              (with_value (lit "Too short") Sample.element))
    as (H1 & H2 & _ & _ & H3);
    [ eval_now | eval_some | vm_compute; discriminate
    | vm_compute; reflexivity | ].
  split_and!; [exact H1 | rewrite H2; eval_now | apply H3; eval_some].
Defined.
